(** * update_live_intel: the fetch / normalize / filter / merge pipeline

    A shallow embedding of [scripts/update_live_intel.py] and the
    properties its specification states about it.

    Python values are modelled as follows.
    - [str] is a sequence of Unicode code points ([pystr = list N]).
    - A [dict] with string keys is an association list in insertion order.
    - A statement that can raise runs in [outcome]; [try ... except Exception]
      is [try_except].  Besides retrieval and the two decoders, the one
      call of the script that raises on a string is [html.unescape], on a
      decimal character reference of more than 4300 digits.
    - What the script takes from the interpreter and from the network
      (the HTTP client, the JSON and XML decoders, the clock, the Unicode
      tables behind [str.lower], [\d] and the HTML5 entity names) is an
      instance of the class [Runtime]. *)

From Stdlib Require Import List NArith Bool String Ascii Arith Lia.
From Stdlib Require Import DecimalString.
From Stdlib Require Import Sorting.Sorted Sorting.Permutation.
Import ListNotations.

Set Implicit Arguments.

(* ===================================================================== *)
(** * Strings *)
(* ===================================================================== *)

Definition pystr := list N.

(** An ASCII literal of the script, as code points. *)
Definition str (s : string) : pystr :=
  map N_of_ascii (list_ascii_of_string s).

Fixpoint str_eqb (a b : pystr) : bool :=
  match a, b with
  | [], [] => true
  | x :: a', y :: b' => N.eqb x y && str_eqb a' b'
  | _, _ => false
  end.

(** [bool(s)] of a string: true iff it is not empty. *)
Definition truthy (s : pystr) : bool :=
  match s with [] => false | _ :: _ => true end.

Fixpoint takewhile (p : N -> bool) (s : pystr) : pystr :=
  match s with
  | c :: r => if p c then c :: takewhile p r else []
  | [] => []
  end.

Fixpoint dropwhile (p : N -> bool) (s : pystr) : pystr :=
  match s with
  | c :: r => if p c then dropwhile p r else s
  | [] => []
  end.

(** [s.startswith(p)]. *)
Fixpoint startswith (p s : pystr) : bool :=
  match p, s with
  | [], _ => true
  | x :: p', y :: s' => N.eqb x y && startswith p' s'
  | _ :: _, [] => false
  end.

(** [s.find(p)]: the lowest index at which [p] occurs, [None] for -1. *)
Fixpoint find (p s : pystr) : option nat :=
  if startswith p s then Some 0
  else match s with
       | [] => None
       | _ :: r => option_map S (find p r)
       end.

(** [p in s] for strings. *)
Definition contains (p s : pystr) : bool :=
  match find p s with Some _ => true | None => false end.

(** [s[i:j]] for non-negative [i] and [j]. *)
Definition slice (i j : nat) (s : pystr) : pystr := skipn i (firstn j s).

(** [sep.join(parts)]. *)
Fixpoint join (sep : pystr) (parts : list pystr) : pystr :=
  match parts with
  | [] => []
  | [p] => p
  | p :: rest => p ++ sep ++ join sep rest
  end.

(** ** Whitespace

    [str.strip()] and the regular expression class [\s] on [str] patterns
    use the same predicate, [Py_UNICODE_ISSPACE]. *)
Definition isspace (c : N) : bool :=
  (((9 <=? c) && (c <=? 13)) || ((28 <=? c) && (c <=? 32))
   || (c =? 133) || (c =? 160) || (c =? 5760)
   || ((8192 <=? c) && (c <=? 8202))
   || (c =? 8232) || (c =? 8233) || (c =? 8239) || (c =? 8287)
   || (c =? 12288))%N.

Definition lstrip (s : pystr) : pystr := dropwhile isspace s.
Definition rstrip (s : pystr) : pystr := rev (dropwhile isspace (rev s)).
Definition strip (s : pystr) : pystr := rstrip (lstrip s).

(** ** Regular expressions

    [re.sub(pattern, repl, s)] scans [s] from the left; where the pattern
    matches at the current position the matched text is replaced and the
    scan resumes after it, elsewhere the character is copied.  A pattern
    is given by [match_at], the length of its match at the head of a
    string; no pattern of the script matches the empty string.  [skip]
    counts the characters of the current match still to be consumed. *)
Section ReSub.
Variable match_at : pystr -> option nat.
Variable repl : pystr -> pystr.

Fixpoint sub_from (skip : nat) (s : pystr) : pystr :=
  match s with
  | [] => []
  | c :: r =>
      match skip with
      | S k => sub_from k r
      | O =>
          match match_at s with
          | Some (S k) => repl (firstn (S k) s) ++ sub_from k r
          | _ => c :: sub_from 0 r
          end
      end
  end.

Definition re_sub (s : pystr) : pystr := sub_from 0 s.
End ReSub.

(** A literal pattern character under [re.IGNORECASE] (ASCII pattern
    characters only): the subject character is lower-cased and compared
    with the lower-cased literal and its extra case equivalents, which
    for ASCII letters are U+0130 and U+0131 for [i], U+017F for [s] and
    U+212A for [k]. *)
Definition ascii_lower (c : N) : N :=
  (if (65 <=? c) && (c <=? 90) then c + 32 else c)%N.

Definition ci_char (p c : N) : bool :=
  let lo := ascii_lower p in
  (if (97 <=? lo) && (lo <=? 122) then
     (c =? lo) || (c =? lo - 32)
     || ((lo =? 105) && ((c =? 304) || (c =? 305)))
     || ((lo =? 115) && (c =? 383))
     || ((lo =? 107) && (c =? 8490))
   else c =? p)%N.

(** Does the literal [p] match at the head of [s], ignoring case? *)
Fixpoint ci_startswith (p s : pystr) : bool :=
  match p, s with
  | [], _ => true
  | x :: p', y :: s' => ci_char x y && ci_startswith p' s'
  | _ :: _, [] => false
  end.

(** The lowest index at which the literal [p] matches, ignoring case. *)
Fixpoint ci_find (p s : pystr) : option nat :=
  if ci_startswith p s then Some 0
  else match s with
       | [] => None
       | _ :: r => option_map S (ci_find p r)
       end.

(** [\s+]: a maximal run of whitespace. *)
Definition match_ws (s : pystr) : option nat :=
  match List.length (takewhile isspace s) with
  | O => None
  | n => Some n
  end.

(** [open[\s\S]*?close] with [re.IGNORECASE]: the literal [open], then
    the shortest text that is followed by the literal [close]. *)
Definition match_block (open close s : pystr) : option nat :=
  if ci_startswith open s then
    match ci_find close (skipn (List.length open) s) with
    | Some j => Some (List.length open + j + List.length close)
    | None => None
    end
  else None.

(** [<[^>]+>]: [<], a maximal non-empty run of characters other than
    [>], then [>]. *)
Definition match_tag (s : pystr) : option nat :=
  match s with
  | 60%N :: r =>
      let run := takewhile (fun c => negb (c =? 62)%N) r in
      match run, skipn (List.length run) r with
      | _ :: _, 62%N :: _ => Some (List.length run + 2)
      | _, _ => None
      end
  | _ => None
  end.

Definition SP : pystr := [32%N].

(* ===================================================================== *)
(** * Values, exceptions and the runtime *)
(* ===================================================================== *)

(** The values the script stores in an item: [None] or a string. *)
Inductive pyval : Type :=
| PyNone
| PyStr (s : pystr).

(** [v or ''] *)
Definition or_empty (v : pyval) : pystr :=
  match v with PyNone => [] | PyStr s => s end.

(** [f'{v}'] *)
Definition format (v : pyval) : pystr :=
  match v with PyNone => str "None" | PyStr s => s end.

(** A [dict] keyed by strings, in insertion order. *)
Definition dict (V : Type) := list (pystr * V).

Fixpoint dict_lookup {V : Type} (d : dict V) (k : pystr) : option V :=
  match d with
  | [] => None
  | (k', v) :: d' => if str_eqb k' k then Some v else dict_lookup d' k
  end.

(** [d[k] = v]: an existing key keeps its place, a new one goes last. *)
Fixpoint dict_set {V : Type} (d : dict V) (k : pystr) (v : V) : dict V :=
  match d with
  | [] => [(k, v)]
  | (k', v') :: d' =>
      if str_eqb k' k then (k', v) :: d' else (k', v') :: dict_set d' k v
  end.

(** [d.values()]. *)
Definition values {V : Type} (d : dict V) : list V := map snd d.

Definition pydict := dict pyval.

(** [d.get(k)] and [d.get(k, default)]. *)
Definition get (d : pydict) (k : pystr) : pyval :=
  match dict_lookup d k with Some v => v | None => PyNone end.

Definition get_default (d : pydict) (k : pystr) (dflt : pyval) : pyval :=
  match dict_lookup d k with Some v => v | None => dflt end.

(** [d.setdefault(k, v)]: a present key is left as it is. *)
Definition setdefault (d : pydict) (k : pystr) (v : pyval) : pydict :=
  match dict_lookup d k with
  | Some _ => d
  | None => dict_set d k v
  end.

(** An exception, as far as the script looks at one: [str(exc)]. *)
Inductive exn : Type := Exn (msg : pystr).

Definition exc_str (e : exn) : pystr := match e with Exn m => m end.

Inductive outcome (A : Type) : Type :=
| Return (a : A)
| Raise (e : exn).

Arguments Return {A} a.
Arguments Raise {A} e.

Definition bind {A B : Type} (m : outcome A) (k : A -> outcome B) : outcome B :=
  match m with
  | Return a => k a
  | Raise e => Raise e
  end.

(** [try: body  except Exception as exc: handler]. *)
Definition try_except {A : Type} (body : outcome A) (handler : exn -> outcome A)
  : outcome A :=
  match body with
  | Return a => Return a
  | Raise e => handler e
  end.

Notation "x <- m ;; k" := (bind m (fun x => k))
  (at level 61, m at next level, right associativity).

(** A [for] loop whose body may raise. *)
Fixpoint for_each {A S : Type} (body : S -> A -> outcome S) (l : list A)
  (s : S) : outcome S :=
  match l with
  | [] => Return s
  | a :: l' => s' <- body s a ;; for_each body l' s'
  end.

(** An [xml.etree.ElementTree.Element]. *)
#[warnings="-register-all"]
Inductive Element : Type :=
| Elem (tag : pystr) (attrib : dict pystr) (text : option pystr)
       (children : list Element).

Definition tag (e : Element) : pystr :=
  match e with Elem t _ _ _ => t end.
Definition attrib (e : Element) : dict pystr :=
  match e with Elem _ a _ _ => a end.
Definition text (e : Element) : option pystr :=
  match e with Elem _ _ x _ => x end.
Definition children (e : Element) : list Element :=
  match e with Elem _ _ _ c => c end.

(** [e.findall(t)], [e.find(t)] and [e.findtext(t)] for a path that is a
    single tag: the children of [e] with that tag, in document order. *)
Definition findall (t : pystr) (e : Element) : list Element :=
  filter (fun c => str_eqb (tag c) t) (children e).

Definition find_elem (t : pystr) (e : Element) : option Element :=
  hd_error (findall t e).

Definition findtext (t : pystr) (e : Element) : option pystr :=
  match find_elem t e with
  | Some c => Some (match text c with Some s => s | None => [] end)
  | None => None
  end.

(** [x or ''] for an optional string. *)
Definition opt_or_empty (x : option pystr) : pystr :=
  match x with Some s => s | None => [] end.

(** The decoded body of a Federal Register response: a JSON object whose
    member [results], when there is one, is an array of documents.  A
    document is a JSON object; the members the script reads from it are
    strings or null, as the API documents them.  Answers of another
    shape are not covered here: on a member of another JSON type the
    loop over the documents can raise after it has merged some of them,
    and the sort that follows the loop, outside every [try] block, can
    raise [TypeError]. *)
Record payload : Type := { results : option (list pydict) }.

(** What one run of the script takes from outside. *)
Class Runtime : Type := {
  (** [str.lower] *)
  str_lower : pystr -> pystr;
  (** the class [\d]: Unicode decimal digits *)
  isdecimal : N -> bool;
  (** [html.entities.html5] *)
  html5 : pystr -> option pystr;
  (** [urllib.parse.urlencode] *)
  urlencode : dict pystr -> pystr;
  (** [urllib.request.urlopen] on a request with the given headers and
      timeout, followed by [read().decode('utf-8', errors='replace')] *)
  urlopen : pystr -> dict pystr -> N -> outcome pystr;
  (** [json.loads] *)
  json_loads : pystr -> outcome payload;
  (** [xml.etree.ElementTree.fromstring] *)
  fromstring : pystr -> outcome Element;
  (** [datetime.now(UTC).replace(microsecond=0).isoformat()] *)
  utcnow_isoformat : pystr
}.

(* ===================================================================== *)
(** * Configuration *)
(* ===================================================================== *)

Definition KEYWORDS : list pystr :=
  map str
    [ "tariff"; "tariffs"; "duty"; "duties"; "countermeasure";
      "countermeasures"; "retaliat"; "section 232"; "section 301"; "ieepa";
      "customs"; "trade"; "import"; "export" ]%string.

Module FEEDS.
Module federal_register.
Definition base : pystr :=
  str "https://www.federalregister.gov/api/v1/documents.json".
Definition terms : list pystr :=
  map str [ "tariff"; "duty"; "section 232"; "reciprocal tariff";
            "de minimis" ]%string.
Definition date_gte : pystr := str "2025-01-01".
Definition source : pystr := str "Federal Register API".
End federal_register.
Module cbp_csms.
Definition url : pystr :=
  str "https://content.govdelivery.com/accounts/USDHSCBP/widgets/USDHSCBP_WIDGET_2.rss".
Definition source : pystr :=
  str "U.S. Customs and Border Protection CSMS (GovDelivery RSS)".
End cbp_csms.
Module eu_commission.
Definition url : pystr :=
  str "https://ec.europa.eu/commission/presscorner/api/rss?language=en".
Definition source : pystr := str "European Commission Press Corner RSS".
End eu_commission.
Module uk_dbt.
Definition url : pystr :=
  str "https://www.gov.uk/search/news-and-communications.atom?keywords=tariff%20duty%20trade&organisations%5B%5D=department-for-business-and-trade".
Definition source : pystr := str "UK GOV.UK DBT news Atom feed".
End uk_dbt.
Module china_mofcom.
Definition url : pystr := str "https://english.mofcom.gov.cn/".
Definition source : pystr := str "MOFCOM English website".
End china_mofcom.
Module canada_finance.
Definition url : pystr :=
  str "https://www.canada.ca/en/department-finance/programs/international-trade-finance-policy/canadas-response-us-tariffs.html".
Definition source : pystr :=
  str "Government of Canada Department of Finance".
End canada_finance.
End FEEDS.

(* ===================================================================== *)
(** * [html.unescape] *)
(* ===================================================================== *)

Definition is_digit (c : N) : bool := ((48 <=? c) && (c <=? 57))%N.

Definition is_hexdigit (c : N) : bool :=
  (is_digit c || ((65 <=? c) && (c <=? 70)) || ((97 <=? c) && (c <=? 102)))%N.

Definition digit_value (c : N) : N :=
  (if is_digit c then c - 48 else if c <=? 70 then c - 55 else c - 87)%N.

(** The value of a string of digits of the given base. *)
Definition int_of (base : N) (ds : pystr) : N :=
  fold_left (fun acc d => acc * base + digit_value d)%N ds 0%N.

(** [str(n)] of a natural number. *)
Definition decimal (n : nat) : pystr :=
  str (NilEmpty.string_of_uint (Nat.to_uint n)).

(** [sys.get_int_max_str_digits()], which the script leaves at its
    default. *)
Definition MAX_STR_DIGITS : nat := 4300.

(** The [ValueError] of [int] on a string of [n] digits, [n] above the
    limit. *)
Definition int_limit_error (n : nat) : exn :=
  Exn (str "Exceeds the limit (4300 digits) for integer string conversion: value has "
       ++ decimal n
       ++ str " digits; use sys.set_int_max_str_digits() to increase the limit").

(** [int(ds)] on a string of decimal digits: the interpreter refuses a
    string of more than [MAX_STR_DIGITS] digits, leading zeros included.
    [int(ds, 16)] has no such limit and is [int_of 16 ds]. *)
Definition int10 (ds : pystr) : outcome N :=
  if MAX_STR_DIGITS <? List.length ds
  then Raise (int_limit_error (List.length ds))
  else Return (int_of 10 ds).

(** The class [[^\t\n\f <&#;]]. *)
Definition is_name_char (c : N) : bool :=
  negb ((c =? 9) || (c =? 10) || (c =? 12) || (c =? 32) || (c =? 60)
        || (c =? 38) || (c =? 35) || (c =? 59))%N.

(** One optional [;] at the head of [s]. *)
Definition opt_semicolon (s : pystr) : nat :=
  match s with 59%N :: _ => 1 | _ => 0 end.

(** [&(#[0-9]+;?|#[xX][0-9a-fA-F]+;?|[^\t\n\f <&#;]{1,32};?)] *)
Definition match_charref (s : pystr) : option nat :=
  match s with
  | 38%N :: 35%N :: r =>
      match takewhile is_digit r with
      | (_ :: _) as ds =>
          Some (2 + List.length ds + opt_semicolon (skipn (List.length ds) r))
      | [] =>
          match r with
          | x :: r' =>
              if ((x =? 120) || (x =? 88))%N then
                match takewhile is_hexdigit r' with
                | (_ :: _) as hs =>
                    Some (3 + List.length hs
                          + opt_semicolon (skipn (List.length hs) r'))
                | [] => None
                end
              else None
          | [] => None
          end
      end
  | 38%N :: r =>
      match firstn 32 (takewhile is_name_char r) with
      | (_ :: _) as nm =>
          Some (1 + List.length nm + opt_semicolon (skipn (List.length nm) r))
      | [] => None
      end
  | _ => None
  end.

Definition invalid_charrefs (n : N) : option pystr :=
  option_map (fun c : N => [c])
    (if (n =? 0)%N then Some 65533%N
     else if (n =? 13)%N then Some 13%N
     else if ((128 <=? n) && (n <=? 159))%N then
       nth_error
         [ 8364; 129; 8218; 402; 8222; 8230; 8224; 8225; 710; 8240; 352;
           8249; 338; 141; 381; 143; 144; 8216; 8217; 8220; 8221; 8226;
           8211; 8212; 732; 8482; 353; 8250; 339; 157; 382; 376 ]%N
         (N.to_nat (n - 128))
     else None).

Definition invalid_codepoints (n : N) : bool :=
  (((1 <=? n) && (n <=? 8)) || ((14 <=? n) && (n <=? 31))
   || ((127 <=? n) && (n <=? 159)) || ((64976 <=? n) && (n <=? 65007))
   || (n =? 11)
   || ((n <=? 1114111) && (65534 <=? N.land n 65535)))%N.

(** [s.rstrip(';')] *)
Definition rstrip_semicolons (s : pystr) : pystr :=
  rev (dropwhile (fun c => (c =? 59)%N) (rev s)).

(** [re.sub] with a function for [repl]: it is called on each match in
    turn, from the left, and may raise. *)
Section ReSubCall.
Variable match_at : pystr -> option nat.
Variable repl : pystr -> outcome pystr.

Fixpoint sub_call_from (skip : nat) (s : pystr) : outcome pystr :=
  match s with
  | [] => Return []
  | c :: r =>
      match skip with
      | S k => sub_call_from k r
      | O =>
          match match_at s with
          | Some (S k) =>
              v <- repl (firstn (S k) s) ;;
              rest <- sub_call_from k r ;;
              Return (v ++ rest)
          | _ =>
              rest <- sub_call_from 0 r ;;
              Return (c :: rest)
          end
      end
  end.

Definition re_sub_call (s : pystr) : outcome pystr := sub_call_from 0 s.
End ReSubCall.

Section Unescape.
Context {rt : Runtime}.

(** The loop [for x in range(len(s)-1, 1, -1)] of [_replace_charref],
    entered at [x]: the longest proper prefix of [s], of two characters
    at least, that names an entity. *)
Fixpoint longest_name (s : pystr) (x : nat) : pystr :=
  match x with
  | S (S _ as x') =>
      match html5 (firstn x s) with
      | Some v => v ++ skipn x s
      | None => longest_name s x'
      end
  | _ => 38%N :: s
  end.

(** [_replace_charref], on the matched text [&s].  It raises where
    [int] does: on a decimal reference of more than 4300 digits. *)
Definition replace_charref (m : pystr) : outcome pystr :=
  match m with
  | _ :: (35%N :: r) =>
      num <- match r with
             | x :: r' =>
                 if ((x =? 120) || (x =? 88))%N
                 then Return (int_of 16 (rstrip_semicolons r'))
                 else int10 (rstrip_semicolons r)
             | [] => Return 0%N
             end ;;
      Return
        match invalid_charrefs num with
        | Some v => v
        | None =>
            if (((55296 <=? num) && (num <=? 57343)) || (1114111 <? num))%N
            then [65533%N]
            else if invalid_codepoints num then []
            else [num]
        end
  | _ :: s =>
      Return
        match html5 s with
        | Some v => v
        | None => longest_name s (List.length s - 1)
        end
  | [] => Return []
  end.

(** [html.unescape]: the references are replaced from left to right, and
    the first replacement that raises ends the call. *)
Definition unescape (s : pystr) : outcome pystr :=
  if negb (existsb (fun c => (c =? 38)%N) s) then Return s
  else re_sub_call match_charref replace_charref s.
End Unescape.

(* ===================================================================== *)
(** * Text normalizer and keyword filter *)
(* ===================================================================== *)

(** [re.sub(r'\s+', ' ', (text or '').strip())] *)
Definition normalize_ws (text : pystr) : pystr :=
  re_sub match_ws (fun _ => SP) (strip text).

Section Text.
Context {rt : Runtime}.

Definition strip_tags (html : pystr) : outcome pystr :=
  let text :=
    re_sub (match_block (str "<script") (str "</script>")) (fun _ => SP)
           html in
  let text :=
    re_sub (match_block (str "<style") (str "</style>")) (fun _ => SP)
           text in
  let text := re_sub match_tag (fun _ => SP) text in
  text <- unescape text ;;
  Return (normalize_ws text).

Definition contains_keyword (text : pystr) : bool :=
  let t := str_lower text in
  existsb (fun k => contains k t) KEYWORDS.

Definition now_utc_iso : pystr := utcnow_isoformat.

Definition fetch_text (url : pystr) : outcome pystr :=
  urlopen url
    [(str "User-Agent",
      str "TrumptarifftrackerBot/1.0 (+https://github.com/)")]
    25%N.
End Text.

(* ===================================================================== *)
(** * Format parsers *)
(* ===================================================================== *)

(** The characters of a string are compared by code point, strings
    lexicographically. *)
Fixpoint str_compare (a b : pystr) : comparison :=
  match a, b with
  | [], [] => Eq
  | [], _ :: _ => Lt
  | _ :: _, [] => Gt
  | x :: a', y :: b' =>
      match N.compare x y with
      | Eq => str_compare a' b'
      | c => c
      end
  end.

(** [re.findall] and [re.search] for a pattern with groups: [match_at]
    gives the groups and the length of the match at the head. *)
Section ReFind.
Variable G : Type.
Variable match_at : pystr -> option (G * nat).

Fixpoint findall_from (skip : nat) (s : pystr) : list G :=
  match s with
  | [] => []
  | _ :: r =>
      match skip with
      | S k => findall_from k r
      | O =>
          match match_at s with
          | Some (g, S k) => g :: findall_from k r
          | _ => findall_from 0 r
          end
      end
  end.

Definition re_findall (s : pystr) : list G := findall_from 0 s.

Fixpoint re_search (s : pystr) : option G :=
  match match_at s with
  | Some (g, _) => Some g
  | None => match s with [] => None | _ :: r => re_search r end
  end.
End ReFind.

Definition not_quote (c : N) : bool := negb (c =? 34)%N.

(** In the comments below [Q] stands for the double quote character.

    [[^>]*lit([^Q]+)Q] with [re.IGNORECASE], for a literal [lit]: the
    group and the length of the match.  The greedy [[^>]*] gives up
    characters only when the rest fails, so a match further right is
    preferred. *)
Fixpoint match_attr (lit s : pystr) : option (pystr * nat) :=
  let here :=
    if ci_startswith lit s then
      let g := takewhile not_quote (skipn (List.length lit) s) in
      match g, skipn (List.length lit + List.length g) s with
      | _ :: _, 34%N :: _ => Some (g, List.length lit + List.length g + 1)
      | _, _ => None
      end
    else None in
  match s with
  | [] => here
  | c :: r =>
      if (c =? 62)%N then here
      else match match_attr lit r with
           | Some (g, n) => Some (g, S n)
           | None => here
           end
  end.

Definition A_HREF : pystr := str "<a href=" ++ [34%N].
Definition REMARKS_PATH : pystr := str "/News/SpokesmansRemarks/".
Definition TITLE_EQ : pystr := str "title=" ++ [34%N].

(** [<a href=Q([^Q]*?/News/SpokesmansRemarks/[^Q]+)Q[^>]*title=Q([^Q]+)Q]
    with [re.IGNORECASE].  The first group holds no quote and is followed
    by one, so it is the whole run up to the next quote; the path must
    occur in it with a character to spare. *)
Definition match_anchor (s : pystr) : option ((pystr * pystr) * nat) :=
  if ci_startswith A_HREF s then
    let s1 := skipn (List.length A_HREF) s in
    let href := takewhile not_quote s1 in
    match skipn (List.length href) s1 with
    | 34%N :: s2 =>
        match ci_find REMARKS_PATH href with
        | Some i =>
            if i + List.length REMARKS_PATH <? List.length href then
              match match_attr TITLE_EQ s2 with
              | Some (title, n) =>
                  Some ((href, title),
                        List.length A_HREF + List.length href + 1 + n)
              | None => None
              end
            else None
        | None => None
        end
    | _ => None
    end
  else None.

Definition META_MODIFIED : pystr :=
  str "<meta name=" ++ [34%N] ++ str "dcterms.modified" ++ [34%N].
Definition CONTENT_EQ : pystr := str "content=" ++ [34%N].

(** [<meta name=Qdcterms\.modifiedQ[^>]*content=Q([^Q]+)Q] with
    [re.IGNORECASE]. *)
Definition match_meta (s : pystr) : option (pystr * nat) :=
  if ci_startswith META_MODIFIED s then
    match match_attr CONTENT_EQ (skipn (List.length META_MODIFIED) s) with
    | Some (g, n) => Some (g, List.length META_MODIFIED + n)
    | None => None
    end
  else None.

Section Parsers.
Context {rt : Runtime}.

(** [/art/(\d{4})/] *)
Definition match_year (s : pystr) : option (pystr * nat) :=
  if startswith (str "/art/") s then
    match skipn 5 s with
    | d1 :: d2 :: d3 :: d4 :: 47%N :: _ =>
        if isdecimal d1 && isdecimal d2 && isdecimal d3 && isdecimal d4
        then Some ([d1; d2; d3; d4], 10)
        else None
    | _ => None
    end
  else None.

Definition rss_row (item : Element) : outcome pydict :=
  let title := normalize_ws (opt_or_empty (findtext (str "title") item)) in
  let link := normalize_ws (opt_or_empty (findtext (str "link") item)) in
  let pub_date :=
    normalize_ws (opt_or_empty (findtext (str "pubDate") item)) in
  let guid := normalize_ws (opt_or_empty (findtext (str "guid") item)) in
  let description := opt_or_empty (findtext (str "description") item) in
  let category :=
    join (str ", ")
      (map (fun c => normalize_ws (opt_or_empty (text c)))
         (filter (fun c => truthy (strip (opt_or_empty (text c))))
            (findall (str "category") item))) in
  stripped <- strip_tags description ;;
  Return
    [ (str "title", PyStr title);
      (str "link", PyStr link);
      (str "pub_date", PyStr pub_date);
      (str "guid", PyStr guid);
      (str "category", PyStr category);
      (str "description", PyStr (firstn 700 stripped)) ].

(** The body of the loop over the items: [rows.append(...)]. *)
Definition append_row (rows : list pydict) (item : Element)
  : outcome (list pydict) :=
  row <- rss_row item ;;
  Return (rows ++ [row]).

Definition parse_rss_items (xml_text : pystr) : outcome (list pydict) :=
  root <- fromstring xml_text ;;
  match find_elem (str "channel") root with
  | None => Return []
  | Some channel => for_each append_row (findall (str "item") channel) []
  end.

(** A tag of the namespace the prefix [a] is bound to. *)
Definition atom (name : string) : pystr :=
  str "{http://www.w3.org/2005/Atom}" ++ str name.

Definition atom_row (entry : Element) : pydict :=
  let findtext_default t :=
    match findtext t entry with Some s => s | None => [] end in
  let title := normalize_ws (findtext_default (atom "title")) in
  let updated := normalize_ws (findtext_default (atom "updated")) in
  let summary := normalize_ws (findtext_default (atom "summary")) in
  let link :=
    match find_elem (atom "link") entry with
    | Some link_node =>
        normalize_ws
          (opt_or_empty (dict_lookup (attrib link_node) (str "href")))
    | None => []
    end in
  [ (str "title", PyStr title);
    (str "link", PyStr link);
    (str "updated", PyStr updated);
    (str "summary", PyStr summary) ].

Definition parse_atom_entries (xml_text : pystr) : outcome (list pydict) :=
  root <- fromstring xml_text ;;
  Return (map atom_row (findall (atom "entry") root)).
End Parsers.

(* ===================================================================== *)
(** * Source fetchers *)
(* ===================================================================== *)

(** The [out] dictionary of a fetcher.  [dcterms_modified] is a key of
    the Canada result only ([None] here: no such key). *)
Record FetchResult : Type := {
  source : pystr;
  source_url : pystr;
  items : list pydict;
  errors : list pystr;
  dcterms_modified : option pyval
}.

Definition new_result (src url : pystr) : FetchResult :=
  {| source := src; source_url := url; items := []; errors := [];
     dcterms_modified := None |}.

(** [out['items'] = l] *)
Definition set_items (out : FetchResult) (l : list pydict) : FetchResult :=
  {| source := source out; source_url := source_url out; items := l;
     errors := errors out; dcterms_modified := dcterms_modified out |}.

(** [out['errors'].append(e)] *)
Definition append_error (out : FetchResult) (e : pystr) : FetchResult :=
  {| source := source out; source_url := source_url out; items := items out;
     errors := errors out ++ [e]; dcterms_modified := dcterms_modified out |}.

(** [out['dcterms_modified'] = v] *)
Definition set_modified (out : FetchResult) (v : pyval) : FetchResult :=
  {| source := source out; source_url := source_url out; items := items out;
     errors := errors out; dcterms_modified := Some v |}.

(** The sort key of the Federal Register items and the order of tuples
    of strings. *)
Definition sort_key (x : pydict) : pystr * pystr :=
  (or_empty (get x (str "publication_date")),
   or_empty (get x (str "document_number"))).

Definition key_compare (a b : pystr * pystr) : comparison :=
  match str_compare (fst a) (fst b) with
  | Eq => str_compare (snd a) (snd b)
  | c => c
  end.

Definition key_ltb (a b : pystr * pystr) : bool :=
  match key_compare a b with Lt => true | _ => false end.

(** [sorted(l, key=key, reverse=True)]: descending, and stable (items
    with equal keys stay in their order in [l]). *)
Section Sorted.
Variable A : Type.
Variable key : A -> pystr * pystr.

Fixpoint insert_desc (x : A) (l : list A) : list A :=
  match l with
  | [] => [x]
  | y :: l' =>
      if key_ltb (key x) (key y) then y :: insert_desc x l'
      else x :: l
  end.

Definition sorted_reverse (l : list A) : list A :=
  fold_right insert_desc [] l.
End Sorted.

Section Fetchers.
Context {rt : Runtime}.

(** One document of one query, merged into [merged]. *)
Definition merge_doc (term : pystr) (merged : dict pydict) (doc : pydict)
  : dict pydict :=
  let doc_num := or_empty (get doc (str "document_number")) in
  let key :=
    if truthy doc_num then doc_num
    else or_empty (get doc (str "html_url")) in
  if negb (truthy key) then merged
  else
    let title := normalize_ws (or_empty (get doc (str "title"))) in
    let abstract := normalize_ws (or_empty (get doc (str "abstract"))) in
    if negb (contains_keyword (title ++ SP ++ abstract)) then merged
    else
      let existing := dict_lookup merged key in
      let item : pydict :=
        [ (str "document_number", PyStr doc_num);
          (str "publication_date", get doc (str "publication_date"));
          (str "title", PyStr title);
          (str "type", get doc (str "type"));
          (str "html_url", get doc (str "html_url"));
          (str "raw_text_url", get doc (str "raw_text_url"));
          (str "term_hit", PyStr term) ] in
      match existing with
      | None => dict_set merged key item
      | Some existing =>
          (* [existing] is the dictionary stored in [merged] *)
          dict_set merged key
            (setdefault existing (str "term_hit") (PyStr term))
      end.

Definition query_url (term : pystr) : pystr :=
  let query :=
    [ (str "per_page", str "100");
      (str "order", str "newest");
      (str "conditions[publication_date][gte]",
       FEEDS.federal_register.date_gte);
      (str "conditions[term]", term) ] in
  FEEDS.federal_register.base ++ str "?" ++ urlencode query.

(** The body of the loop over the terms.  Merging a document whose
    members are strings or null (see [payload]) does not raise, so the
    [try] block raises in retrieval or in decoding only, before it has
    touched [merged]. *)
Definition fetch_term (st : dict pydict * FetchResult) (term : pystr)
  : outcome (dict pydict * FetchResult) :=
  let '(merged, out) := st in
  try_except
    (raw <- fetch_text (query_url term) ;;
     payload <- json_loads raw ;;
     let docs := match results payload with Some l => l | None => [] end in
     Return (fold_left (merge_doc term) docs merged, out))
    (fun exc =>
       Return (merged,
               append_error out
                 (str "term=" ++ term ++ str ": " ++ exc_str exc))).

Definition fetch_federal_register : outcome FetchResult :=
  let out :=
    new_result FEEDS.federal_register.source FEEDS.federal_register.base in
  st <- for_each fetch_term FEEDS.federal_register.terms ([], out) ;;
  let '(merged, out) := st in
  let items := sorted_reverse sort_key (values merged) in
  Return (set_items out (firstn 80 items)).

(** [f'{i.get(a, "")} {i.get(b, "")}'] and its three-field form. *)
Definition fields2 (i : pydict) (a b : string) : pystr :=
  format (get_default i (str a) (PyStr []))
  ++ SP ++ format (get_default i (str b) (PyStr [])).

Definition fields3 (i : pydict) (a b c : string) : pystr :=
  fields2 i a b ++ SP ++ format (get_default i (str c) (PyStr [])).

Definition fetch_cbp_csms : outcome FetchResult :=
  let out := new_result FEEDS.cbp_csms.source FEEDS.cbp_csms.url in
  try_except
    (xml_text <- fetch_text FEEDS.cbp_csms.url ;;
     items <- parse_rss_items xml_text ;;
     let filtered :=
       filter (fun i => contains_keyword (fields2 i "title" "description"))
         items in
     Return (set_items out (firstn 40 filtered)))
    (fun exc => Return (append_error out (exc_str exc))).

Definition fetch_eu_feed : outcome FetchResult :=
  let out :=
    new_result FEEDS.eu_commission.source FEEDS.eu_commission.url in
  try_except
    (xml_text <- fetch_text FEEDS.eu_commission.url ;;
     items <- parse_rss_items xml_text ;;
     let filtered :=
       filter
         (fun i =>
            contains_keyword (fields3 i "title" "description" "category"))
         items in
     Return
       (set_items out
          (firstn 25 (match filtered with [] => items | _ => filtered end))))
    (fun exc => Return (append_error out (exc_str exc))).

Definition fetch_uk_feed : outcome FetchResult :=
  let out := new_result FEEDS.uk_dbt.source FEEDS.uk_dbt.url in
  try_except
    (xml_text <- fetch_text FEEDS.uk_dbt.url ;;
     items <- parse_atom_entries xml_text ;;
     let filtered :=
       filter (fun i => contains_keyword (fields2 i "title" "summary"))
         items in
     Return (set_items out (firstn 25 filtered)))
    (fun exc => Return (append_error out (exc_str exc))).

(** The body of the loop over the anchors found on the MOFCOM page:
    [rows] and the set [seen]. *)
Definition scrape_anchor (st : list pydict * list pystr)
  (m : pystr * pystr) : outcome (list pydict * list pystr) :=
  let '(rows, seen) := st in
  let '(href, title) := m in
  let full :=
    if startswith (str "http") href then href
    else str "https://english.mofcom.gov.cn" ++ href in
  if existsb (str_eqb full) seen then Return (rows, seen)
  else
    let seen := full :: seen in
    unescaped <- unescape title ;;
    let clean_title := normalize_ws unescaped in
    let year :=
      match re_search match_year full with
      | Some y => y
      | None => []
      end in
    Return
      (rows ++ [ [ (str "title", PyStr clean_title);
                   (str "link", PyStr full);
                   (str "pub_date", PyStr year);
                   (str "description",
                    PyStr (str "MOFCOM spokesperson remarks entry")) ] ],
       seen).

(** The rows scraped from the page, when no title makes [unescape]
    raise. *)
Definition mofcom_rows (html : pystr) : outcome (list pydict) :=
  st <- for_each scrape_anchor (re_findall match_anchor html) ([], []) ;;
  Return (fst st).

(** The relevance test of the MOFCOM rows; the title of a row is a
    string. *)
Definition mofcom_relevant (r : pydict) : bool :=
  let title := or_empty (get_default r (str "title") (PyStr [])) in
  contains_keyword title || contains (str "spokesperson") (str_lower title).

Definition mofcom_placeholder : pydict :=
  [ (str "title",
     PyStr (str "MOFCOM English feed temporarily unavailable; check source directly."));
    (str "link", PyStr FEEDS.china_mofcom.url);
    (str "pub_date", PyStr []);
    (str "description",
     PyStr (str "Automated pull failed in this run. Open source URL for latest postings.")) ].

Definition fetch_china_mofcom : outcome FetchResult :=
  let out := new_result FEEDS.china_mofcom.source FEEDS.china_mofcom.url in
  try_except
    (html <- fetch_text FEEDS.china_mofcom.url ;;
     rows <- mofcom_rows html ;;
     let filtered := filter mofcom_relevant rows in
     Return
       (set_items out
          (firstn 25 (match filtered with [] => rows | _ => filtered end))))
    (fun exc =>
       Return (set_items (append_error out (exc_str exc))
                 [mofcom_placeholder])).

Definition canada_markers : list pystr :=
  map str
    [ "Countermeasures in response to U.S. tariffs";
      "counter tariffs on steel, aluminum and automobiles remain";
      "removed counter tariffs";
      "25 per cent tariffs" ]%string.

(** The loop over the markers: the snippets found in [text]. *)
Definition canada_snippets (text : pystr) : list pystr :=
  flat_map
    (fun marker =>
       match find (str_lower marker) (str_lower text) with
       | Some idx => [slice (idx - 120) (idx + 260) text]
       | None => []
       end)
    canada_markers.

(** The [try] block assigns [out['dcterms_modified']] before it strips
    the page, so the handler finds [out] as the statement that raised
    left it: the block is written in two parts, before and after that
    assignment, with the one handler for both. *)
Definition fetch_canada_page : outcome FetchResult :=
  let out :=
    set_modified
      (new_result FEEDS.canada_finance.source FEEDS.canada_finance.url)
      PyNone in
  match fetch_text FEEDS.canada_finance.url with
  | Raise exc => Return (append_error out (exc_str exc))
  | Return html =>
      let modified :=
        match re_search match_meta html with
        | Some g => PyStr g
        | None => PyNone
        end in
      let out := set_modified out modified in
      try_except
        (text <- strip_tags html ;;
         let snippets := canada_snippets text in
         let summary :=
           match snippets with
           | [] => str "Official policy page for Canada's tariff response."
           | _ => firstn 900 (normalize_ws (join (str " | ") snippets))
           end in
         Return
           (set_items out
              [ [ (str "title",
                   PyStr
                     (str "Canada's response to U.S. tariffs (policy page)"));
                  (str "link", PyStr FEEDS.canada_finance.url);
                  (str "pub_date", PyStr (or_empty modified));
                  (str "description", PyStr summary) ] ]))
        (fun exc => Return (append_error out (exc_str exc)))
  end.
End Fetchers.

(* ===================================================================== *)
(** * Aggregator *)
(* ===================================================================== *)

Record About : Type := {
  description : pystr;
  keyword_filter : list pystr
}.

Record Retaliation : Type := {
  eu_commission : FetchResult;
  uk_dbt : FetchResult;
  china_mofcom : FetchResult;
  canada_finance : FetchResult
}.

Record Feeds : Type := {
  federal_register : FetchResult;
  cbp_csms : FetchResult;
  retaliation : Retaliation
}.

Record Snapshot : Type := {
  generated_at : pystr;
  about : About;
  feeds : Feeds
}.

Section Aggregator.
Context {rt : Runtime}.

Definition build_payload : outcome Snapshot :=
  let generated := now_utc_iso in
  fr <- fetch_federal_register ;;
  csms <- fetch_cbp_csms ;;
  eu <- fetch_eu_feed ;;
  uk <- fetch_uk_feed ;;
  china <- fetch_china_mofcom ;;
  canada <- fetch_canada_page ;;
  Return
    {| generated_at := generated;
       about :=
         {| description :=
              str "Automated live intelligence pull from official government/legal sources.";
            keyword_filter := KEYWORDS |};
       feeds :=
         {| federal_register := fr;
            cbp_csms := csms;
            retaliation :=
              {| eu_commission := eu;
                 uk_dbt := uk;
                 china_mofcom := china;
                 canada_finance := canada |} |} |}.
End Aggregator.

(* ===================================================================== *)
(** * Auxiliary notions for the proofs *)
(* ===================================================================== *)

(** The substitution of [normalize_ws]. *)
Definition collapse : pystr -> pystr := re_sub match_ws (fun _ => SP).

(** A string is [tidy] when each of its whitespace characters is a
    space followed by a character that is not whitespace, and
    [normalized] when, in addition, it does not start with whitespace. *)
Fixpoint tidy (s : pystr) : Prop :=
  match s with
  | [] => True
  | c :: r =>
      (isspace c = true ->
       c = 32%N /\ match r with [] => False | d :: _ => isspace d = false end)
      /\ tidy r
  end.

Definition starts_clean (s : pystr) : Prop :=
  match s with [] => True | c :: _ => isspace c = false end.

Definition normalized (s : pystr) : Prop := starts_clean s /\ tidy s.

(** The last character, if any, is not whitespace. *)
Fixpoint ends_clean (s : pystr) : Prop :=
  match s with
  | [] => True
  | [c] => isspace c = false
  | _ :: r => ends_clean r
  end.

(** The field [k] of a row is unchanged by [normalize_ws]. *)
Definition fixed_field (row : pydict) (k : string) : Prop :=
  normalize_ws (or_empty (get row (str k))) = or_empty (get row (str k)).

(** The descending order of the Federal Register items: the key of [x]
    is not below the key of [y]. *)
Definition key_ge (x y : pydict) : Prop :=
  key_compare (sort_key x) (sort_key y) <> Lt.

(** The item [merge_doc] stores for a document first seen under [term]. *)
Definition fr_item (term : pystr) (doc : pydict) : pydict :=
  [ (str "document_number",
     PyStr (or_empty (get doc (str "document_number"))));
    (str "publication_date", get doc (str "publication_date"));
    (str "title", PyStr (normalize_ws (or_empty (get doc (str "title")))));
    (str "type", get doc (str "type"));
    (str "html_url", get doc (str "html_url"));
    (str "raw_text_url", get doc (str "raw_text_url"));
    (str "term_hit", PyStr term) ].

(** The identity key of a document: its number, or its URL. *)
Definition doc_key (doc : pydict) : pystr :=
  let doc_num := or_empty (get doc (str "document_number")) in
  if truthy doc_num then doc_num else or_empty (get doc (str "html_url")).

Section Relevance.
Context {rt : Runtime}.

(** The relevance tests of the fetchers. *)
Definition fr_relevant (doc : pydict) : bool :=
  contains_keyword
    (normalize_ws (or_empty (get doc (str "title"))) ++ SP
     ++ normalize_ws (or_empty (get doc (str "abstract")))).

Definition cbp_relevant (i : pydict) : bool :=
  contains_keyword (fields2 i "title" "description").

Definition eu_relevant (i : pydict) : bool :=
  contains_keyword (fields3 i "title" "description" "category").

Definition uk_relevant (i : pydict) : bool :=
  contains_keyword (fields2 i "title" "summary").
End Relevance.

(** ** A runtime for concrete runs

    ASCII lower-casing and digits, a few entity names, and a network, a
    JSON decoder and an XML decoder given by the scenario. *)
Module Demo.
Definition entities : dict pystr :=
  [ (str "nbsp;", [160%N]); (str "amp;", [38%N]); (str "amp", [38%N]);
    (str "lt;", [60%N]); (str "gt;", [62%N]); (str "quot;", [34%N]) ].

(** The value of the last parameter of a query, here the search term. *)
Definition last_value (query : dict pystr) : pystr :=
  match rev query with (_, v) :: _ => v | [] => [] end.

Definition runtime (net : pystr -> outcome pystr)
  (json : pystr -> outcome payload) (xml : pystr -> outcome Element)
  : Runtime :=
  {| str_lower := map ascii_lower;
     isdecimal := is_digit;
     html5 := dict_lookup entities;
     urlencode := last_value;
     urlopen := fun url _ _ => net url;
     json_loads := json;
     fromstring := xml;
     utcnow_isoformat := str "2026-01-01T00:00:00+00:00" |}.

(** An RSS document with one item, whose description is 699 letters, a
    space and one more letter. *)
Definition long_description : pystr := repeat 97%N 699 ++ str " b".

Definition long_feed : Element :=
  Elem (str "rss") [] None
    [ Elem (str "channel") [] None
        [ Elem (str "item") [] None
            [ Elem (str "title") [] (Some (str "Tariff notice")) [];
              Elem (str "description") [] (Some long_description) [] ] ] ].

Definition long_feed_runtime : Runtime :=
  runtime (fun _ => Return []) (fun _ => Raise (Exn []))
    (fun _ => Return long_feed).

(** The Federal Register API answering the queries for [tariff] and for
    [duty] with the same document number [X], under different titles
    and dates, and every other query with no results. *)
Definition doc_x_tariff : pydict :=
  [ (str "document_number", PyStr (str "X"));
    (str "title", PyStr (str "Tariff schedule update"));
    (str "publication_date", PyStr (str "2025-03-01"));
    (str "type", PyStr (str "Rule"));
    (str "html_url", PyStr (str "https://www.federalregister.gov/d/X")) ].

Definition doc_x_duty : pydict :=
  [ (str "document_number", PyStr (str "X"));
    (str "title", PyStr (str "Duty and tariff notice"));
    (str "publication_date", PyStr (str "2025-04-01"));
    (str "type", PyStr (str "Notice"));
    (str "html_url", PyStr (str "https://www.federalregister.gov/d/X-2")) ].

Definition api (raw : pystr) : outcome payload :=
  if str_eqb raw (FEEDS.federal_register.base ++ str "?tariff")
  then Return {| results := Some [doc_x_tariff] |}
  else if str_eqb raw (FEEDS.federal_register.base ++ str "?duty")
  then Return {| results := Some [doc_x_duty] |}
  else Return {| results := None |}.

Definition two_queries : Runtime :=
  runtime (fun url => Return url) api (fun _ => Raise (Exn [])).

(** A day without trade news: feeds and a MOFCOM page that parse, and
    hold nothing the relevance filters accept. *)
Definition leaf (name value : string) : Element :=
  Elem (str name) [] (Some (str value)) [].

Definition quiet_rss : Element :=
  Elem (str "rss") [] None
    [ Elem (str "channel") [] None
        [ Elem (str "item") [] None
            [ leaf "title" "Weather report";
              leaf "description" "Rain is expected" ];
          Elem (str "item") [] None
            [ leaf "title" "Sports results";
              leaf "description" "The home team wins" ] ] ].

Definition quiet_atom : Element :=
  Elem (str "{http://www.w3.org/2005/Atom}feed") [] None
    [ Elem (atom "entry") [] None
        [ Elem (atom "title") [] (Some (str "Minister visits a school")) [];
          Elem (atom "summary") [] (Some (str "A visit")) [] ] ].

Definition quiet_page : pystr :=
  str "<li><a href=" ++ [34%N]
  ++ str "/News/SpokesmansRemarks/art/2025/art_1.html" ++ [34%N]
  ++ str " title=" ++ [34%N] ++ str "Weekly press briefing" ++ [34%N]
  ++ str ">Weekly press briefing</a></li>".

Definition quiet : Runtime :=
  runtime
    (fun url =>
       if str_eqb url FEEDS.china_mofcom.url then Return quiet_page
       else Return url)
    api
    (fun xml_text =>
       if str_eqb xml_text FEEDS.uk_dbt.url then Return quiet_atom
       else Return quiet_rss).

(** A day with trade news: one relevant item among two in the feed, one
    relevant anchor among two on the page. *)
Definition busy_rss : Element :=
  Elem (str "rss") [] None
    [ Elem (str "channel") [] None
        [ Elem (str "item") [] None
            [ leaf "title" "Weather report";
              leaf "description" "Rain is expected" ];
          Elem (str "item") [] None
            [ leaf "title" "EU response to new tariffs";
              leaf "description" "Statement by the Commission" ] ] ].

Definition busy_page : pystr :=
  quiet_page
  ++ str "<li><a href=" ++ [34%N]
  ++ str "/News/SpokesmansRemarks/art/2025/art_2.html" ++ [34%N]
  ++ str " title=" ++ [34%N] ++ str "Spokesperson on tariff measures"
  ++ [34%N] ++ str ">Remarks</a></li>".

Definition busy : Runtime :=
  runtime
    (fun url =>
       if str_eqb url FEEDS.china_mofcom.url then Return busy_page
       else Return url)
    api
    (fun _ => Return busy_rss).

(** Responses that arrive and do not parse. *)
Definition garbled : Runtime :=
  runtime (fun url => Return url)
    (fun _ => Raise (Exn (str "Expecting value")))
    (fun _ => Raise (Exn (str "syntax error: line 1, column 0"))).

(** An XML decoder that yields [root] for every input. *)
Definition with_xml (root : Element) : Runtime :=
  runtime (fun url => Return url) api (fun _ => Return root).

Definition offline : Runtime :=
  runtime (fun _ => Raise (Exn (str "timed out")))
    (fun _ => Raise (Exn (str "Expecting value")))
    (fun _ => Raise (Exn (str "syntax error"))).

(** A decimal character reference of 4301 digits, one more than [int]
    converts, and responses that hold it: a page with the reference in
    the title and in the text of its second anchor, served for MOFCOM
    and for Canada, and a feed with the reference in the description of
    its second item. *)
Definition overlong_reference : pystr :=
  str "&#" ++ repeat 49%N 4301 ++ str ";".

Definition overlong_page : pystr :=
  str "<meta name=" ++ [34%N] ++ str "dcterms.modified" ++ [34%N]
  ++ str " content=" ++ [34%N] ++ str "2025-09-01" ++ [34%N] ++ str ">"
  ++ str "<li><a href=" ++ [34%N]
  ++ str "/News/SpokesmansRemarks/art/2025/art_1.html" ++ [34%N]
  ++ str " title=" ++ [34%N] ++ str "Remarks on tariffs" ++ [34%N]
  ++ str ">Remarks</a></li>"
  ++ str "<li><a href=" ++ [34%N]
  ++ str "/News/SpokesmansRemarks/art/2025/art_2.html" ++ [34%N]
  ++ str " title=" ++ [34%N] ++ str "Briefing " ++ overlong_reference
  ++ [34%N] ++ str ">Briefing " ++ overlong_reference ++ str "</a></li>".

Definition overlong_channel : Element :=
  Elem (str "channel") [] None
    [ Elem (str "item") [] None
        [ leaf "title" "New tariff schedule";
          leaf "description" "Published today" ];
      Elem (str "item") [] None
        [ leaf "title" "Customs notice";
          Elem (str "description") [] (Some overlong_reference) [] ] ].

Definition overlong_rss : Element :=
  Elem (str "rss") [] None [overlong_channel].

Definition overlong : Runtime :=
  runtime
    (fun url =>
       if str_eqb url FEEDS.china_mofcom.url then Return overlong_page
       else if str_eqb url FEEDS.canada_finance.url then Return overlong_page
       else Return url)
    api
    (fun _ => Return overlong_rss).

(** The Federal Register API answering the query for [tariff] with the
    document [X] under a title that holds no keyword, and the query for
    [duty] with the same number under a title that holds one. *)
Definition doc_x_meeting : pydict :=
  [ (str "document_number", PyStr (str "X"));
    (str "title", PyStr (str "Notice of public meeting"));
    (str "publication_date", PyStr (str "2025-03-01"));
    (str "type", PyStr (str "Notice"));
    (str "html_url", PyStr (str "https://www.federalregister.gov/d/X")) ].

Definition late_api (raw : pystr) : outcome payload :=
  if str_eqb raw (FEEDS.federal_register.base ++ str "?tariff")
  then Return {| results := Some [doc_x_meeting] |}
  else if str_eqb raw (FEEDS.federal_register.base ++ str "?duty")
  then Return {| results := Some [doc_x_duty] |}
  else Return {| results := None |}.

Definition late_match : Runtime :=
  runtime (fun url => Return url) late_api (fun _ => Raise (Exn [])).
End Demo.

(* ===================================================================== *)
(** * Further notions for the properties beyond the specification *)
(* ===================================================================== *)

Definition non_space (c : N) : bool := negb (isspace c).

(** The runtime [rt] with another network in place of its own. *)
Definition with_urlopen (rt : Runtime)
  (net : pystr -> dict pystr -> N -> outcome pystr) : Runtime :=
  {| str_lower := str_lower;
     isdecimal := isdecimal;
     html5 := html5;
     urlencode := urlencode;
     urlopen := net;
     json_loads := json_loads;
     fromstring := fromstring;
     utcnow_isoformat := utcnow_isoformat |}.

(** A network on which only the CBP feed still answers, as it does in
    [Demo.quiet]; every other request times out. *)
Definition only_cbp (url : pystr) (headers : dict pystr) (timeout : N)
  : outcome pystr :=
  if str_eqb url FEEDS.cbp_csms.url
  then urlopen (Runtime := Demo.quiet) url headers timeout
  else Raise (Exn (str "timed out")).

(** A Canada page with a modification date and one of the markers. *)
Definition canada_page : pystr :=
  str "<html><head><meta name=" ++ [34%N] ++ str "dcterms.modified"
  ++ [34%N] ++ str " title=" ++ [34%N] ++ str "W3CDTF" ++ [34%N]
  ++ str " content=" ++ [34%N] ++ str "2025-09-01" ++ [34%N]
  ++ str " /></head><body><p>Canada removed counter tariffs on some goods."
  ++ str "</p></body></html>".

Definition canada_runtime : Runtime :=
  Demo.runtime (fun _ => Return canada_page) Demo.api
    (fun _ => Raise (Exn [])).

(** A MOFCOM page with one anchor, whose address holds two year
    segments. *)
Definition two_years_page : pystr :=
  str "<a href=" ++ [34%N]
  ++ str "/News/SpokesmansRemarks/art/2024/x/art/2025/y.html" ++ [34%N]
  ++ str " title=" ++ [34%N] ++ str "Remarks &amp; answers" ++ [34%N]
  ++ str ">".

(** The keyword list without the two plurals that contain their
    singular. *)
Definition KEYWORDS_without_plurals : list pystr :=
  map str
    [ "tariff"; "duty"; "duties"; "countermeasure"; "retaliat";
      "section 232"; "section 301"; "ieepa"; "customs"; "trade"; "import";
      "export" ]%string.

(** The [link] of a row. *)
Definition link_of (r : pydict) : pyval := get r (str "link").

(** The item [x] has the sort key [k]. *)
Definition has_key (k : pystr * pystr) (x : pydict) : bool :=
  match key_compare (sort_key x) k with Eq => true | _ => false end.

(** [out['errors'].append(e)] for each [e] of [l] in turn. *)
Definition add_errors (out : FetchResult) (l : list pystr) : FetchResult :=
  fold_left append_error l out.

Section Queries.
Context {rt : Runtime}.

(** What the [try] block of one Federal Register query comes to before
    it merges: the documents of the answer, or the exception. *)
Definition query_docs (term : pystr) : outcome (list pydict) :=
  raw <- fetch_text (query_url term) ;;
  payload <- json_loads raw ;;
  Return match results payload with Some l => l | None => [] end.

(** The documents a query contributes, none when it failed. *)
Definition term_docs (term : pystr) : list pydict :=
  match query_docs term with Return l => l | Raise _ => [] end.

(** The messages a query contributes, one when it failed. *)
Definition term_errors (term : pystr) : list pystr :=
  match query_docs term with
  | Return _ => []
  | Raise exc => [str "term=" ++ term ++ str ": " ++ exc_str exc]
  end.

(** The merge of the documents of the queries for [terms], in order. *)
Definition merge_terms (terms : list pystr) (merged : dict pydict)
  : dict pydict :=
  fold_left (fun m t => fold_left (merge_doc t) (term_docs t) m) terms merged.

(** The text [b] starts with [/art/], the four decimal digits [y] and
    [/]. *)
Definition year_at (b y : pystr) : Prop :=
  List.length y = 4 /\ forallb isdecimal y = true
  /\ exists rest, b = str "/art/" ++ y ++ 47%N :: rest.

(** [y] is the year read from the link [full]: the digits of the
    leftmost [/art/dddd/] in it, or the empty string when no position of
    the link starts one. *)
Definition year_of (full y : pystr) : Prop :=
  (exists a b,
     full = a ++ b /\ year_at b y
     /\ forall a' b' y',
          full = a' ++ b' -> List.length a' < List.length a ->
          ~ year_at b' y')
  \/ (y = [] /\ forall a b y', full = a ++ b -> ~ year_at b y').

(** The row [r] is the one scraped from the anchor with the address
    [href] and the title [title]: it has the four keys; its title is
    the unescaped and normalized title of the anchor; its link is the
    address, with the site prefixed unless it starts with [http]; its
    [pub_date] is the year read from the link; its description is the
    fixed text. *)
Definition mofcom_row_of (m : pystr * pystr) (r : pydict) : Prop :=
  map fst r = map str ["title"; "link"; "pub_date"; "description"]%string
  /\ (exists u,
        unescape (snd m) = Return u
        /\ get r (str "title") = PyStr (normalize_ws u))
  /\ get r (str "description")
     = PyStr (str "MOFCOM spokesperson remarks entry")
  /\ exists full y,
       full = (if startswith (str "http") (fst m) then fst m
               else str "https://english.mofcom.gov.cn" ++ fst m)
       /\ link_of r = PyStr full
       /\ startswith (str "http") full = true
       /\ get r (str "pub_date") = PyStr y
       /\ year_of full y.

(** What holds of the rows and of the set [seen] as the loop goes on:
    the links of the rows are the addresses seen, in order and without
    repetition; every row is the row of one of the [anchors]; and there
    are no more rows than [bound]. *)
Definition scrape_ok (anchors : list (pystr * pystr)) (bound : nat)
  (st : list pydict * list pystr) : Prop :=
  map link_of (fst st) = map PyStr (rev (snd st))
  /\ NoDup (snd st)
  /\ Forall (fun r => exists m, In m anchors /\ mofcom_row_of m r) (fst st)
  /\ List.length (fst st) <= bound.

(** The index [idx] is where [p] first occurs in [s]. *)
Definition first_occurrence (p s : pystr) (idx : nat) : Prop :=
  (exists a b, s = a ++ p ++ b /\ List.length a = idx)
  /\ forall a b, s = a ++ p ++ b -> idx <= List.length a.

(** What the loop over the markers appends for [marker]: the slice of
    [text] from 120 characters before the first occurrence of the
    lower-cased marker in the lower-cased text to 260 characters after
    its start, or nothing when the marker does not occur. *)
Definition marker_snippet (text marker : pystr) (l : list pystr) : Prop :=
  (exists idx,
     first_occurrence (str_lower marker) (str_lower text) idx
     /\ l = [slice (idx - 120) (idx + 260) text])
  \/ ((forall a b, str_lower text <> a ++ str_lower marker ++ b) /\ l = []).

(** Every entry of [merged] is the item of a relevant document with a
    key, stored under that key and tagged with one of [terms]; no key
    occurs twice. *)
Definition merged_ok (terms : list pystr) (merged : dict pydict) : Prop :=
  NoDup (map fst merged)
  /\ Forall
       (fun kv =>
          exists t d,
            In t terms /\ snd kv = fr_item t d /\ fst kv = doc_key d
            /\ truthy (doc_key d) = true /\ fr_relevant d = true)
       merged.
End Queries.

(* ===================================================================== *)
(** * Properties of the text normalizer *)
(* ===================================================================== *)

Unset Implicit Arguments.

Lemma takewhile_dropwhile (p : N -> bool) (s : pystr) :
  takewhile p s ++ dropwhile p s = s.
Proof.
  induction s as [|c r IH]; simpl; [reflexivity|].
  destruct (p c); simpl; [now rewrite IH | reflexivity].
Qed.

Lemma dropwhile_head (p : N -> bool) (s : pystr) c r :
  dropwhile p s = c :: r -> p c = false.
Proof.
  induction s as [|x s IH]; simpl; [discriminate|].
  destruct (p x) eqn:E; [exact IH|]. intros H. injection H as -> _. exact E.
Qed.

Lemma dropwhile_id (p : N -> bool) s :
  match s with [] => True | c :: _ => p c = false end -> dropwhile p s = s.
Proof. destruct s as [|c r]; simpl; [easy|]. now intros ->. Qed.

(** Once a whitespace run is matched, the scan resumes after the run. *)
Lemma sub_ws_skip (s : pystr) :
  sub_from match_ws (fun _ => SP) (List.length (takewhile isspace s)) s
  = collapse (dropwhile isspace s).
Proof.
  induction s as [|c r IH]; simpl; [reflexivity|].
  destruct (isspace c) eqn:E; simpl; [exact IH|].
  unfold collapse, re_sub. simpl. unfold match_ws. simpl. rewrite E.
  reflexivity.
Qed.

Lemma collapse_char c r :
  isspace c = false -> collapse (c :: r) = c :: collapse r.
Proof.
  intros E. unfold collapse, re_sub. simpl. unfold match_ws. simpl.
  rewrite E. reflexivity.
Qed.

Lemma collapse_space c r :
  isspace c = true ->
  collapse (c :: r) = 32%N :: collapse (dropwhile isspace r).
Proof.
  intros E. unfold collapse at 1. unfold re_sub. simpl. unfold match_ws.
  simpl. rewrite E. simpl. now rewrite sub_ws_skip.
Qed.

Lemma collapse_nonempty s : s <> [] -> collapse s <> [].
Proof.
  destruct s as [|c r]; [congruence|]. intros _.
  destruct (isspace c) eqn:E.
  - rewrite (collapse_space _ _ E). discriminate.
  - rewrite (collapse_char _ _ E). discriminate.
Qed.

Lemma collapse_tidy s : tidy s -> collapse s = s.
Proof.
  induction s as [|c r IH]; [reflexivity|].
  intros [Hc Hr]. destruct (isspace c) eqn:E.
  - destruct (Hc eq_refl) as [-> Hd]. rewrite (collapse_space _ _ E).
    destruct r as [|d r']; [contradiction|]. simpl. rewrite Hd.
    now rewrite (IH Hr).
  - rewrite (collapse_char _ _ E). now rewrite (IH Hr).
Qed.

Lemma tidy_ends_clean s : tidy s -> ends_clean s.
Proof.
  induction s as [|c r IH]; [easy|]. intros [Hc Hr].
  destruct r as [|d r'].
  - simpl. destruct (isspace c); [|reflexivity]. now destruct (Hc eq_refl).
  - now apply IH.
Qed.

Lemma ends_clean_rev s :
  ends_clean s ->
  match rev s with [] => True | c :: _ => isspace c = false end.
Proof.
  induction s as [|c r IH]; [easy|].
  destruct r as [|d r']; [simpl; easy|].
  intros H. specialize (IH H).
  change (rev (c :: d :: r')) with (rev (d :: r') ++ [c]).
  destruct (rev (d :: r')) as [|x l] eqn:E.
  - apply (f_equal (@List.length _)) in E. rewrite length_rev in E.
    discriminate.
  - exact IH.
Qed.

Lemma ends_clean_of_rev s :
  match rev s with [] => True | c :: _ => isspace c = false end ->
  ends_clean s.
Proof.
  induction s as [|c r IH]; [easy|].
  destruct r as [|d r']; [simpl; easy|].
  intros H. apply IH.
  change (rev (c :: d :: r')) with (rev (d :: r') ++ [c]) in H.
  destruct (rev (d :: r')) as [|x l] eqn:E; [exact I | exact H].
Qed.

Lemma rstrip_ends_clean s : ends_clean s -> rstrip s = s.
Proof.
  intros H. unfold rstrip. rewrite dropwhile_id by now apply ends_clean_rev.
  apply rev_involutive.
Qed.

Lemma strip_normalized s : normalized s -> strip s = s.
Proof.
  intros [Hs Ht]. unfold strip, lstrip. rewrite (dropwhile_id isspace s Hs).
  apply rstrip_ends_clean, tidy_ends_clean, Ht.
Qed.

Lemma ends_clean_tail c r : r <> [] -> ends_clean (c :: r) -> ends_clean r.
Proof. destruct r; [congruence|]. easy. Qed.

Lemma ends_clean_dropwhile s :
  ends_clean s -> ends_clean (dropwhile isspace s).
Proof.
  induction s as [|c r IH]; [easy|]. intros H. simpl.
  destruct (isspace c) eqn:E; [|exact H].
  destruct r as [|d r']; [simpl in H; congruence|]. now apply IH.
Qed.

(** A string of whitespace only does not end clean. *)
Lemma ends_clean_not_blank s :
  s <> [] -> ends_clean s -> dropwhile isspace s <> [].
Proof.
  induction s as [|x r IH]; [congruence|]. intros _ H. simpl.
  destruct (isspace x) eqn:Ex; [|discriminate].
  destruct r as [|y r']; [simpl in H; congruence|].
  apply IH; [discriminate | exact H].
Qed.

Lemma collapse_starts_clean s : starts_clean s -> starts_clean (collapse s).
Proof.
  destruct s as [|c r]; [easy|]. simpl. intros E.
  now rewrite (collapse_char _ _ E).
Qed.

Lemma collapse_is_tidy s : ends_clean s -> tidy (collapse s).
Proof.
  remember (List.length s) as n eqn:Hn. revert s Hn.
  induction n as [n IH] using lt_wf_ind. intros s -> H.
  destruct s as [|c r]; [exact I|].
  destruct (isspace c) eqn:E.
  - rewrite (collapse_space _ _ E).
    assert (Hr : r <> []) by (intros ->; simpl in H; congruence).
    pose proof (ends_clean_tail c r Hr H) as Hr'.
    pose proof (ends_clean_dropwhile r Hr') as Hd.
    assert (Hlen : List.length (dropwhile isspace r) <= List.length r).
    { rewrite <- (takewhile_dropwhile isspace r) at 2. rewrite length_app.
      lia. }
    split.
    + intros _. split; [reflexivity|].
      destruct (dropwhile isspace r) as [|d r'] eqn:Ed.
      * now apply (ends_clean_not_blank r Hr Hr').
      * pose proof (dropwhile_head _ _ _ _ Ed) as Hdd.
        rewrite (collapse_char _ _ Hdd). exact Hdd.
    + apply (IH (List.length (dropwhile isspace r)));
        [simpl; lia | reflexivity | exact Hd].
  - rewrite (collapse_char _ _ E). split; [intros E'; congruence|].
    destruct r as [|d r']; [exact I|].
    apply (IH (List.length (d :: r'))); [simpl; lia | reflexivity | exact H].
Qed.

Lemma lstrip_starts_clean s : starts_clean (lstrip s).
Proof.
  unfold lstrip. destruct (dropwhile isspace s) as [|c r] eqn:E; [exact I|].
  exact (dropwhile_head _ _ _ _ E).
Qed.

Lemma rstrip_is_ends_clean s : ends_clean (rstrip s).
Proof.
  unfold rstrip. apply ends_clean_of_rev. rewrite rev_involutive.
  destruct (dropwhile isspace (rev s)) as [|c r] eqn:E; [exact I|].
  exact (dropwhile_head _ _ _ _ E).
Qed.

(** [rstrip] keeps a prefix. *)
Lemma rstrip_prefix s : exists w, s = rstrip s ++ w.
Proof.
  unfold rstrip. exists (rev (takewhile isspace (rev s))).
  rewrite <- rev_app_distr, takewhile_dropwhile. symmetry.
  apply rev_involutive.
Qed.

Lemma starts_clean_prefix p w : starts_clean (p ++ w) -> starts_clean p.
Proof. destruct p; easy. Qed.

Lemma rstrip_starts_clean s : starts_clean s -> starts_clean (rstrip s).
Proof.
  intros H. destruct (rstrip_prefix s) as [w Hw]. rewrite Hw in H.
  exact (starts_clean_prefix _ _ H).
Qed.

Lemma normalize_ws_normalized t : normalized (normalize_ws t).
Proof.
  unfold normalize_ws. fold collapse. split.
  - apply collapse_starts_clean. unfold strip.
    apply rstrip_starts_clean, lstrip_starts_clean.
  - apply collapse_is_tidy. unfold strip. apply rstrip_is_ends_clean.
Qed.

Lemma normalize_ws_fixed s : normalized s -> normalize_ws s = s.
Proof.
  intros H. unfold normalize_ws. rewrite (strip_normalized s H).
  apply collapse_tidy, H.
Qed.

Lemma normalize_ws_idem t : normalize_ws (normalize_ws t) = normalize_ws t.
Proof. apply normalize_ws_fixed, normalize_ws_normalized. Qed.

Lemma normalize_ws_nonempty t : strip t <> [] -> normalize_ws t <> [].
Proof. intros H. unfold normalize_ws. now apply collapse_nonempty. Qed.

(** A prefix of a tidy string is tidy if it does not stop after a space. *)
Lemma tidy_prefix q w : tidy (q ++ w) -> ends_clean q -> tidy q.
Proof.
  induction q as [|c q IH]; [easy|]. simpl app. intros [Hc Hq] He.
  destruct q as [|d q'].
  - split; [|exact I]. simpl in He. intros E. congruence.
  - split; [|apply IH; [exact Hq | exact He]].
    intros E. destruct (Hc E) as [-> Hd]. split; [reflexivity | exact Hd].
Qed.

Lemma tidy_app a b : tidy a -> tidy b -> tidy (a ++ b).
Proof.
  induction a as [|c a IH]; [easy|]. intros [Hc Ha] Hb. simpl app. split.
  - intros E. destruct (Hc E) as [-> Hd]. split; [reflexivity|].
    destruct a; [contradiction | exact Hd].
  - now apply IH.
Qed.

(** Cutting a normalized string can leave one space at the end, and that
    is all a further normalization removes. *)
Lemma normalize_ws_firstn n t :
  normalized t -> normalize_ws (firstn n t) = rstrip (firstn n t).
Proof.
  intros [Hs Ht].
  assert (Hp : starts_clean (firstn n t)).
  { apply (starts_clean_prefix _ (skipn n t)). now rewrite firstn_skipn. }
  destruct (rstrip_prefix (firstn n t)) as [w Hw].
  assert (Hq : normalized (rstrip (firstn n t))).
  { split; [now apply rstrip_starts_clean|].
    apply (tidy_prefix _ (w ++ skipn n t)); [|apply rstrip_is_ends_clean].
    now rewrite app_assoc, <- Hw, firstn_skipn. }
  unfold normalize_ws, strip, lstrip.
  rewrite (dropwhile_id isspace _ Hp). apply collapse_tidy, Hq.
Qed.

Lemma strip_tags_normalized {rt : Runtime} h t :
  strip_tags h = Return t -> normalized t.
Proof.
  unfold strip_tags. destruct (unescape _) as [u|e]; simpl; [|discriminate].
  intros [= <-]. apply normalize_ws_normalized.
Qed.

Lemma starts_clean_app a b : a <> [] -> starts_clean a -> starts_clean (a ++ b).
Proof. destruct a; [congruence | easy]. Qed.

(** Joining non-empty normalized parts with a comma and a space. *)
Lemma join_normalized parts :
  Forall (fun p => normalized p /\ p <> []) parts ->
  normalized (join (str ", ") parts) /\ (parts <> [] -> join (str ", ") parts <> []).
Proof.
  induction 1 as [|p rest [[Hs Ht] Hne] Hrest [IHn IHe]].
  - split; [split; exact I | congruence].
  - destruct rest as [|q rest'].
    + simpl. split; [split; assumption | intros _; exact Hne].
    + assert (Hj : join (str ", ") (q :: rest') <> []) by (apply IHe; discriminate).
      change (join (str ", ") (p :: q :: rest'))
        with (p ++ str ", " ++ join (str ", ") (q :: rest')).
      destruct IHn as [IHs IHt]. split; [split|].
      * now apply starts_clean_app.
      * apply tidy_app; [exact Ht|].
        change (str ", " ++ join (str ", ") (q :: rest'))
          with (44%N :: 32%N :: join (str ", ") (q :: rest')).
        split; [intros E; discriminate E|]. split; [|exact IHt].
        intros _. split; [reflexivity|].
        destruct (join (str ", ") (q :: rest')); [congruence | exact IHs].
      * intros _ E. apply app_eq_nil in E. now destruct E.
Qed.

Lemma rss_category_normalized (cats : list Element) :
  normalized
    (join (str ", ")
       (map (fun c => normalize_ws (opt_or_empty (text c)))
          (filter (fun c => truthy (strip (opt_or_empty (text c)))) cats))).
Proof.
  apply join_normalized. rewrite Forall_map, Forall_forall.
  intros c Hc. apply filter_In in Hc as [_ Hc]. split.
  - apply normalize_ws_normalized.
  - apply normalize_ws_nonempty.
    destruct (strip (opt_or_empty (text c))); [discriminate Hc | discriminate].
Qed.

Lemma rss_row_fields {rt : Runtime} (item : Element) (row : pydict) :
  rss_row item = Return row ->
  fixed_field row "title"
  /\ fixed_field row "link"
  /\ fixed_field row "pub_date"
  /\ fixed_field row "guid"
  /\ fixed_field row "category"
  /\ normalize_ws (or_empty (get row (str "description")))
     = rstrip (or_empty (get row (str "description"))).
Proof.
  unfold rss_row.
  destruct (strip_tags (opt_or_empty (findtext (str "description") item)))
    as [t|e] eqn:Et; simpl; [|discriminate].
  intros [= <-]. unfold fixed_field. repeat split.
  - match goal with
    | |- normalize_ws ?v = _ =>
        change v with
          (normalize_ws (opt_or_empty (findtext (str "title") item)))
    end.
    apply normalize_ws_idem.
  - match goal with
    | |- normalize_ws ?v = _ =>
        change v with
          (normalize_ws (opt_or_empty (findtext (str "link") item)))
    end.
    apply normalize_ws_idem.
  - match goal with
    | |- normalize_ws ?v = _ =>
        change v with
          (normalize_ws (opt_or_empty (findtext (str "pubDate") item)))
    end.
    apply normalize_ws_idem.
  - match goal with
    | |- normalize_ws ?v = _ =>
        change v with
          (normalize_ws (opt_or_empty (findtext (str "guid") item)))
    end.
    apply normalize_ws_idem.
  - match goal with
    | |- normalize_ws ?v = _ =>
        change v with
          (join (str ", ")
             (map (fun c => normalize_ws (opt_or_empty (text c)))
                (filter (fun c => truthy (strip (opt_or_empty (text c))))
                   (findall (str "category") item))))
    end.
    apply normalize_ws_fixed, rss_category_normalized.
  - match goal with
    | |- normalize_ws ?v = _ => change v with (firstn 700 t)
    end.
    apply normalize_ws_firstn. exact (strip_tags_normalized _ _ Et).
Qed.

(** The loop of [parse_rss_items]: the rows it returns are those of the
    items, one each and in order, and it returns when every item gives a
    row. *)
Lemma append_rows_inv {rt : Runtime} items acc rows :
  for_each append_row items acc = Return rows ->
  exists rs,
    rows = acc ++ rs
    /\ Forall2 (fun item row => rss_row item = Return row) items rs.
Proof.
  revert acc. induction items as [|item items IH]; intros acc; simpl.
  - intros [= <-]. exists []. now rewrite app_nil_r.
  - unfold append_row at 1. destruct (rss_row item) as [row|e] eqn:E; simpl;
      [|discriminate].
    intros H. destruct (IH _ H) as (rs & -> & Hrs).
    exists (row :: rs). rewrite <- app_assoc. split; [reflexivity|].
    now constructor.
Qed.

Lemma append_rows_total {rt : Runtime} items acc :
  Forall (fun item => exists row, rss_row item = Return row) items ->
  exists rows, for_each append_row items acc = Return rows.
Proof.
  intros H. revert acc. induction H as [|item items [row Hrow] _ IH];
    intros acc; simpl.
  - now exists acc.
  - unfold append_row at 1. rewrite Hrow. simpl. apply IH.
Qed.

Lemma parse_rss_items_inv {rt : Runtime} xml_text rows :
  parse_rss_items xml_text = Return rows ->
  exists root,
    fromstring xml_text = Return root
    /\ ((find_elem (str "channel") root = None /\ rows = [])
        \/ exists channel,
             find_elem (str "channel") root = Some channel
             /\ Forall2 (fun item row => rss_row item = Return row)
                  (findall (str "item") channel) rows).
Proof.
  unfold parse_rss_items.
  destruct (fromstring xml_text) as [root|e]; simpl; [|discriminate].
  intros H. exists root. split; [reflexivity|].
  destruct (find_elem (str "channel") root) as [channel|].
  - right. exists channel. split; [reflexivity|].
    destruct (append_rows_inv _ _ _ H) as (rs & -> & Hrs). exact Hrs.
  - left. injection H as <-. now split.
Qed.

Lemma atom_row_fields {rt : Runtime} (entry : Element) :
  fixed_field (atom_row entry) "title"
  /\ fixed_field (atom_row entry) "link"
  /\ fixed_field (atom_row entry) "updated"
  /\ fixed_field (atom_row entry) "summary".
Proof.
  unfold fixed_field. repeat split.
  - change (or_empty (get (atom_row entry) (str "title")))
      with (normalize_ws
         match findtext (atom "title") entry with Some s => s | None => [] end).
    apply normalize_ws_idem.
  - change (or_empty (get (atom_row entry) (str "link")))
      with (match find_elem (atom "link") entry with
            | Some link_node =>
                normalize_ws
                  (opt_or_empty (dict_lookup (attrib link_node) (str "href")))
            | None => []
            end).
    destruct (find_elem (atom "link") entry); [apply normalize_ws_idem|].
    reflexivity.
  - change (or_empty (get (atom_row entry) (str "updated")))
      with (normalize_ws
         match findtext (atom "updated") entry with Some s => s | None => [] end).
    apply normalize_ws_idem.
  - change (or_empty (get (atom_row entry) (str "summary")))
      with (normalize_ws
         match findtext (atom "summary") entry with Some s => s | None => [] end).
    apply normalize_ws_idem.
Qed.

(** C8.  Given that the entity table maps the name [nbsp;] to U+00A0 (as
    [html.entities.html5] does), [strip_tags] turns
    [<script>evil()</script>Hello&nbsp;<b>World</b>] into exactly
    [Hello World]: the script block and the tags are replaced, the entity
    is decoded, and the whitespace, the decoded no-break space included,
    is collapsed and trimmed; the call returns. *)
Theorem strip_tags_hello_world (rt : Runtime) :
  html5 (str "nbsp;") = Some [160%N] ->
  strip_tags (str "<script>evil()</script>Hello&nbsp;<b>World</b>")
  = Return (str "Hello World").
Proof.
  intros H. unfold strip_tags.
  set (t3 := re_sub match_tag _ _).
  assert (E : t3 = str " Hello&nbsp; World ") by (vm_compute; reflexivity).
  rewrite E. clear t3 E.
  assert (U : unescape (str " Hello&nbsp; World ")
              = Return (str " Hello" ++ [160%N] ++ str " World ")).
  { cbv -[html5] in H |- *. rewrite H. reflexivity. }
  rewrite U. vm_compute. reflexivity.
Qed.

Lemma strip_tags_hello_world_demo :
  strip_tags (rt := Demo.offline)
    (str "<script>evil()</script>Hello&nbsp;<b>World</b>")
  = Return (str "Hello World").
Proof. apply (strip_tags_hello_world Demo.offline). reflexivity. Defined.

(** C10, as amended.  [normalize_ws] is idempotent and the output of
    [strip_tags] is normalized ([strip_tags] returns unless [unescape]
    raises).  Every [title], [link], [pub_date],
    [guid] and [category] that [parse_rss_items] emits and every [title],
    [link], [updated] and [summary] that [parse_atom_entries] emits is
    unchanged by a further [normalize_ws].  The RSS [description] is the
    first 700 characters of a normalized string: a further
    [normalize_ws] removes the space it may end with and nothing else. *)
Theorem normalize_ws_fixed_points (rt : Runtime) :
  (forall s, normalize_ws (normalize_ws s) = normalize_ws s)
  /\ (forall h,
        match strip_tags h with
        | Return t => normalize_ws t = t
        | Raise e => exists text, unescape text = Raise e
        end)
  /\ (forall xml_text,
        match parse_rss_items xml_text with
        | Return rows =>
            Forall
              (fun row =>
                 fixed_field row "title" /\ fixed_field row "link"
                 /\ fixed_field row "pub_date" /\ fixed_field row "guid"
                 /\ fixed_field row "category"
                 /\ normalize_ws (or_empty (get row (str "description")))
                    = rstrip (or_empty (get row (str "description"))))
              rows
        | Raise _ => True
        end)
  /\ (forall xml_text,
        match parse_atom_entries xml_text with
        | Return rows =>
            Forall
              (fun row =>
                 fixed_field row "title" /\ fixed_field row "link"
                 /\ fixed_field row "updated" /\ fixed_field row "summary")
              rows
        | Raise _ => True
        end).
Proof.
  split; [exact normalize_ws_idem|].
  split.
  { intros h. destruct (strip_tags h) as [t|e] eqn:E.
    - apply normalize_ws_fixed, (strip_tags_normalized _ _ E).
    - unfold strip_tags in E.
      match type of E with
      | (_ <- unescape ?x ;; _) = _ => exists x; destruct (unescape x)
      end; [discriminate E | exact E]. }
  split; intros xml_text.
  - destruct (parse_rss_items xml_text) as [rows|e] eqn:E; [|exact I].
    destruct (parse_rss_items_inv _ _ E)
      as (root & _ & [[_ ->]|(channel & _ & H)]); [constructor|].
    clear E. induction H as [|item row items rows' Hrow _ IH];
      [constructor|].
    constructor; [exact (rss_row_fields _ _ Hrow) | exact IH].
  - unfold parse_atom_entries.
    destruct (fromstring xml_text) as [root|e]; [|exact I].
    simpl. rewrite Forall_map, Forall_forall. intros entry _.
    apply atom_row_fields.
Qed.

(** C10, as stated, fails: [parse_rss_items] emits a [description] that
    ends in a space when the cut at 700 characters falls after one, and
    [normalize_ws] changes it. *)
Lemma rss_description_not_fixed :
  exists row,
    parse_rss_items (rt := Demo.long_feed_runtime) []
    = Return [row]
    /\ or_empty (get row (str "description")) = repeat 97%N 699 ++ str " "
    /\ normalize_ws (or_empty (get row (str "description")))
       = repeat 97%N 699
    /\ normalize_ws (or_empty (get row (str "description")))
       <> or_empty (get row (str "description")).
Proof.
  eexists. split; [vm_compute; reflexivity|].
  split; [vm_compute; reflexivity|].
  split; [vm_compute; reflexivity|].
  vm_compute. intros H.
  apply (f_equal (@List.length N)) in H. vm_compute in H. discriminate H.
Qed.

(* ===================================================================== *)
(** * The order of strings and the sort *)
(* ===================================================================== *)

Lemma str_eqb_eq a b : str_eqb a b = true <-> a = b.
Proof.
  revert b. induction a as [|x a IH]; intros [|y b]; simpl;
    try (split; [discriminate | congruence]); [tauto|].
  rewrite andb_true_iff, N.eqb_eq, IH. split.
  - now intros [-> ->].
  - intros H. injection H as -> ->. now split.
Qed.

Lemma str_eqb_refl a : str_eqb a a = true.
Proof. now apply str_eqb_eq. Qed.

Lemma str_compare_eq a b : str_compare a b = Eq -> a = b.
Proof.
  revert b. induction a as [|x a IH]; intros [|y b]; simpl;
    try discriminate; [reflexivity|].
  destruct (N.compare x y) eqn:E; try discriminate.
  apply N.compare_eq_iff in E. subst y. intros H. now rewrite (IH b H).
Qed.

Lemma str_compare_refl a : str_compare a a = Eq.
Proof.
  induction a as [|x a IH]; simpl; [reflexivity|].
  now rewrite N.compare_refl.
Qed.

Lemma str_compare_antisym a b : str_compare b a = CompOpp (str_compare a b).
Proof.
  revert b. induction a as [|x a IH]; intros [|y b]; simpl; try reflexivity.
  rewrite (N.compare_antisym x y).
  destruct (N.compare x y); simpl; [apply IH | reflexivity | reflexivity].
Qed.

Lemma str_compare_lt_trans a b c :
  str_compare a b = Lt -> str_compare b c = Lt -> str_compare a c = Lt.
Proof.
  revert b c. induction a as [|x a IH]; intros [|y b] [|z c]; simpl;
    try discriminate; try reflexivity.
  destruct (N.compare x y) eqn:Exy; try discriminate.
  - apply N.compare_eq_iff in Exy. subst y.
    destruct (N.compare x z); try discriminate; [apply IH | reflexivity].
  - intros _. destruct (N.compare y z) eqn:Eyz; try discriminate.
    + apply N.compare_eq_iff in Eyz. subst z. now rewrite Exy.
    + intros _. rewrite N.compare_lt_iff in Exy, Eyz.
      rewrite (proj2 (N.compare_lt_iff x z) (N.lt_trans _ _ _ Exy Eyz)).
      reflexivity.
Qed.

Lemma key_compare_eq k1 k2 : key_compare k1 k2 = Eq -> k1 = k2.
Proof.
  destruct k1 as [a1 b1], k2 as [a2 b2]. unfold key_compare. simpl.
  destruct (str_compare a1 a2) eqn:E; try discriminate.
  intros H. apply str_compare_eq in E, H. now subst.
Qed.

Lemma key_compare_antisym k1 k2 :
  key_compare k2 k1 = CompOpp (key_compare k1 k2).
Proof.
  destruct k1 as [a1 b1], k2 as [a2 b2]. unfold key_compare. simpl.
  rewrite (str_compare_antisym a1 a2).
  destruct (str_compare a1 a2); simpl;
    [apply str_compare_antisym | reflexivity | reflexivity].
Qed.

Lemma key_compare_lt_trans k1 k2 k3 :
  key_compare k1 k2 = Lt -> key_compare k2 k3 = Lt -> key_compare k1 k3 = Lt.
Proof.
  destruct k1 as [a1 b1], k2 as [a2 b2], k3 as [a3 b3].
  unfold key_compare. simpl.
  destruct (str_compare a1 a2) eqn:E12; try discriminate.
  - apply str_compare_eq in E12. subst a2.
    destruct (str_compare a1 a3); try discriminate;
      [apply str_compare_lt_trans | reflexivity].
  - intros _. destruct (str_compare a2 a3) eqn:E23; try discriminate.
    + apply str_compare_eq in E23. subst a3. now rewrite E12.
    + intros _. now rewrite (str_compare_lt_trans _ _ _ E12 E23).
Qed.

Lemma key_ltb_lt k1 k2 : key_ltb k1 k2 = true <-> key_compare k1 k2 = Lt.
Proof.
  unfold key_ltb. destruct (key_compare k1 k2); split; congruence.
Qed.

Lemma key_ge_ltb x y : key_ge x y <-> key_ltb (sort_key x) (sort_key y) = false.
Proof.
  unfold key_ge, key_ltb. destruct (key_compare _ _); split; congruence.
Qed.

Lemma key_lt_ge x y : key_compare (sort_key x) (sort_key y) = Lt -> key_ge y x.
Proof.
  unfold key_ge. intros H. rewrite key_compare_antisym, H. discriminate.
Qed.

Lemma key_ge_trans x y z : key_ge x y -> key_ge y z -> key_ge x z.
Proof.
  unfold key_ge. intros Hxy Hyz Hxz.
  destruct (key_compare (sort_key x) (sort_key y)) eqn:Exy; [| |].
  - apply key_compare_eq in Exy. rewrite Exy in Hxz. contradiction.
  - contradiction.
  - apply Hyz. apply (key_compare_lt_trans _ (sort_key x)); [|exact Hxz].
    rewrite key_compare_antisym, Exy. reflexivity.
Qed.

Lemma insert_desc_perm x l :
  Permutation (insert_desc sort_key x l) (x :: l).
Proof.
  induction l as [|y l IH]; simpl; [reflexivity|].
  destruct (key_ltb (sort_key x) (sort_key y)); [|reflexivity].
  rewrite IH. apply perm_swap.
Qed.

Lemma sorted_reverse_perm l : Permutation (sorted_reverse sort_key l) l.
Proof.
  induction l as [|x l IH]; simpl; [reflexivity|].
  rewrite insert_desc_perm. now constructor.
Qed.

Lemma insert_desc_sorted x l :
  StronglySorted key_ge l -> StronglySorted key_ge (insert_desc sort_key x l).
Proof.
  induction 1 as [|y l Hl IH Hy]; simpl; [repeat constructor|].
  destruct (key_ltb (sort_key x) (sort_key y)) eqn:E.
  - constructor; [exact IH|].
    apply (Permutation_Forall (x := x :: l));
      [symmetry; apply insert_desc_perm|].
    constructor; [|exact Hy]. apply key_lt_ge. now apply key_ltb_lt.
  - apply key_ge_ltb in E. constructor; [now constructor|].
    constructor; [exact E|].
    eapply Forall_impl; [|exact Hy]. intros z Hz. exact (key_ge_trans _ _ _ E Hz).
Qed.

Lemma sorted_reverse_sorted l :
  StronglySorted key_ge (sorted_reverse sort_key l).
Proof.
  induction l as [|x l IH]; simpl; [constructor|].
  now apply insert_desc_sorted.
Qed.

Lemma firstn_sorted n l :
  StronglySorted key_ge l -> StronglySorted key_ge (firstn n l).
Proof.
  intros H. revert n. induction H as [|x l Hl IH Hx]; intros [|n]; simpl;
    try constructor; [apply IH|].
  apply Forall_forall. intros z Hz.
  rewrite Forall_forall in Hx. apply Hx.
  rewrite <- (firstn_skipn n l). apply in_or_app. now left.
Qed.

(* ===================================================================== *)
(** * Dictionaries and the merge of the Federal Register queries *)
(* ===================================================================== *)

Lemma dict_lookup_set_same {V : Type} (d : dict V) k v :
  dict_lookup (dict_set d k v) k = Some v.
Proof.
  induction d as [|[k' v'] d IH]; simpl.
  - now rewrite str_eqb_refl.
  - destruct (str_eqb k' k) eqn:E; simpl; rewrite E; [reflexivity | exact IH].
Qed.

Lemma dict_lookup_set_other {V : Type} (d : dict V) k v k' :
  k' <> k -> dict_lookup (dict_set d k v) k' = dict_lookup d k'.
Proof.
  intros Hne. induction d as [|[k0 v0] d IH]; simpl.
  - destruct (str_eqb k k') eqn:E; [|reflexivity].
    apply str_eqb_eq in E. congruence.
  - destruct (str_eqb k0 k) eqn:E; simpl.
    + apply str_eqb_eq in E. subst k0.
      destruct (str_eqb k k') eqn:E'; [|reflexivity].
      apply str_eqb_eq in E'. congruence.
    + now rewrite IH.
Qed.

Lemma dict_set_id {V : Type} (d : dict V) k v :
  dict_lookup d k = Some v -> dict_set d k v = d.
Proof.
  induction d as [|[k' v'] d IH]; simpl; [discriminate|].
  destruct (str_eqb k' k) eqn:E.
  - intros H. injection H as ->. reflexivity.
  - intros H. now rewrite (IH H).
Qed.

Lemma setdefault_present (d : pydict) k v :
  dict_lookup d k <> None -> setdefault d k v = d.
Proof. unfold setdefault. destruct (dict_lookup d k); congruence. Qed.

Lemma for_each_app {A S : Type} (body : S -> A -> outcome S) l1 l2 s :
  for_each body (l1 ++ l2) s
  = (s' <- for_each body l1 s ;; for_each body l2 s').
Proof.
  revert s. induction l1 as [|a l1 IH]; intros s; simpl; [reflexivity|].
  destruct (body s a) as [s'|e]; simpl; [apply IH | reflexivity].
Qed.

Section Merge.
Context {rt : Runtime}.

Lemma merge_doc_unfold term merged doc :
  merge_doc term merged doc
  = if negb (truthy (doc_key doc)) then merged
    else if negb (fr_relevant doc) then merged
    else match dict_lookup merged (doc_key doc) with
         | None => dict_set merged (doc_key doc) (fr_item term doc)
         | Some existing =>
             dict_set merged (doc_key doc)
               (setdefault existing (str "term_hit") (PyStr term))
         end.
Proof. reflexivity. Qed.

Lemma fr_item_term_hit term doc :
  dict_lookup (fr_item term doc) (str "term_hit") = Some (PyStr term).
Proof. reflexivity. Qed.

(** A document whose key is new enters [merged] as the item built from
    it under the current term. *)
Lemma merge_doc_enters term (merged : dict pydict) doc :
  truthy (doc_key doc) = true -> fr_relevant doc = true ->
  dict_lookup merged (doc_key doc) = None ->
  dict_lookup (merge_doc term merged doc) (doc_key doc)
  = Some (fr_item term doc).
Proof.
  intros Hk Hr Hn. rewrite merge_doc_unfold, Hk, Hr, Hn. simpl.
  apply dict_lookup_set_same.
Qed.

(** An item that has a [term_hit] is not touched by any document. *)
Lemma merge_doc_keeps term (merged : dict pydict) doc k (item : pydict) :
  dict_lookup merged k = Some item ->
  dict_lookup item (str "term_hit") <> None ->
  dict_lookup (merge_doc term merged doc) k = Some item.
Proof.
  intros Hk Ht. rewrite merge_doc_unfold.
  destruct (negb (truthy (doc_key doc))); [exact Hk|].
  destruct (negb (fr_relevant doc)); [exact Hk|].
  destruct (list_eq_dec N.eq_dec k (doc_key doc)) as [<-|Hne].
  - rewrite Hk, (setdefault_present _ _ _ Ht). apply dict_lookup_set_same.
  - destruct (dict_lookup merged (doc_key doc));
      now rewrite dict_lookup_set_other.
Qed.

Lemma merge_docs_keep term docs (merged : dict pydict) k (item : pydict) :
  dict_lookup merged k = Some item ->
  dict_lookup item (str "term_hit") <> None ->
  dict_lookup (fold_left (merge_doc term) docs merged) k = Some item.
Proof.
  revert merged. induction docs as [|d docs IH]; intros merged Hk Ht;
    [exact Hk|].
  simpl. apply IH; [now apply merge_doc_keeps | exact Ht].
Qed.

Lemma fetch_term_unfold merged out term :
  fetch_term (merged, out) term
  = match fetch_text (query_url term) with
    | Raise exc =>
        Return (merged,
                append_error out
                  (str "term=" ++ term ++ str ": " ++ exc_str exc))
    | Return raw =>
        match json_loads raw with
        | Raise exc =>
            Return (merged,
                    append_error out
                      (str "term=" ++ term ++ str ": " ++ exc_str exc))
        | Return payload =>
            Return
              (fold_left (merge_doc term)
                 match results payload with Some l => l | None => [] end
                 merged,
               out)
        end
    end.
Proof.
  unfold fetch_term. destruct (fetch_text (query_url term)) as [raw|e];
    [|reflexivity].
  simpl. destruct (json_loads raw); reflexivity.
Qed.

(** No query aborts the loop. *)
Lemma fetch_term_total st term : exists st', fetch_term st term = Return st'.
Proof.
  destruct st as [merged out]. rewrite fetch_term_unfold.
  destruct (fetch_text (query_url term)) as [raw|e]; [|eauto].
  destruct (json_loads raw); eauto.
Qed.

Lemma fetch_terms_total terms st :
  exists st', for_each fetch_term terms st = Return st'.
Proof.
  revert st. induction terms as [|t terms IH]; intros st; simpl; [eauto|].
  destruct (fetch_term_total st t) as [st' ->]. simpl. apply IH.
Qed.

Lemma fetch_term_keeps st term st' k (item : pydict) :
  fetch_term st term = Return st' ->
  dict_lookup (fst st) k = Some item ->
  dict_lookup item (str "term_hit") <> None ->
  dict_lookup (fst st') k = Some item.
Proof.
  destruct st as [merged out]. rewrite fetch_term_unfold. simpl.
  intros H Hk Ht.
  destruct (fetch_text (query_url term)) as [raw|e];
    [|injection H as <-; exact Hk].
  destruct (json_loads raw) as [p|e]; injection H as <-; simpl;
    [now apply merge_docs_keep | exact Hk].
Qed.

Lemma fetch_terms_keep terms st st' k (item : pydict) :
  for_each fetch_term terms st = Return st' ->
  dict_lookup (fst st) k = Some item ->
  dict_lookup item (str "term_hit") <> None ->
  dict_lookup (fst st') k = Some item.
Proof.
  revert st. induction terms as [|t terms IH]; intros st; simpl.
  - intros H. injection H as <-. tauto.
  - destruct (fetch_term_total st t) as [st1 E]. rewrite E. simpl.
    intros H Hk Ht. apply (IH st1 H); [|exact Ht].
    exact (fetch_term_keeps _ _ _ _ _ E Hk Ht).
Qed.

(** What the loop does to [out]: it appends to [errors], one message for
    each query whose retrieval failed among them. *)
Lemma fetch_terms_out terms st st' :
  for_each fetch_term terms st = Return st' ->
  source (snd st') = source (snd st)
  /\ source_url (snd st') = source_url (snd st)
  /\ items (snd st') = items (snd st)
  /\ (forall m, In m (errors (snd st)) -> In m (errors (snd st')))
  /\ (forall t e,
        In t terms ->
        fetch_text (query_url t) = Raise e
        \/ (exists raw,
              fetch_text (query_url t) = Return raw
              /\ json_loads raw = Raise e) ->
        In (str "term=" ++ t ++ str ": " ++ exc_str e) (errors (snd st'))).
Proof.
  revert st. induction terms as [|t terms IH]; intros st; simpl.
  - intros H. injection H as <-. repeat split; tauto.
  - destruct (fetch_term st t) as [st1|] eqn:E; [|discriminate]. simpl.
    intros H. destruct (IH st1 H) as (H1 & H2 & H3 & H4 & H5).
    destruct st as [merged out]. rewrite fetch_term_unfold in E. simpl in *.
    destruct (fetch_text (query_url t)) as [raw|e0] eqn:Ef.
    + destruct st1 as [m1 o1]. simpl in *.
      destruct (json_loads raw) as [p|e1] eqn:Ej; injection E as _ <-.
      * repeat split; try assumption.
        intros t' e [<-|Hin] Hr; [|now apply H5].
        destruct Hr as [Hr|[raw' [Hr Hj]]]; [congruence|].
        rewrite Ef in Hr. injection Hr as <-. congruence.
      * simpl in *. repeat split; try assumption.
        -- intros m Hm. apply H4. apply in_or_app. now left.
        -- intros t' e [<-|Hin] Hr; [|now apply H5].
           destruct Hr as [Hr|[raw' [Hr Hj]]]; [congruence|].
           rewrite Ef in Hr. injection Hr as <-. rewrite Ej in Hj.
           injection Hj as ->. apply H4. apply in_or_app. right. now left.
    + injection E as <-. simpl in *. repeat split; try assumption.
      * intros m Hm. apply H4. apply in_or_app. now left.
      * intros t' e [<-|Hin] Hr; [|now apply H5].
        destruct Hr as [Hr|[raw' [Hr Hj]]]; [|congruence].
        apply H4. apply in_or_app. right. left.
        rewrite Ef in Hr. injection Hr as ->. reflexivity.
Qed.
End Merge.

(** C9.  The fetcher returns, and its [items] are the first 80 of the
    merged items put in descending order of the pair of strings
    ([publication_date] or the empty string, [document_number] or the
    empty string), compared lexicographically by code point: every item
    is followed only by items whose key is not above its own.  The
    order is that of the strings, not of the dates they spell:
    [2025-9-30] sorts above [2025-10-01]. *)
Theorem federal_register_sorted (rt : Runtime) :
  exists merged out r,
    for_each fetch_term FEEDS.federal_register.terms
      ([], new_result FEEDS.federal_register.source
             FEEDS.federal_register.base)
    = Return (merged, out)
    /\ fetch_federal_register = Return r
    /\ items r = firstn 80 (sorted_reverse sort_key (values merged))
    /\ Permutation (sorted_reverse sort_key (values merged)) (values merged)
    /\ StronglySorted key_ge (items r)
    /\ (forall x,
          sort_key x
          = (or_empty (get x (str "publication_date")),
             or_empty (get x (str "document_number"))))
    /\ or_empty PyNone = []
    /\ key_compare (str "2025-9-30", []) (str "2025-10-01", []) = Gt.
Proof.
  destruct (fetch_terms_total FEEDS.federal_register.terms
              ([], new_result FEEDS.federal_register.source
                     FEEDS.federal_register.base)) as [[merged out] H].
  exists merged, out. eexists. split; [exact H|]. split.
  - unfold fetch_federal_register. rewrite H. reflexivity.
  - cbn [items set_items]. split; [reflexivity|].
    split; [apply sorted_reverse_perm|].
    split; [apply firstn_sorted, sorted_reverse_sorted|].
    repeat split.
Qed.

(* ===================================================================== *)
(** * The single-request fetchers *)
(* ===================================================================== *)

Lemma firstn_min {A : Type} (n : nat) (l : list A) :
  firstn (Nat.min (List.length l) n) l = firstn n l.
Proof.
  destruct (Nat.le_gt_cases (List.length l) n) as [H|H].
  - rewrite Nat.min_l by exact H. rewrite firstn_all.
    symmetry. now apply firstn_all2.
  - rewrite Nat.min_r by lia. reflexivity.
Qed.

Section Single.
Context {rt : Runtime}.

Lemma fetch_cbp_csms_unfold :
  fetch_cbp_csms
  = let out := new_result FEEDS.cbp_csms.source FEEDS.cbp_csms.url in
    match fetch_text FEEDS.cbp_csms.url with
    | Raise exc => Return (append_error out (exc_str exc))
    | Return xml_text =>
        match parse_rss_items xml_text with
        | Raise exc => Return (append_error out (exc_str exc))
        | Return rows =>
            Return (set_items out (firstn 40 (filter cbp_relevant rows)))
        end
    end.
Proof.
  unfold fetch_cbp_csms.
  destruct (fetch_text FEEDS.cbp_csms.url) as [xml_text|e]; [|reflexivity].
  simpl. destruct (parse_rss_items xml_text); reflexivity.
Qed.

Lemma fetch_eu_feed_unfold :
  fetch_eu_feed
  = let out :=
      new_result FEEDS.eu_commission.source FEEDS.eu_commission.url in
    match fetch_text FEEDS.eu_commission.url with
    | Raise exc => Return (append_error out (exc_str exc))
    | Return xml_text =>
        match parse_rss_items xml_text with
        | Raise exc => Return (append_error out (exc_str exc))
        | Return rows =>
            Return
              (set_items out
                 (firstn 25
                    match filter eu_relevant rows with
                    | [] => rows
                    | _ :: _ => filter eu_relevant rows
                    end))
        end
    end.
Proof.
  unfold fetch_eu_feed.
  destruct (fetch_text FEEDS.eu_commission.url) as [xml_text|e];
    [|reflexivity].
  simpl. destruct (parse_rss_items xml_text); reflexivity.
Qed.

Lemma fetch_uk_feed_unfold :
  fetch_uk_feed
  = let out := new_result FEEDS.uk_dbt.source FEEDS.uk_dbt.url in
    match fetch_text FEEDS.uk_dbt.url with
    | Raise exc => Return (append_error out (exc_str exc))
    | Return xml_text =>
        match parse_atom_entries xml_text with
        | Raise exc => Return (append_error out (exc_str exc))
        | Return rows =>
            Return (set_items out (firstn 25 (filter uk_relevant rows)))
        end
    end.
Proof.
  unfold fetch_uk_feed.
  destruct (fetch_text FEEDS.uk_dbt.url) as [xml_text|e]; [|reflexivity].
  simpl. destruct (parse_atom_entries xml_text); reflexivity.
Qed.

Lemma fetch_china_mofcom_unfold :
  fetch_china_mofcom
  = let out :=
      new_result FEEDS.china_mofcom.source FEEDS.china_mofcom.url in
    match fetch_text FEEDS.china_mofcom.url with
    | Raise exc =>
        Return (set_items (append_error out (exc_str exc))
                  [mofcom_placeholder])
    | Return html =>
        match mofcom_rows html with
        | Raise exc =>
            Return (set_items (append_error out (exc_str exc))
                      [mofcom_placeholder])
        | Return rows =>
            Return
              (set_items out
                 (firstn 25
                    match filter mofcom_relevant rows with
                    | [] => rows
                    | _ :: _ => filter mofcom_relevant rows
                    end))
        end
    end.
Proof.
  unfold fetch_china_mofcom.
  destruct (fetch_text FEEDS.china_mofcom.url) as [html|e]; [|reflexivity].
  simpl. destruct (mofcom_rows html); reflexivity.
Qed.

Lemma fetch_canada_page_unfold :
  fetch_canada_page
  = let out :=
      set_modified
        (new_result FEEDS.canada_finance.source FEEDS.canada_finance.url)
        PyNone in
    match fetch_text FEEDS.canada_finance.url with
    | Raise exc => Return (append_error out (exc_str exc))
    | Return html =>
        let modified :=
          match re_search match_meta html with
          | Some g => PyStr g
          | None => PyNone
          end in
        match strip_tags html with
        | Raise exc =>
            Return (append_error (set_modified out modified) (exc_str exc))
        | Return text =>
            Return
              (set_items (set_modified out modified)
                 [ [ (str "title",
                      PyStr
                        (str "Canada's response to U.S. tariffs (policy page)"));
                     (str "link", PyStr FEEDS.canada_finance.url);
                     (str "pub_date", PyStr (or_empty modified));
                     (str "description",
                      PyStr
                        match canada_snippets text with
                        | [] =>
                            str "Official policy page for Canada's tariff response."
                        | _ :: _ =>
                            firstn 900
                              (normalize_ws
                                 (join (str " | ") (canada_snippets text)))
                        end) ] ])
        end
    end.
Proof.
  unfold fetch_canada_page.
  destruct (fetch_text FEEDS.canada_finance.url) as [html|e]; [|reflexivity].
  cbv zeta. destruct (strip_tags html); reflexivity.
Qed.

(** The Canada fetcher returns a result in every case; when retrieval
    fails the result holds the message and no item. *)
Lemma fetch_canada_page_shape :
  exists r,
    fetch_canada_page = Return r
    /\ source r = FEEDS.canada_finance.source
    /\ source_url r = FEEDS.canada_finance.url
    /\ List.length (items r) <= 1
    /\ (forall e, fetch_text FEEDS.canada_finance.url = Raise e ->
          errors r = [exc_str e] /\ items r = []).
Proof.
  rewrite fetch_canada_page_unfold. cbv zeta.
  destruct (fetch_text FEEDS.canada_finance.url) as [html|e].
  - destruct (strip_tags html) as [text|e];
      (eexists; split; [reflexivity|]; simpl;
       split; [reflexivity|]; split; [reflexivity|]; split; [lia|];
       discriminate).
  - eexists. split; [reflexivity|]. simpl.
    split; [reflexivity|]. split; [reflexivity|]. split; [lia|].
    intros e' He. injection He as <-. now split.
Qed.
End Single.

(** C2.  For [eu_commission] and [china_mofcom], when retrieval and
    parsing give [N] candidate rows (the page is retrieved and the
    feed parser, or the scraping loop, returns them): if the relevance
    filter accepts none of them, [items] is the first [min(N, 25)]
    candidates as they are; if it accepts some, [items] is the first
    [min(#accepted, 25)] accepted rows.  No error is recorded in either
    case. *)
Theorem continuity_fallback (rt : Runtime) :
  (forall xml_text rows,
     fetch_text FEEDS.eu_commission.url = Return xml_text ->
     parse_rss_items xml_text = Return rows ->
     exists r,
       fetch_eu_feed = Return r
       /\ errors r = []
       /\ (filter eu_relevant rows = [] ->
           items r = firstn (Nat.min (List.length rows) 25) rows)
       /\ (filter eu_relevant rows <> [] ->
           items r
           = firstn (Nat.min (List.length (filter eu_relevant rows)) 25)
               (filter eu_relevant rows)))
  /\ (forall html rows,
        fetch_text FEEDS.china_mofcom.url = Return html ->
        mofcom_rows html = Return rows ->
        exists r,
          fetch_china_mofcom = Return r
          /\ errors r = []
          /\ (filter mofcom_relevant rows = [] ->
              items r = firstn (Nat.min (List.length rows) 25) rows)
          /\ (filter mofcom_relevant rows <> [] ->
              items r
              = firstn
                  (Nat.min (List.length (filter mofcom_relevant rows)) 25)
                  (filter mofcom_relevant rows))).
Proof.
  split.
  - intros xml_text rows Hf Hp. rewrite fetch_eu_feed_unfold, Hf, Hp.
    eexists. split; [reflexivity|]. cbn [items errors set_items new_result].
    split; [reflexivity|]. rewrite !firstn_min.
    destruct (filter eu_relevant rows); split; congruence.
  - intros html rows Hf Hp. rewrite fetch_china_mofcom_unfold, Hf, Hp.
    eexists. split; [reflexivity|]. cbn [items errors set_items new_result].
    split; [reflexivity|]. rewrite !firstn_min.
    destruct (filter mofcom_relevant rows); split; congruence.
Qed.

Lemma continuity_fallback_demo :
  (exists r,
     fetch_eu_feed (rt := Demo.quiet) = Return r
     /\ map (fun i => get i (str "title")) (items r)
        = [PyStr (str "Weather report"); PyStr (str "Sports results")])
  /\ (exists r,
        fetch_china_mofcom (rt := Demo.quiet) = Return r
        /\ map (fun i => get i (str "title")) (items r)
           = [PyStr (str "Weekly press briefing")])
  /\ (exists r,
        fetch_eu_feed (rt := Demo.busy) = Return r
        /\ map (fun i => get i (str "title")) (items r)
           = [PyStr (str "EU response to new tariffs")])
  /\ (exists r,
        fetch_china_mofcom (rt := Demo.busy) = Return r
        /\ map (fun i => get i (str "title")) (items r)
           = [PyStr (str "Spokesperson on tariff measures")]).
Proof.
  destruct (continuity_fallback Demo.quiet) as [Heu Hcn].
  destruct (continuity_fallback Demo.busy) as [Beu Bcn].
  split; [|split; [|split]].
  - destruct (Heu FEEDS.eu_commission.url _ eq_refl eq_refl)
      as (r & Hr & _ & Hzero & _).
    exists r. split; [exact Hr|]. rewrite (Hzero eq_refl). reflexivity.
  - destruct (Hcn Demo.quiet_page _ eq_refl eq_refl)
      as (r & Hr & _ & Hzero & _).
    exists r. split; [exact Hr|]. rewrite (Hzero eq_refl). reflexivity.
  - destruct (Beu FEEDS.eu_commission.url _ eq_refl eq_refl)
      as (r & Hr & _ & _ & Hsome).
    exists r. split; [exact Hr|]. rewrite Hsome; [reflexivity|].
    vm_compute. discriminate.
  - destruct (Bcn Demo.busy_page _ eq_refl eq_refl)
      as (r & Hr & _ & _ & Hsome).
    exists r. split; [exact Hr|]. rewrite Hsome; [reflexivity|].
    vm_compute. discriminate.
Defined.

(** C5.  For [uk_dbt] and [cbp_csms], when retrieval and parsing succeed
    and the relevance filter accepts none of the parsed rows, the
    result has no item and no error. *)
Theorem strict_sources_empty (rt : Runtime) :
  (forall xml_text rows,
     fetch_text FEEDS.uk_dbt.url = Return xml_text ->
     parse_atom_entries xml_text = Return rows ->
     filter uk_relevant rows = [] ->
     exists r, fetch_uk_feed = Return r /\ items r = [] /\ errors r = [])
  /\ (forall xml_text rows,
        fetch_text FEEDS.cbp_csms.url = Return xml_text ->
        parse_rss_items xml_text = Return rows ->
        filter cbp_relevant rows = [] ->
        exists r,
          fetch_cbp_csms = Return r /\ items r = [] /\ errors r = []).
Proof.
  split; intros xml_text rows Hf Hp Hz.
  - rewrite fetch_uk_feed_unfold, Hf, Hp, Hz. eexists. repeat split.
  - rewrite fetch_cbp_csms_unfold, Hf, Hp, Hz. eexists. repeat split.
Qed.

Lemma strict_sources_empty_demo :
  (exists r,
     fetch_uk_feed (rt := Demo.quiet) = Return r
     /\ items r = [] /\ errors r = [])
  /\ (exists r,
        fetch_cbp_csms (rt := Demo.quiet) = Return r
        /\ items r = [] /\ errors r = []).
Proof.
  destruct (strict_sources_empty Demo.quiet) as [Huk Hcbp]. split.
  - exact (Huk FEEDS.uk_dbt.url _ eq_refl eq_refl eq_refl).
  - exact (Hcbp FEEDS.cbp_csms.url _ eq_refl eq_refl eq_refl).
Defined.

(** C6.  When retrieval for [china_mofcom] raises, or the page is
    retrieved and scraping it raises, the result has the exception
    message as its one error and the placeholder item, whose [link] is
    the configured source URL, as its one item.  When retrieval or
    parsing raises for [cbp_csms], [eu_commission] or [uk_dbt], the
    result has the exception message appended to [errors] and [items]
    is still empty. *)
Theorem failure_policy (rt : Runtime) :
  (forall e,
     fetch_text FEEDS.china_mofcom.url = Raise e
     \/ (exists html,
           fetch_text FEEDS.china_mofcom.url = Return html
           /\ mofcom_rows html = Raise e) ->
     exists r,
       fetch_china_mofcom = Return r
       /\ errors r = [exc_str e]
       /\ items r = [mofcom_placeholder]
       /\ get mofcom_placeholder (str "link") = PyStr FEEDS.china_mofcom.url)
  /\ (forall e,
        fetch_text FEEDS.cbp_csms.url = Raise e
        \/ (exists xml_text,
              fetch_text FEEDS.cbp_csms.url = Return xml_text
              /\ parse_rss_items xml_text = Raise e) ->
        exists r,
          fetch_cbp_csms = Return r
          /\ errors r = [exc_str e] /\ items r = [])
  /\ (forall e,
        fetch_text FEEDS.eu_commission.url = Raise e
        \/ (exists xml_text,
              fetch_text FEEDS.eu_commission.url = Return xml_text
              /\ parse_rss_items xml_text = Raise e) ->
        exists r,
          fetch_eu_feed = Return r
          /\ errors r = [exc_str e] /\ items r = [])
  /\ (forall e,
        fetch_text FEEDS.uk_dbt.url = Raise e
        \/ (exists xml_text,
              fetch_text FEEDS.uk_dbt.url = Return xml_text
              /\ parse_atom_entries xml_text = Raise e) ->
        exists r,
          fetch_uk_feed = Return r
          /\ errors r = [exc_str e] /\ items r = []).
Proof.
  split; [|split; [|split]].
  - intros e [Hf|[html [Hf Hp]]]; rewrite fetch_china_mofcom_unfold, Hf;
      [|rewrite Hp]; eexists; repeat split.
  - intros e [Hf|[xml_text [Hf Hp]]]; rewrite fetch_cbp_csms_unfold, Hf;
      [|rewrite Hp]; eexists; repeat split.
  - intros e [Hf|[xml_text [Hf Hp]]]; rewrite fetch_eu_feed_unfold, Hf;
      [|rewrite Hp]; eexists; repeat split.
  - intros e [Hf|[xml_text [Hf Hp]]]; rewrite fetch_uk_feed_unfold, Hf;
      [|rewrite Hp]; eexists; repeat split.
Qed.

Lemma failure_policy_demo :
  (exists r,
     fetch_china_mofcom (rt := Demo.offline) = Return r
     /\ errors r = [str "timed out"]
     /\ items r = [mofcom_placeholder]
     /\ get mofcom_placeholder (str "link") = PyStr FEEDS.china_mofcom.url)
  /\ (exists r,
        fetch_china_mofcom (rt := Demo.overlong) = Return r
        /\ errors r = [exc_str (int_limit_error 4301)]
        /\ items r = [mofcom_placeholder]
        /\ get mofcom_placeholder (str "link")
           = PyStr FEEDS.china_mofcom.url)
  /\ (exists r,
        fetch_cbp_csms (rt := Demo.overlong) = Return r
        /\ errors r = [exc_str (int_limit_error 4301)] /\ items r = [])
  /\ (exists r,
        fetch_cbp_csms (rt := Demo.offline) = Return r
        /\ errors r = [str "timed out"] /\ items r = [])
  /\ (exists r,
        fetch_eu_feed (rt := Demo.garbled) = Return r
        /\ errors r = [str "syntax error: line 1, column 0"]
        /\ items r = [])
  /\ (exists r,
        fetch_uk_feed (rt := Demo.garbled) = Return r
        /\ errors r = [str "syntax error: line 1, column 0"]
        /\ items r = []).
Proof.
  destruct (failure_policy Demo.offline) as (Hcn & Hcbp & _ & _).
  destruct (failure_policy Demo.garbled) as (_ & _ & Heu & Huk).
  destruct (failure_policy Demo.overlong) as (Hcn' & Hcbp' & _ & _).
  split; [|split; [|split; [|split; [|split]]]].
  - exact (Hcn (Exn (str "timed out")) (or_introl eq_refl)).
  - apply (Hcn' (int_limit_error 4301)). right.
    exists Demo.overlong_page. split; [reflexivity|].
    vm_compute. reflexivity.
  - apply (Hcbp' (int_limit_error 4301)). right.
    exists FEEDS.cbp_csms.url. split; [reflexivity|].
    vm_compute. reflexivity.
  - exact (Hcbp (Exn (str "timed out")) (or_introl eq_refl)).
  - exact (Heu (Exn (str "syntax error: line 1, column 0"))
             (or_intror
                (ex_intro _ FEEDS.eu_commission.url (conj eq_refl eq_refl)))).
  - exact (Huk (Exn (str "syntax error: line 1, column 0"))
             (or_intror
                (ex_intro _ FEEDS.uk_dbt.url (conj eq_refl eq_refl)))).
Defined.

(** C7.  When the XML decoder yields a tree: if the root has no
    [channel] child, [parse_rss_items] returns the empty list, and if
    the [channel] has no [item] child it returns the empty list too;
    neither case raises. *)
Theorem parse_rss_items_empty (rt : Runtime) (xml_text : pystr)
  (root : Element) :
  fromstring xml_text = Return root ->
  (find_elem (str "channel") root = None ->
   parse_rss_items xml_text = Return [])
  /\ (forall channel,
        find_elem (str "channel") root = Some channel ->
        findall (str "item") channel = [] ->
        parse_rss_items xml_text = Return []).
Proof.
  intros Hx. unfold parse_rss_items. rewrite Hx. simpl. split.
  - intros ->. reflexivity.
  - intros channel -> ->. reflexivity.
Qed.

Lemma parse_rss_items_empty_demo :
  parse_rss_items (rt := Demo.with_xml (Elem (str "html") [] None [])) []
  = Return []
  /\ parse_rss_items
       (rt := Demo.with_xml
                (Elem (str "rss") [] None
                   [Elem (str "channel") [] None
                      [Demo.leaf "title" "An empty feed"]])) []
     = Return [].
Proof.
  split.
  - exact (proj1
             (parse_rss_items_empty
                (Demo.with_xml (Elem (str "html") [] None [])) []
                (Elem (str "html") [] None []) eq_refl) eq_refl).
  - exact (proj2
             (parse_rss_items_empty
                (Demo.with_xml
                   (Elem (str "rss") [] None
                      [Elem (str "channel") [] None
                         [Demo.leaf "title" "An empty feed"]])) []
                _ eq_refl)
             (Elem (str "channel") [] None
                [Demo.leaf "title" "An empty feed"]) eq_refl eq_refl).
Defined.

(* ===================================================================== *)
(** * The shape of every result and of the snapshot *)
(* ===================================================================== *)

Section Shapes.
Context {rt : Runtime}.

Lemma fetch_federal_register_shape :
  exists r,
    fetch_federal_register = Return r
    /\ source r = FEEDS.federal_register.source
    /\ source_url r = FEEDS.federal_register.base
    /\ List.length (items r) <= 80
    /\ (forall t e,
          In t FEEDS.federal_register.terms ->
          fetch_text (query_url t) = Raise e
          \/ (exists raw,
                fetch_text (query_url t) = Return raw
                /\ json_loads raw = Raise e) ->
          In (str "term=" ++ t ++ str ": " ++ exc_str e) (errors r)).
Proof.
  destruct (fetch_terms_total FEEDS.federal_register.terms
              ([], new_result FEEDS.federal_register.source
                     FEEDS.federal_register.base)) as [[merged out] H].
  destruct (fetch_terms_out _ _ _ H) as (H1 & H2 & _ & _ & H5).
  unfold fetch_federal_register. rewrite H. cbn [bind].
  eexists. split; [reflexivity|]. cbn [source source_url items errors set_items].
  repeat split; [exact H1 | exact H2 | apply firstn_le_length | exact H5].
Qed.

(** The three cases of a feed fetcher: rows, a parse error, a retrieval
    error. *)
Ltac feed_shape :=
  eexists; split; [reflexivity|];
  cbn [source source_url items errors set_items append_error new_result];
  split; [reflexivity|]; split; [reflexivity|];
  split; [first [apply firstn_le_length | simpl; lia]|];
  let e := fresh "e" in
  let x := fresh "x" in
  let Hr := fresh "Hr" in
  let Hp := fresh "Hp" in
  intros e [Hr|[x [Hr Hp]]];
  try discriminate;
  try (injection Hr as <-); try congruence;
  try (match goal with
       | E : ?a = Raise _, H : ?a = Raise _ |- _ =>
           rewrite E in H; injection H as <-
       end);
  now split.

Lemma fetch_cbp_csms_shape :
  exists r,
    fetch_cbp_csms = Return r
    /\ source r = FEEDS.cbp_csms.source
    /\ source_url r = FEEDS.cbp_csms.url
    /\ List.length (items r) <= 40
    /\ (forall e,
          fetch_text FEEDS.cbp_csms.url = Raise e
          \/ (exists xml_text,
                fetch_text FEEDS.cbp_csms.url = Return xml_text
                /\ parse_rss_items xml_text = Raise e) ->
          errors r = [exc_str e] /\ items r = []).
Proof.
  rewrite fetch_cbp_csms_unfold. cbn zeta.
  destruct (fetch_text FEEDS.cbp_csms.url) as [xml_text|e0];
    [destruct (parse_rss_items xml_text) as [rows|e0] eqn:Ep|];
    feed_shape.
Qed.

Lemma fetch_eu_feed_shape :
  exists r,
    fetch_eu_feed = Return r
    /\ source r = FEEDS.eu_commission.source
    /\ source_url r = FEEDS.eu_commission.url
    /\ List.length (items r) <= 25
    /\ (forall e,
          fetch_text FEEDS.eu_commission.url = Raise e
          \/ (exists xml_text,
                fetch_text FEEDS.eu_commission.url = Return xml_text
                /\ parse_rss_items xml_text = Raise e) ->
          errors r = [exc_str e] /\ items r = []).
Proof.
  rewrite fetch_eu_feed_unfold. cbn zeta.
  destruct (fetch_text FEEDS.eu_commission.url) as [xml_text|e0];
    [destruct (parse_rss_items xml_text) as [rows|e0] eqn:Ep|];
    feed_shape.
Qed.

Lemma fetch_uk_feed_shape :
  exists r,
    fetch_uk_feed = Return r
    /\ source r = FEEDS.uk_dbt.source
    /\ source_url r = FEEDS.uk_dbt.url
    /\ List.length (items r) <= 25
    /\ (forall e,
          fetch_text FEEDS.uk_dbt.url = Raise e
          \/ (exists xml_text,
                fetch_text FEEDS.uk_dbt.url = Return xml_text
                /\ parse_atom_entries xml_text = Raise e) ->
          errors r = [exc_str e] /\ items r = []).
Proof.
  rewrite fetch_uk_feed_unfold. cbn zeta.
  destruct (fetch_text FEEDS.uk_dbt.url) as [xml_text|e0];
    [destruct (parse_atom_entries xml_text) as [rows|e0] eqn:Ep|];
    feed_shape.
Qed.

Lemma fetch_china_mofcom_shape :
  exists r,
    fetch_china_mofcom = Return r
    /\ source r = FEEDS.china_mofcom.source
    /\ source_url r = FEEDS.china_mofcom.url
    /\ List.length (items r) <= 25
    /\ (forall e,
          fetch_text FEEDS.china_mofcom.url = Raise e
          \/ (exists html,
                fetch_text FEEDS.china_mofcom.url = Return html
                /\ mofcom_rows html = Raise e) ->
          errors r = [exc_str e] /\ items r = [mofcom_placeholder]).
Proof.
  rewrite fetch_china_mofcom_unfold. cbn zeta.
  destruct (fetch_text FEEDS.china_mofcom.url) as [html|e0];
    [destruct (mofcom_rows html) as [rows|e0] eqn:Ep|];
    feed_shape.
Qed.
End Shapes.

(** C4.  Every fetcher returns, and the number of its [items] is within
    its cap: 80 for [federal_register], 40 for [cbp_csms], 25 for
    [eu_commission], [uk_dbt] and [china_mofcom]. *)
Theorem items_within_cap (rt : Runtime) :
  (exists r,
     fetch_federal_register = Return r /\ List.length (items r) <= 80)
  /\ (exists r, fetch_cbp_csms = Return r /\ List.length (items r) <= 40)
  /\ (exists r, fetch_eu_feed = Return r /\ List.length (items r) <= 25)
  /\ (exists r, fetch_uk_feed = Return r /\ List.length (items r) <= 25)
  /\ (exists r,
        fetch_china_mofcom = Return r /\ List.length (items r) <= 25).
Proof.
  destruct fetch_federal_register_shape as (r1 & E1 & _ & _ & L1 & _).
  destruct fetch_cbp_csms_shape as (r2 & E2 & _ & _ & L2 & _).
  destruct fetch_eu_feed_shape as (r3 & E3 & _ & _ & L3 & _).
  destruct fetch_uk_feed_shape as (r4 & E4 & _ & _ & L4 & _).
  destruct fetch_china_mofcom_shape as (r5 & E5 & _ & _ & L5 & _).
  repeat split; eauto.
Qed.

(* ===================================================================== *)
(** * Beyond the specification: the text normalizer *)
(* ===================================================================== *)

Lemma tidy_middle a c b :
  tidy (a ++ c :: b) -> isspace c = true ->
  c = 32%N
  /\ (exists y b', b = y :: b' /\ isspace y = false)
  /\ (forall a' x, a = a' ++ [x] -> isspace x = false).
Proof.
  induction a as [|z a IH]; simpl app; intros [Hz Ht] Hc.
  - destruct (Hz Hc) as [-> Hb]. split; [reflexivity|]. split.
    + destruct b as [|y b']; [contradiction | eauto].
    + intros a' x H. destruct a'; discriminate H.
  - destruct (IH Ht Hc) as (E & Hb & Ha). split; [exact E|].
    split; [exact Hb|]. intros a' x H.
    destruct a as [|z' a0].
    + destruct a' as [|w a'']; [|destruct a''; discriminate H].
      injection H as <-. destruct (isspace z) eqn:Ez; [|reflexivity].
      destruct (Hz eq_refl) as [_ Hn]. simpl in Hn. congruence.
    + destruct a' as [|w a'']; [discriminate H|].
      injection H as _ H. exact (Ha a'' x H).
Qed.

Lemma tidy_spaces s c : tidy s -> In c s -> isspace c = true -> c = 32%N.
Proof.
  induction s as [|x s IH]; [easy|]. intros [Hx Hs] [<-|Hin] Hc.
  - now destruct (Hx Hc).
  - now apply IH.
Qed.

(** X1.  In the output of [normalize_ws] the only whitespace character
    is the space, and every space stands between two characters that
    are not whitespace: no other whitespace, no run of spaces, no space
    at either end. *)
Theorem normalize_ws_spaces (s : pystr) :
  (forall c, In c (normalize_ws s) -> isspace c = true -> c = 32%N)
  /\ (forall a b,
        normalize_ws s = a ++ 32%N :: b ->
        (exists a' x, a = a' ++ [x] /\ isspace x = false)
        /\ (exists y b', b = y :: b' /\ isspace y = false)).
Proof.
  destruct (normalize_ws_normalized s) as [Hs Ht]. split.
  - intros c. now apply tidy_spaces.
  - intros a b E. rewrite E in Hs, Ht.
    destruct (tidy_middle a 32%N b Ht eq_refl) as (_ & Hb & Ha).
    split; [|exact Hb].
    destruct a as [|z a0]; [simpl in Hs; discriminate Hs|].
    destruct (exists_last (l := z :: a0)) as (a' & x & Ea); [discriminate|].
    exists a', x. split; [exact Ea | exact (Ha a' x Ea)].
Qed.

Lemma filter_dropwhile (s : pystr) :
  filter non_space (dropwhile isspace s) = filter non_space s.
Proof.
  induction s as [|c r IH]; [reflexivity|]. simpl.
  destruct (isspace c) eqn:E.
  - assert (Hn : non_space c = false) by (unfold non_space; now rewrite E).
    now rewrite Hn.
  - reflexivity.
Qed.

Lemma length_dropwhile (p : N -> bool) (s : pystr) :
  List.length (dropwhile p s) <= List.length s.
Proof.
  rewrite <- (takewhile_dropwhile p s) at 2. rewrite length_app. lia.
Qed.

Lemma collapse_keeps s :
  filter non_space (collapse s) = filter non_space s
  /\ List.length (collapse s) <= List.length s.
Proof.
  remember (List.length s) as n eqn:Hn. revert s Hn.
  induction n as [n IH] using lt_wf_ind. intros s ->.
  destruct s as [|c r]; [split; [reflexivity | simpl; lia]|].
  destruct (isspace c) eqn:E.
  - rewrite (collapse_space _ _ E).
    pose proof (length_dropwhile isspace r) as Hl.
    destruct (IH (List.length (dropwhile isspace r)) ltac:(simpl; lia)
                 (dropwhile isspace r) eq_refl) as [IH1 IH2].
    assert (Hn : non_space c = false) by (unfold non_space; now rewrite E).
    split.
    + simpl. rewrite Hn. now rewrite IH1, filter_dropwhile.
    + simpl. lia.
  - rewrite (collapse_char _ _ E).
    destruct (IH (List.length r) ltac:(simpl; lia) r eq_refl) as [IH1 IH2].
    assert (Hn : non_space c = true) by (unfold non_space; now rewrite E).
    split; [|simpl; lia].
    simpl. rewrite Hn. now rewrite IH1.
Qed.

Lemma filter_rstrip (s : pystr) :
  filter non_space (rstrip s) = filter non_space s.
Proof.
  unfold rstrip.
  rewrite filter_rev, filter_dropwhile, filter_rev. apply rev_involutive.
Qed.

(** X2.  [normalize_ws] keeps every character that is not whitespace, in
    order, and never makes a string longer. *)
Theorem normalize_ws_keeps_text (s : pystr) :
  filter non_space (normalize_ws s) = filter non_space s
  /\ List.length (normalize_ws s) <= List.length s.
Proof.
  unfold normalize_ws. fold collapse.
  destruct (collapse_keeps (strip s)) as [H1 H2]. split.
  - rewrite H1. unfold strip, lstrip. now rewrite filter_rstrip, filter_dropwhile.
  - etransitivity; [exact H2|]. unfold strip, lstrip, rstrip.
    rewrite length_rev.
    etransitivity; [apply length_dropwhile|]. rewrite length_rev.
    apply length_dropwhile.
Qed.

Lemma dropwhile_nil (p : N -> bool) (s : pystr) :
  dropwhile p s = [] <-> forallb p s = true.
Proof.
  induction s as [|c r IH]; simpl; [tauto|].
  destruct (p c); simpl; [exact IH|]. split; discriminate.
Qed.

Lemma forallb_rev_true (p : N -> bool) (s : pystr) :
  forallb p (rev s) = true <-> forallb p s = true.
Proof.
  rewrite !forallb_forall. split; intros H x Hx; apply H.
  - now apply in_rev in Hx.
  - now apply in_rev.
Qed.

(** X3.  [normalize_ws] returns the empty string exactly for the strings
    made of whitespace only (the empty string among them). *)
Theorem normalize_ws_empty_iff (s : pystr) :
  normalize_ws s = [] <-> forallb isspace s = true.
Proof.
  unfold normalize_ws. fold collapse. split.
  - intros H.
    assert (Hs : strip s = []).
    { destruct (strip s) eqn:E; [reflexivity|].
      exfalso. apply (collapse_nonempty (strip s)); [rewrite E; discriminate|].
      now rewrite E. }
    unfold strip, rstrip in Hs.
    apply (f_equal (@rev N)) in Hs. rewrite rev_involutive in Hs. simpl in Hs.
    apply (proj1 (dropwhile_nil _ _)) in Hs.
    apply (proj1 (forallb_rev_true _ _)) in Hs.
    unfold lstrip in Hs. rewrite <- (takewhile_dropwhile isspace s).
    rewrite forallb_app, Hs, andb_true_r.
    clear. induction s as [|c r IH]; [reflexivity|]. simpl.
    destruct (isspace c) eqn:E; [simpl; now rewrite E | reflexivity].
  - intros H. apply dropwhile_nil in H. unfold strip, lstrip. rewrite H.
    reflexivity.
Qed.

Lemma sub_from_no_match (m : pystr -> option nat) (r : pystr -> pystr) s :
  (forall a b, s = a ++ b -> m b = None) -> sub_from m r 0 s = s.
Proof.
  induction s as [|c s IH]; [reflexivity|]. intros H. simpl.
  rewrite (H [] (c :: s) eq_refl). f_equal. apply IH.
  intros a b E. apply (H (c :: a) b). now rewrite E.
Qed.

Lemma match_block_needs_lt (open close b : pystr) :
  match b with 60%N :: _ => False | _ => True end ->
  match_block (60%N :: open) close b = None.
Proof.
  intros H. unfold match_block. destruct b as [|y b']; [reflexivity|].
  simpl ci_startswith.
  assert (E : ci_char 60 y = false).
  { unfold ci_char. simpl. destruct (N.eqb_spec y 60); [|reflexivity].
    subst y. contradiction. }
  now rewrite E.
Qed.

Lemma match_tag_needs_lt (b : pystr) :
  match b with 60%N :: _ => False | _ => True end -> match_tag b = None.
Proof.
  destruct b as [|y b']; [reflexivity|]. simpl.
  destruct y as [|p]; [reflexivity|].
  do 6 (destruct p as [p|p|]; try reflexivity). contradiction.
Qed.

Lemma no_lt_suffix (s a b : pystr) :
  ~ In 60%N s -> s = a ++ b ->
  match b with 60%N :: _ => False | _ => True end.
Proof.
  intros H ->. destruct b as [|y b']; [exact I|].
  destruct (N.eq_dec y 60) as [->|Hy].
  - apply H, in_or_app. right. now left.
  - destruct y as [|p]; [exact I|].
    do 6 (destruct p as [p|p|]; try exact I). congruence.
Qed.

(** X4.  On a text with no [<] and no [&], [strip_tags] returns what
    [normalize_ws] returns: nothing is taken for a tag or an entity,
    and nothing raises. *)
Theorem strip_tags_plain_text (rt : Runtime) (h : pystr) :
  ~ In 60%N h -> ~ In 38%N h -> strip_tags h = Return (normalize_ws h).
Proof.
  intros Hlt Hamp. unfold strip_tags, re_sub.
  change (str "<script") with (60%N :: str "script").
  change (str "<style") with (60%N :: str "style").
  rewrite (sub_from_no_match _ _ h)
    by (intros a b E; apply match_block_needs_lt; exact (no_lt_suffix h a b Hlt E)).
  rewrite (sub_from_no_match _ _ h)
    by (intros a b E; apply match_block_needs_lt; exact (no_lt_suffix h a b Hlt E)).
  rewrite (sub_from_no_match _ _ h)
    by (intros a b E; apply match_tag_needs_lt; exact (no_lt_suffix h a b Hlt E)).
  unfold unescape.
  assert (E : existsb (fun c => (c =? 38)%N) h = false).
  { destruct (existsb (fun c => (c =? 38)%N) h) eqn:E; [|reflexivity].
    apply existsb_exists in E as (c & Hc & Ec).
    apply N.eqb_eq in Ec. subst c. contradiction. }
  now rewrite E.
Qed.

Lemma strip_tags_plain_text_demo :
  strip_tags (rt := Demo.offline) (str "  Tariff   notice ")
  = Return (str "Tariff notice").
Proof.
  rewrite (strip_tags_plain_text Demo.offline (str "  Tariff   notice ")).
  - reflexivity.
  - vm_compute. intuition discriminate.
  - vm_compute. intuition discriminate.
Defined.

(* ===================================================================== *)
(** * Beyond the specification: the keyword filter *)
(* ===================================================================== *)

Lemma startswith_spec p s : startswith p s = true <-> exists b, s = p ++ b.
Proof.
  revert s. induction p as [|x p IH]; intros s; simpl.
  - split; [eauto | reflexivity].
  - destruct s as [|y s].
    + split; [discriminate | intros [b H]; discriminate H].
    + rewrite andb_true_iff, N.eqb_eq, IH. split.
      * intros [-> [b ->]]. eauto.
      * intros [b H]. injection H as -> ->. eauto.
Qed.

Lemma find_spec p s :
  match find p s with
  | Some i => exists a b, s = a ++ p ++ b /\ List.length a = i
  | None => forall a b, s <> a ++ p ++ b
  end.
Proof.
  induction s as [|c s IH]; simpl.
  - destruct (startswith p []) eqn:E.
    + apply startswith_spec in E as [b ->]. exists [], b. now split.
    + intros a b H. destruct a; [|discriminate H].
      assert (E' : startswith p [] = true)
        by (apply startswith_spec; exists b; exact H).
      congruence.
  - destruct (startswith p (c :: s)) eqn:E.
    + apply startswith_spec in E as [b ->]. exists [], b. now split.
    + destruct (find p s) as [i|].
      * destruct IH as (a & b & -> & <-). exists (c :: a), b. now split.
      * intros a b H. destruct a as [|x a].
        -- assert (E' : startswith p (c :: s) = true)
             by (apply startswith_spec; exists b; exact H).
           congruence.
        -- injection H as _ H. exact (IH a b H).
Qed.

Lemma contains_spec p s :
  contains p s = true <-> exists a b, s = a ++ p ++ b.
Proof.
  unfold contains. pose proof (find_spec p s) as H.
  destruct (find p s) as [i|].
  - split; [|reflexivity]. intros _. destruct H as (a & b & H & _). eauto.
  - split; [discriminate|]. intros (a & b & E). now destruct (H a b).
Qed.

(** X5.  A text is relevant exactly when its lower-cased form has one of
    the configured keywords as a substring, anywhere: at a word
    boundary or inside a word alike. *)
Theorem contains_keyword_iff (rt : Runtime) (text : pystr) :
  contains_keyword text = true
  <-> exists k a b, In k KEYWORDS /\ str_lower text = a ++ k ++ b.
Proof.
  unfold contains_keyword. rewrite existsb_exists. split.
  - intros (k & Hk & Hc). apply contains_spec in Hc as (a & b & E). eauto.
  - intros (k & a & b & Hk & E). exists k. split; [exact Hk|].
    apply contains_spec. eauto.
Qed.

Lemma contains_longer p q s :
  contains (p ++ q) s = true -> contains p s = true.
Proof.
  rewrite !contains_spec. intros (a & b & ->). exists a, (q ++ b).
  now rewrite <- app_assoc.
Qed.

Lemma orb_absorb (x y z : bool) :
  (y = true -> x = true) -> x || (y || z) = x || z.
Proof. destruct x, y; simpl; intros H; try reflexivity. now discriminate H. Qed.

(** X6.  The entries [tariffs] and [countermeasures] of the keyword list
    never change the answer: whatever contains a plural contains its
    singular, so the filter is that of the list without them. *)
Theorem plural_keywords_redundant (rt : Runtime) (text : pystr) :
  contains_keyword text
  = existsb (fun k => contains k (str_lower text)) KEYWORDS_without_plurals.
Proof.
  unfold contains_keyword, KEYWORDS, KEYWORDS_without_plurals.
  cbn [map existsb].
  rewrite (orb_absorb (contains (str "tariff") (str_lower text)))
    by (apply (contains_longer (str "tariff") (str "s"))).
  do 3 f_equal.
  rewrite (orb_absorb (contains (str "countermeasure") (str_lower text)))
    by (apply (contains_longer (str "countermeasure") (str "s"))).
  reflexivity.
Qed.

(* ===================================================================== *)
(** * Beyond the specification: the Federal Register fetcher *)
(* ===================================================================== *)

Lemma dict_lookup_none {V : Type} (d : dict V) k :
  dict_lookup d k = None <-> ~ In k (map fst d).
Proof.
  induction d as [|[k' v] d IH]; simpl; [tauto|].
  destruct (str_eqb k' k) eqn:E.
  - apply str_eqb_eq in E. split; [discriminate | tauto].
  - rewrite IH. split; [|tauto]. intros H [H'|H']; [|tauto].
    subst k'. now rewrite str_eqb_refl in E.
Qed.

Lemma dict_set_absent {V : Type} (d : dict V) k v :
  dict_lookup d k = None -> dict_set d k v = d ++ [(k, v)].
Proof.
  induction d as [|[k' v'] d IH]; simpl; [reflexivity|].
  destruct (str_eqb k' k); [discriminate|]. intros H. now rewrite IH.
Qed.

Lemma dict_lookup_in {V : Type} (d : dict V) k v :
  dict_lookup d k = Some v -> In (k, v) d.
Proof.
  induction d as [|[k' v'] d IH]; simpl; [discriminate|].
  destruct (str_eqb k' k) eqn:E.
  - apply str_eqb_eq in E. intros H. injection H as ->. subst. now left.
  - intros H. right. now apply IH.
Qed.

Lemma add_errors_fields out l :
  source (add_errors out l) = source out
  /\ source_url (add_errors out l) = source_url out
  /\ items (add_errors out l) = items out
  /\ errors (add_errors out l) = errors out ++ l
  /\ dcterms_modified (add_errors out l) = dcterms_modified out.
Proof.
  revert out. induction l as [|e l IH]; intros out; simpl.
  - now rewrite app_nil_r.
  - destruct (IH (append_error out e)) as (H1 & H2 & H3 & H4 & H5).
    unfold add_errors in *. rewrite H1, H2, H3, H4, H5. simpl.
    now rewrite <- app_assoc.
Qed.

Lemma add_errors_app out l1 l2 :
  add_errors out (l1 ++ l2) = add_errors (add_errors out l1) l2.
Proof. unfold add_errors. apply fold_left_app. Qed.

Section Closed.
Context {rt : Runtime}.

Lemma doc_key_fr_item term doc : doc_key (fr_item term doc) = doc_key doc.
Proof. reflexivity. Qed.

Lemma fetch_term_closed merged out term :
  fetch_term (merged, out) term
  = Return (fold_left (merge_doc term) (term_docs term) merged,
            add_errors out (term_errors term)).
Proof.
  rewrite fetch_term_unfold. unfold term_docs, term_errors, query_docs.
  destruct (fetch_text (query_url term)) as [raw|e]; [|reflexivity].
  simpl. destruct (json_loads raw); reflexivity.
Qed.

Lemma fetch_terms_closed terms merged out :
  for_each fetch_term terms (merged, out)
  = Return (merge_terms terms merged,
            add_errors out (flat_map term_errors terms)).
Proof.
  revert merged out. induction terms as [|t terms IH]; intros merged out;
    [reflexivity|].
  cbn [for_each]. rewrite fetch_term_closed. cbn [bind]. rewrite IH.
  cbn [flat_map]. now rewrite add_errors_app.
Qed.

Lemma merge_doc_ok terms term (merged : dict pydict) doc :
  In term terms -> merged_ok terms merged ->
  merged_ok terms (merge_doc term merged doc).
Proof.
  intros Ht [Hn Hf]. rewrite merge_doc_unfold.
  destruct (truthy (doc_key doc)) eqn:Hk; [|now split].
  destruct (fr_relevant doc) eqn:Hr; [|now split].
  simpl. destruct (dict_lookup merged (doc_key doc)) as [existing|] eqn:El.
  - assert (He : dict_lookup existing (str "term_hit") <> None).
    { apply dict_lookup_in in El. rewrite Forall_forall in Hf.
      destruct (Hf _ El) as (t & d & _ & E & _). simpl in E. subst existing.
      rewrite fr_item_term_hit. discriminate. }
    rewrite (setdefault_present _ _ _ He), (dict_set_id _ _ _ El).
    now split.
  - rewrite (dict_set_absent _ _ _ El). split.
    + rewrite map_app. simpl. apply dict_lookup_none in El.
      apply NoDup_app; [exact Hn | repeat constructor; easy|].
      intros k Hin [<-|[]]. contradiction.
    + apply Forall_app. split; [exact Hf|]. constructor; [|constructor].
      exists term, doc. simpl. now repeat split.
Qed.

Lemma merge_docs_ok terms term docs (merged : dict pydict) :
  In term terms -> merged_ok terms merged ->
  merged_ok terms (fold_left (merge_doc term) docs merged).
Proof.
  intros Ht. revert merged. induction docs as [|d docs IH]; intros merged H;
    [exact H|].
  simpl. apply IH. now apply merge_doc_ok.
Qed.

Lemma merge_terms_ok terms ts (merged : dict pydict) :
  incl ts terms -> merged_ok terms merged ->
  merged_ok terms (merge_terms ts merged).
Proof.
  revert merged. induction ts as [|t ts IH]; intros merged Hi H; [exact H|].
  unfold merge_terms. simpl. apply IH.
  - intros x Hx. apply Hi. now right.
  - apply merge_docs_ok; [apply Hi; now left | exact H].
Qed.

Lemma merged_ok_keys terms (merged : dict pydict) :
  merged_ok terms merged -> map doc_key (values merged) = map fst merged.
Proof.
  intros [_ Hf]. unfold values. rewrite map_map. apply map_ext_in.
  intros kv Hin. rewrite Forall_forall in Hf.
  destruct (Hf kv Hin) as (t & d & _ & E & K & _). now rewrite E, K.
Qed.

(** The result of [fetch_federal_register], in closed form. *)
Lemma fetch_federal_register_closed :
  fetch_federal_register
  = Return
      {| source := FEEDS.federal_register.source;
         source_url := FEEDS.federal_register.base;
         items :=
           firstn 80
             (sorted_reverse sort_key
                (values (merge_terms FEEDS.federal_register.terms [])));
         errors := flat_map term_errors FEEDS.federal_register.terms;
         dcterms_modified := None |}.
Proof.
  unfold fetch_federal_register. rewrite fetch_terms_closed. cbn [bind].
  unfold set_items.
  destruct (add_errors_fields
              (new_result FEEDS.federal_register.source
                 FEEDS.federal_register.base)
              (flat_map term_errors FEEDS.federal_register.terms))
    as (H1 & H2 & _ & H4 & H5).
  now rewrite H1, H2, H4, H5.
Qed.
End Closed.

Lemma sorted_split (l1 l2 : list pydict) :
  StronglySorted key_ge (l1 ++ l2) ->
  forall x y, In x l1 -> In y l2 -> key_ge x y.
Proof.
  induction l1 as [|a l1 IH]; [easy|]. simpl. intros H x y [<-|Hx] Hy.
  - apply StronglySorted_inv in H as [_ Hf]. rewrite Forall_forall in Hf.
    apply Hf, in_or_app. now right.
  - apply StronglySorted_inv in H as [H _]. now apply IH.
Qed.

Lemma dict_in_lookup {V : Type} (d : dict V) k v :
  NoDup (map fst d) -> In (k, v) d -> dict_lookup d k = Some v.
Proof.
  induction d as [|[k' v'] d IH]; simpl; [easy|].
  intros Hn [E|Hin].
  - injection E as -> ->. now rewrite str_eqb_refl.
  - apply NoDup_cons_iff in Hn as [Hk Hn].
    destruct (str_eqb k' k) eqn:E; [|now apply IH].
    apply str_eqb_eq in E. subst k'. exfalso. apply Hk.
    apply in_map_iff. now exists (k, v).
Qed.

Section First.
Context {rt : Runtime}.

(** A document that the relevance filter drops, or that has another
    key, leaves the key [k] out of [merged]. *)
Lemma merge_doc_skips term (merged : dict pydict) doc k :
  (doc_key doc = k -> fr_relevant doc = false) ->
  dict_lookup merged k = None ->
  dict_lookup (merge_doc term merged doc) k = None.
Proof.
  intros Hd Hk. rewrite merge_doc_unfold.
  destruct (negb (truthy (doc_key doc))); [exact Hk|].
  destruct (fr_relevant doc) eqn:Hr; [|exact Hk]. cbn [negb].
  assert (Hne : k <> doc_key doc).
  { intros E. symmetry in E. specialize (Hd E). congruence. }
  destruct (dict_lookup merged (doc_key doc));
    now rewrite dict_lookup_set_other.
Qed.

Lemma merge_docs_skip term docs (merged : dict pydict) k :
  (forall d, In d docs -> doc_key d = k -> fr_relevant d = false) ->
  dict_lookup merged k = None ->
  dict_lookup (fold_left (merge_doc term) docs merged) k = None.
Proof.
  revert merged. induction docs as [|d docs IH]; intros merged Hd Hk;
    [exact Hk|].
  simpl. apply IH.
  - intros d' Hin. apply Hd. now right.
  - apply merge_doc_skips; [apply Hd; now left | exact Hk].
Qed.

Lemma merge_terms_skip terms (merged : dict pydict) k :
  (forall t d,
     In t terms -> In d (term_docs t) -> doc_key d = k ->
     fr_relevant d = false) ->
  dict_lookup merged k = None ->
  dict_lookup (merge_terms terms merged) k = None.
Proof.
  revert merged. induction terms as [|t terms IH]; intros merged Hd Hk;
    [exact Hk|].
  unfold merge_terms. simpl. apply IH.
  - intros t' d Hin. apply Hd. now right.
  - apply merge_docs_skip; [|exact Hk]. intros d. apply Hd. now left.
Qed.

Lemma merge_terms_keep terms (merged : dict pydict) k (item : pydict) :
  dict_lookup merged k = Some item ->
  dict_lookup item (str "term_hit") <> None ->
  dict_lookup (merge_terms terms merged) k = Some item.
Proof.
  revert merged. induction terms as [|t terms IH]; intros merged Hk Ht;
    [exact Hk|].
  unfold merge_terms. simpl. apply IH; [|exact Ht].
  now apply merge_docs_keep.
Qed.

Lemma merge_terms_app ts1 ts2 (merged : dict pydict) :
  merge_terms (ts1 ++ ts2) merged = merge_terms ts2 (merge_terms ts1 merged).
Proof. unfold merge_terms. apply fold_left_app. Qed.
End First.

(** C1, as stated, fails.  The query for [tariff], the first of the
    five, returns the document [X] under a title that holds no keyword;
    the query for [duty] returns the same number under a title that
    holds one.  The item of [X] in the result is the one built from the
    entry of the second query: its [term_hit] is [duty], and its title
    and date are those of that entry, not those of the entry of the
    first query in which the key occurred. *)
Lemma first_occurrence_filtered_out :
  exists r item,
    hd_error FEEDS.federal_register.terms = Some (str "tariff")
    /\ term_docs (rt := Demo.late_match) (str "tariff")
       = [Demo.doc_x_meeting]
    /\ doc_key Demo.doc_x_meeting = str "X"
    /\ term_docs (rt := Demo.late_match) (str "duty") = [Demo.doc_x_duty]
    /\ doc_key Demo.doc_x_duty = str "X"
    /\ fetch_federal_register (rt := Demo.late_match) = Return r
    /\ items r = [item]
    /\ doc_key item = str "X"
    /\ get item (str "term_hit") = PyStr (str "duty")
    /\ get item (str "term_hit") <> PyStr (str "tariff")
    /\ get item (str "title") = PyStr (str "Duty and tariff notice")
    /\ get Demo.doc_x_meeting (str "title")
       = PyStr (str "Notice of public meeting")
    /\ get item (str "publication_date") = PyStr (str "2025-04-01")
    /\ get item (str "publication_date")
       <> get Demo.doc_x_meeting (str "publication_date").
Proof.
  eexists. eexists.
  split; [reflexivity|]. split; [reflexivity|]. split; [reflexivity|].
  split; [reflexivity|]. split; [reflexivity|].
  split; [vm_compute; reflexivity|].
  split; [reflexivity|]. split; [reflexivity|]. split; [reflexivity|].
  split; [vm_compute; discriminate|]. split; [reflexivity|].
  split; [reflexivity|]. split; [reflexivity|].
  vm_compute. discriminate.
Qed.

(** C1, as amended.  An entry counts as an occurrence of its identity
    key ([document_number], or [html_url] when there is no number) only
    if it passes the relevance filter.  Let [d] be an entry of the
    answer to the query for [t] that has a key and passes the filter,
    such that every entry with the same key in the answers to the
    earlier queries, and before [d] in this answer, is dropped by the
    filter.  Then the fetcher returns, and the merged item under that
    key is the one built from [d]: its [document_number],
    [publication_date], [type], [html_url] and [raw_text_url] are those
    of [d], its [title] is the normalized title of [d], and its
    [term_hit] is [t]; no later entry, of this or of a later query,
    changes it.  Every item of the result with that key is this item,
    and the item is in the result unless 80 items whose sort key is not
    below its own fill it. *)
Theorem first_relevant_entry_wins (rt : Runtime) (before later : list pystr)
  (t : pystr) (pre rest : list pydict) (d : pydict) :
  FEEDS.federal_register.terms = before ++ t :: later ->
  term_docs t = pre ++ d :: rest ->
  truthy (doc_key d) = true ->
  fr_relevant d = true ->
  (forall t' d',
     In t' before -> In d' (term_docs t') -> doc_key d' = doc_key d ->
     fr_relevant d' = false) ->
  (forall d', In d' pre -> doc_key d' = doc_key d -> fr_relevant d' = false) ->
  exists r,
    fetch_federal_register = Return r
    /\ dict_lookup (merge_terms FEEDS.federal_register.terms []) (doc_key d)
       = Some (fr_item t d)
    /\ (forall item,
          In item (items r) -> doc_key item = doc_key d ->
          item = fr_item t d)
    /\ (In (fr_item t d) (items r)
        \/ (List.length (items r) = 80
            /\ forall x, In x (items r) -> key_ge x (fr_item t d)))
    /\ get (fr_item t d) (str "term_hit") = PyStr t
    /\ get (fr_item t d) (str "document_number")
       = PyStr (or_empty (get d (str "document_number")))
    /\ get (fr_item t d) (str "publication_date")
       = get d (str "publication_date")
    /\ get (fr_item t d) (str "title")
       = PyStr (normalize_ws (or_empty (get d (str "title"))))
    /\ get (fr_item t d) (str "type") = get d (str "type")
    /\ get (fr_item t d) (str "html_url") = get d (str "html_url")
    /\ get (fr_item t d) (str "raw_text_url") = get d (str "raw_text_url").
Proof.
  intros Hterms Hdocs Hk Hrel Hbefore Hpre.
  assert (Hitem : dict_lookup (fr_item t d) (str "term_hit") <> None)
    by (rewrite fr_item_term_hit; discriminate).
  set (M := merge_terms FEEDS.federal_register.terms []).
  assert (HM : dict_lookup M (doc_key d) = Some (fr_item t d)).
  { unfold M. rewrite Hterms, merge_terms_app.
    change (merge_terms (t :: later) (merge_terms before []))
      with (merge_terms later
              (fold_left (merge_doc t) (term_docs t) (merge_terms before []))).
    apply merge_terms_keep; [|exact Hitem].
    rewrite Hdocs, fold_left_app. cbn [fold_left].
    apply merge_docs_keep; [|exact Hitem].
    apply merge_doc_enters; [exact Hk | exact Hrel |].
    apply merge_docs_skip; [exact Hpre|].
    apply merge_terms_skip; [exact Hbefore | reflexivity]. }
  assert (Hok : merged_ok FEEDS.federal_register.terms M).
  { apply merge_terms_ok; [apply incl_refl|]. split; constructor. }
  rewrite fetch_federal_register_closed. fold M.
  eexists. split; [reflexivity|]. cbn [items].
  split; [exact HM|]. split; [|split].
  - intros item Hin Hkey.
    assert (Hv : In item (values M)).
    { apply (Permutation_in item (sorted_reverse_perm _)).
      rewrite <- (firstn_skipn 80 (sorted_reverse sort_key _)).
      apply in_or_app. now left. }
    unfold values in Hv. apply in_map_iff in Hv as ([k v] & E & Hkv).
    cbn [snd] in E. subst v.
    destruct Hok as [Hn Hf]. rewrite Forall_forall in Hf.
    destruct (Hf _ Hkv) as (t0 & d0 & _ & Ei & Ek & _).
    cbn [fst snd] in Ei, Ek.
    assert (E : k = doc_key d).
    { rewrite Ek, <- Hkey, Ei. symmetry. apply doc_key_fr_item. }
    rewrite E in Hkv. pose proof (dict_in_lookup _ _ _ Hn Hkv) as Hl.
    rewrite HM in Hl. now injection Hl.
  - set (l := sorted_reverse sort_key (values M)).
    assert (Hin : In (fr_item t d) l).
    { apply (Permutation_in _ (Permutation_sym (sorted_reverse_perm _))).
      unfold values. apply in_map_iff. exists (doc_key d, fr_item t d).
      split; [reflexivity | now apply dict_lookup_in]. }
    rewrite <- (firstn_skipn 80 l) in Hin. apply in_app_or in Hin as [Hin|Hin];
      [now left|].
    right. split.
    + apply firstn_length_le.
      destruct (Nat.le_gt_cases 80 (List.length l)) as [Hle|Hgt]; [exact Hle|].
      rewrite skipn_all2 in Hin by lia. destruct Hin.
    + intros x Hx. apply (sorted_split (firstn 80 l) (skipn 80 l));
        [|exact Hx | exact Hin].
      rewrite firstn_skipn. apply sorted_reverse_sorted.
  - repeat split.
Qed.

Lemma first_relevant_entry_wins_demo :
  (exists r,
     fetch_federal_register (rt := Demo.two_queries) = Return r
     /\ items r = [fr_item (str "tariff") Demo.doc_x_tariff]
     /\ get (fr_item (str "tariff") Demo.doc_x_tariff) (str "term_hit")
        = PyStr (str "tariff"))
  /\ (exists r,
        fetch_federal_register (rt := Demo.late_match) = Return r
        /\ items r = [fr_item (str "duty") Demo.doc_x_duty]
        /\ get (fr_item (str "duty") Demo.doc_x_duty) (str "term_hit")
           = PyStr (str "duty")).
Proof.
  split.
  - destruct (first_relevant_entry_wins Demo.two_queries []
                (tl FEEDS.federal_register.terms) (str "tariff") [] []
                Demo.doc_x_tariff eq_refl eq_refl eq_refl eq_refl)
      as (r & Hr & _ & _ & _ & Hhit & _).
    + intros t' d' [].
    + intros d' [].
    + exists r. split; [exact Hr|]. split; [|exact Hhit].
      vm_compute in Hr. injection Hr as <-. reflexivity.
  - destruct (first_relevant_entry_wins Demo.late_match [str "tariff"]
                (tl (tl FEEDS.federal_register.terms)) (str "duty") [] []
                Demo.doc_x_duty eq_refl eq_refl eq_refl eq_refl)
      as (r & Hr & _ & _ & _ & Hhit & _).
    + intros t' d' [<-|[]] Hd _. vm_compute in Hd.
      destruct Hd as [<-|[]]. reflexivity.
    + intros d' [].
    + exists r. split; [exact Hr|]. split; [|exact Hhit].
      vm_compute in Hr. injection Hr as <-. reflexivity.
Defined.

(** X8.  No two items of the Federal Register result have the same
    identity key (the document number, or the URL when there is no
    number). *)
Theorem federal_register_no_duplicates (rt : Runtime) :
  exists r,
    fetch_federal_register = Return r /\ NoDup (map doc_key (items r)).
Proof.
  rewrite fetch_federal_register_closed. eexists. split; [reflexivity|].
  cbn [items].
  assert (Hok : merged_ok FEEDS.federal_register.terms
                  (merge_terms FEEDS.federal_register.terms [])).
  { apply merge_terms_ok; [apply incl_refl|]. split; constructor. }
  set (l := values (merge_terms FEEDS.federal_register.terms [])).
  assert (Hl : NoDup (map doc_key l)).
  { unfold l. rewrite (merged_ok_keys _ _ Hok). apply Hok. }
  assert (Hs : NoDup (map doc_key (sorted_reverse sort_key l))).
  { apply (Permutation_NoDup (l := map doc_key l)); [|exact Hl].
    apply Permutation_map. symmetry. apply sorted_reverse_perm. }
  rewrite <- (firstn_skipn 80 (sorted_reverse sort_key l)), map_app in Hs.
  exact (NoDup_app_remove_r _ _ Hs).
Qed.


Lemma merge_terms_no_docs {rt : Runtime} terms (merged : dict pydict) :
  (forall t, In t terms -> term_docs t = []) ->
  merge_terms terms merged = merged.
Proof.
  revert merged. induction terms as [|t terms IH]; intros merged H;
    [reflexivity|].
  unfold merge_terms. simpl. rewrite (H t (or_introl eq_refl)). simpl.
  apply IH. intros t' Ht'. apply H. now right.
Qed.

(** X10.  When every one of the five queries fails at retrieval or at
    JSON decoding, the Federal Register result has no item and five
    errors, one for each term in order: [term=], the term, a colon and a
    space, and the message of the exception that query raised. *)
Theorem federal_register_all_queries_fail (rt : Runtime) :
  (forall t, In t FEEDS.federal_register.terms ->
             (exists e, fetch_text (query_url t) = Raise e)
             \/ (exists raw e,
                   fetch_text (query_url t) = Return raw
                   /\ json_loads raw = Raise e)) ->
  exists r,
    fetch_federal_register = Return r
    /\ items r = []
    /\ List.length (errors r) = 5
    /\ Forall2
         (fun t m =>
            exists e,
              (fetch_text (query_url t) = Raise e
               \/ (exists raw,
                     fetch_text (query_url t) = Return raw
                     /\ json_loads raw = Raise e))
              /\ m = str "term=" ++ t ++ str ": " ++ exc_str e)
         FEEDS.federal_register.terms (errors r).
Proof.
  intros H0.
  assert (H : forall t, In t FEEDS.federal_register.terms ->
                        exists e,
                          query_docs t = Raise e
                          /\ (fetch_text (query_url t) = Raise e
                              \/ (exists raw,
                                    fetch_text (query_url t) = Return raw
                                    /\ json_loads raw = Raise e))).
  { intros t Ht. unfold query_docs.
    destruct (H0 t Ht) as [[e He]|(raw & e & Hr & He)]; exists e.
    - rewrite He. split; [reflexivity | now left].
    - rewrite Hr. cbn [bind]. rewrite He. split; [reflexivity|].
      right. now exists raw. }
  clear H0. rewrite fetch_federal_register_closed. eexists.
  split; [reflexivity|]. cbn [items errors].
  assert (Hd : forall t, In t FEEDS.federal_register.terms -> term_docs t = []).
  { intros t Ht. destruct (H t Ht) as (e & He & _). unfold term_docs.
    now rewrite He. }
  rewrite (merge_terms_no_docs _ _ Hd). split; [reflexivity|].
  assert (He : forall ts,
             incl ts FEEDS.federal_register.terms ->
             List.length (flat_map term_errors ts) = List.length ts
             /\ Forall2
                  (fun t m =>
                     exists e,
                       (fetch_text (query_url t) = Raise e
                        \/ (exists raw,
                              fetch_text (query_url t) = Return raw
                              /\ json_loads raw = Raise e))
                       /\ m = str "term=" ++ t ++ str ": " ++ exc_str e)
                  ts (flat_map term_errors ts)).
  { induction ts as [|t ts IH]; intros Hi; [split; [reflexivity|constructor]|].
    destruct (IH (fun x Hx => Hi x (or_intror Hx))) as [IH1 IH2].
    destruct (H t (Hi t (or_introl eq_refl))) as (e & E & Hwhy).
    cbn [flat_map]. unfold term_errors at 1 3. rewrite E. simpl. split.
    - now rewrite IH1.
    - constructor; [exists e; now split | exact IH2]. }
  destruct (He _ (incl_refl _)) as [H1 H2]. split; [exact H1 | exact H2].
Qed.

Lemma federal_register_all_queries_fail_demo :
  (exists r,
     fetch_federal_register (rt := Demo.offline) = Return r
     /\ items r = []
     /\ errors r
        = map (fun t => str "term=" ++ t ++ str ": timed out")
            FEEDS.federal_register.terms)
  /\ (exists r,
        fetch_federal_register (rt := Demo.garbled) = Return r
        /\ items r = []
        /\ errors r
           = map (fun t => str "term=" ++ t ++ str ": Expecting value")
               FEEDS.federal_register.terms).
Proof.
  split.
  - destruct (federal_register_all_queries_fail Demo.offline)
      as (r & Hr & Hi & _).
    { intros t _. left. exists (Exn (str "timed out")). reflexivity. }
    exists r. split; [exact Hr|]. split; [exact Hi|].
    vm_compute in Hr. injection Hr as <-. reflexivity.
  - destruct (federal_register_all_queries_fail Demo.garbled)
      as (r & Hr & Hi & _).
    { intros t _. right. exists (query_url (rt := Demo.garbled) t).
      exists (Exn (str "Expecting value")). split; reflexivity. }
    exists r. split; [exact Hr|]. split; [exact Hi|].
    vm_compute in Hr. injection Hr as <-. reflexivity.
Defined.

(** X11.  The cut at 80 keeps the top of the order: the merged items are
    the returned ones followed by the dropped ones, and no dropped item
    has a sort key above that of a returned item. *)
Theorem federal_register_cut_keeps_top (rt : Runtime) :
  exists r dropped,
    fetch_federal_register = Return r
    /\ Permutation (items r ++ dropped)
         (values (merge_terms FEEDS.federal_register.terms []))
    /\ (forall x y, In x (items r) -> In y dropped -> key_ge x y)
    /\ (dropped <> [] -> List.length (items r) = 80).
Proof.
  rewrite fetch_federal_register_closed.
  set (l := sorted_reverse sort_key
              (values (merge_terms FEEDS.federal_register.terms []))).
  eexists. exists (skipn 80 l). split; [reflexivity|]. cbn [items].
  split; [rewrite firstn_skipn; apply sorted_reverse_perm|]. split.
  - apply sorted_split. rewrite firstn_skipn. apply sorted_reverse_sorted.
  - intros Hd. apply firstn_length_le.
    destruct (Nat.le_gt_cases 80 (List.length l)) as [Hle|Hgt]; [exact Hle|].
    exfalso. apply Hd. apply skipn_all2. lia.
Qed.

Lemma has_key_exclusive k x y :
  key_ltb (sort_key x) (sort_key y) = true ->
  has_key k x = true -> has_key k y = true -> False.
Proof.
  unfold has_key. intros Hlt Hx Hy. apply key_ltb_lt in Hlt.
  destruct (key_compare (sort_key x) k) eqn:Ex; try discriminate.
  destruct (key_compare (sort_key y) k) eqn:Ey; try discriminate.
  apply key_compare_eq in Ex, Ey. rewrite Ex, Ey in Hlt.
  destruct k as [a b]. unfold key_compare in Hlt. simpl in Hlt.
  now rewrite !str_compare_refl in Hlt.
Qed.

Lemma insert_desc_stable k x l :
  filter (has_key k) (insert_desc sort_key x l) = filter (has_key k) (x :: l).
Proof.
  induction l as [|y l IH]; [reflexivity|]. cbn [insert_desc].
  destruct (key_ltb (sort_key x) (sort_key y)) eqn:E; [|reflexivity].
  cbn [filter] in *. rewrite IH.
  destruct (has_key k x) eqn:Hx, (has_key k y) eqn:Hy; try reflexivity.
  destruct (has_key_exclusive k x y E Hx Hy).
Qed.

Lemma sorted_reverse_stable k l :
  filter (has_key k) (sorted_reverse sort_key l) = filter (has_key k) l.
Proof.
  induction l as [|x l IH]; [reflexivity|]. cbn [sorted_reverse fold_right].
  fold (sorted_reverse sort_key l). rewrite insert_desc_stable.
  cbn [filter]. now rewrite IH.
Qed.

(** X12.  The sort is stable: the merged items that share a sort key
    come in the sorted sequence, of which [items] is the first 80, in
    the order in which they were first merged. *)
Theorem federal_register_sort_stable (rt : Runtime) :
  exists r sorted,
    fetch_federal_register = Return r
    /\ items r = firstn 80 sorted
    /\ forall k,
         filter (has_key k) sorted
         = filter (has_key k)
             (values (merge_terms FEEDS.federal_register.terms [])).
Proof.
  rewrite fetch_federal_register_closed. eexists. eexists.
  split; [reflexivity|]. cbn [items]. split; [reflexivity|].
  intros k. apply sorted_reverse_stable.
Qed.

(* ===================================================================== *)
(** * Beyond the specification: the parsers and the feed fetchers *)
(* ===================================================================== *)

Lemma rss_row_shape {rt : Runtime} (item : Element) (row : pydict) :
  rss_row item = Return row ->
  map fst row
  = map str [ "title"; "link"; "pub_date"; "guid"; "category";
              "description" ]%string
  /\ Forall (fun kv => exists s, snd kv = PyStr s) row
  /\ List.length (or_empty (get row (str "description"))) <= 700.
Proof.
  unfold rss_row.
  destruct (strip_tags (opt_or_empty (findtext (str "description") item)))
    as [t|e]; simpl; [|discriminate].
  intros [= <-]. split; [reflexivity|]. split.
  - repeat constructor; eexists; reflexivity.
  - match goal with
    | |- List.length ?v <= _ => change v with (firstn 700 t)
    end.
    apply firstn_le_length.
Qed.

Lemma rss_row_raises {rt : Runtime} (item : Element) (e : exn) :
  rss_row item = Raise e ->
  strip_tags (opt_or_empty (findtext (str "description") item)) = Raise e.
Proof.
  unfold rss_row.
  destruct (strip_tags (opt_or_empty (findtext (str "description") item)))
    as [t|e']; simpl; [discriminate|]. now intros [= <-].
Qed.

Lemma rss_row_returns {rt : Runtime} (item : Element) (t : pystr) :
  strip_tags (opt_or_empty (findtext (str "description") item)) = Return t ->
  exists row, rss_row item = Return row.
Proof. intros H. unfold rss_row. rewrite H. simpl. eauto. Qed.

Lemma append_rows_raise {rt : Runtime} items acc e :
  for_each append_row items acc = Raise e ->
  exists item, In item items /\ rss_row item = Raise e.
Proof.
  revert acc. induction items as [|item items IH]; intros acc; simpl;
    [discriminate|].
  unfold append_row at 1. destruct (rss_row item) as [row|e'] eqn:E; simpl.
  - intros H. destruct (IH _ H) as (i & Hi & Hr). exists i. split; auto.
  - intros [= <-]. exists item. split; [now left | exact E].
Qed.

(** X13.  When the document has a [channel], [parse_rss_items] goes
    through its [item] children in document order.  If it returns, it
    returns one row for each of them; a row has the six keys [title],
    [link], [pub_date], [guid], [category] and [description], each with
    a string for value (an absent element gives the empty string, never
    [None]), and the description has at most 700 characters.  It
    returns when [strip_tags] returns on the description of every item,
    and when it raises it raises what [strip_tags] raised on the
    description of one of them. *)
Theorem parse_rss_items_rows (rt : Runtime) (xml_text : pystr)
  (root channel : Element) :
  fromstring xml_text = Return root ->
  find_elem (str "channel") root = Some channel ->
  (forall rows,
     parse_rss_items xml_text = Return rows ->
     List.length rows = List.length (findall (str "item") channel)
     /\ Forall
          (fun row =>
             map fst row
             = map str [ "title"; "link"; "pub_date"; "guid"; "category";
                         "description" ]%string
             /\ Forall (fun kv => exists s, snd kv = PyStr s) row
             /\ List.length (or_empty (get row (str "description"))) <= 700)
          rows)
  /\ (Forall
        (fun item =>
           exists t,
             strip_tags (opt_or_empty (findtext (str "description") item))
             = Return t)
        (findall (str "item") channel) ->
      exists rows, parse_rss_items xml_text = Return rows)
  /\ (forall e,
        parse_rss_items xml_text = Raise e ->
        exists item,
          In item (findall (str "item") channel)
          /\ strip_tags (opt_or_empty (findtext (str "description") item))
             = Raise e).
Proof.
  intros Hx Hc. split; [|split].
  - intros rows H.
    destruct (parse_rss_items_inv _ _ H) as (root' & Hx' & Hcase).
    rewrite Hx in Hx'. injection Hx' as <-.
    destruct Hcase as [[Hn _]|(channel' & Hc' & Hrows)]; [congruence|].
    rewrite Hc in Hc'. injection Hc' as <-. split.
    + symmetry. exact (Forall2_length Hrows).
    + clear H. induction Hrows as [|item row items rows' Hrow _ IH];
        [constructor|].
      constructor; [exact (rss_row_shape _ _ Hrow) | exact IH].
  - intros Hall. unfold parse_rss_items. rewrite Hx. cbn [bind]. rewrite Hc.
    apply append_rows_total.
    eapply Forall_impl; [|exact Hall].
    intros item [t Ht]. exact (rss_row_returns _ _ Ht).
  - intros e. unfold parse_rss_items. rewrite Hx. cbn [bind]. rewrite Hc.
    intros H. destruct (append_rows_raise _ _ _ H) as (item & Hin & Hr).
    exists item. split; [exact Hin | exact (rss_row_raises _ _ Hr)].
Qed.

Lemma parse_rss_items_rows_demo :
  (exists rows,
     parse_rss_items (rt := Demo.quiet) [] = Return rows
     /\ List.length rows = 2)
  /\ (exists item,
        parse_rss_items (rt := Demo.overlong) []
        = Raise (int_limit_error 4301)
        /\ In item (findall (str "item") Demo.overlong_channel)
        /\ strip_tags (rt := Demo.overlong)
             (opt_or_empty (findtext (str "description") item))
           = Raise (int_limit_error 4301)).
Proof.
  split.
  - destruct (parse_rss_items_rows Demo.quiet [] Demo.quiet_rss
                (Elem (str "channel") [] None
                   [ Elem (str "item") [] None
                       [ Demo.leaf "title" "Weather report";
                         Demo.leaf "description" "Rain is expected" ];
                     Elem (str "item") [] None
                       [ Demo.leaf "title" "Sports results";
                         Demo.leaf "description" "The home team wins" ] ])
                eq_refl eq_refl) as (Hrows & Hret & _).
    destruct Hret as [rows Hr].
    { repeat constructor; eexists; vm_compute; reflexivity. }
    exists rows. split; [exact Hr|]. exact (proj1 (Hrows rows Hr)).
  - assert (E : parse_rss_items (rt := Demo.overlong) []
                = Raise (int_limit_error 4301)) by (vm_compute; reflexivity).
    destruct (parse_rss_items_rows Demo.overlong [] Demo.overlong_rss
                Demo.overlong_channel eq_refl eq_refl) as (_ & _ & Hraise).
    destruct (Hraise _ E) as (item & Hin & Hr).
    exists item. split; [exact E|]. split; [exact Hin | exact Hr].
Defined.

(** X14.  [parse_atom_entries] sees only the children of the root whose
    tag is [entry] in the Atom namespace: a document with no such child
    (an RSS document, or entries without the namespace) gives the empty
    list and no error. *)
Theorem parse_atom_entries_other_documents (rt : Runtime) (xml_text : pystr)
  (root : Element) :
  fromstring xml_text = Return root ->
  Forall (fun c => tag c <> atom "entry") (children root) ->
  parse_atom_entries xml_text = Return [].
Proof.
  intros Hx Hc. unfold parse_atom_entries. rewrite Hx. cbn [bind].
  unfold findall.
  assert (E : filter (fun c => str_eqb (tag c) (atom "entry")) (children root)
              = []).
  { induction Hc as [|c l Hn _ IH]; [reflexivity|]. simpl.
    destruct (str_eqb (tag c) (atom "entry")) eqn:E; [|exact IH].
    apply str_eqb_eq in E. contradiction. }
  now rewrite E.
Qed.

Lemma parse_atom_entries_other_documents_demo :
  parse_atom_entries (rt := Demo.with_xml Demo.quiet_rss) [] = Return []
  /\ parse_atom_entries
       (rt := Demo.with_xml
                (Elem (str "feed") [] None
                   [Elem (str "entry") [] None
                      [Demo.leaf "title" "Tariff notice"]])) []
     = Return [].
Proof.
  split.
  - apply (parse_atom_entries_other_documents
             (Demo.with_xml Demo.quiet_rss) [] Demo.quiet_rss eq_refl).
    repeat constructor. vm_compute. discriminate.
  - apply (parse_atom_entries_other_documents
             (Demo.with_xml
                (Elem (str "feed") [] None
                   [Elem (str "entry") [] None
                      [Demo.leaf "title" "Tariff notice"]])) []
             (Elem (str "feed") [] None
                [Elem (str "entry") [] None
                   [Demo.leaf "title" "Tariff notice"]]) eq_refl).
    repeat constructor. vm_compute. discriminate.
Defined.

Lemma Forall_firstn_filter {A : Type} (f : A -> bool) n (l : list A) :
  Forall (fun x => f x = true) (firstn n (filter f l)).
Proof.
  apply Forall_forall. intros x Hx.
  assert (H : In x (filter f l)).
  { rewrite <- (firstn_skipn n (filter f l)). apply in_or_app. now left. }
  now apply filter_In in H.
Qed.

Lemma incl_firstn_filter {A : Type} (f : A -> bool) n (l : list A) :
  incl (firstn n (filter f l)) l.
Proof.
  intros x Hx.
  assert (H : In x (filter f l)).
  { rewrite <- (firstn_skipn n (filter f l)). apply in_or_app. now left. }
  now apply filter_In in H.
Qed.

(** X15.  The strict fetchers never return an item their filter does not
    accept: every item of the [cbp_csms] and of the [uk_dbt] result
    passes the relevance test of its fetcher. *)
Theorem strict_sources_only_relevant (rt : Runtime) :
  (exists r,
     fetch_cbp_csms = Return r
     /\ Forall (fun i => cbp_relevant i = true) (items r))
  /\ (exists r,
        fetch_uk_feed = Return r
        /\ Forall (fun i => uk_relevant i = true) (items r)).
Proof.
  split.
  - rewrite fetch_cbp_csms_unfold. cbn zeta.
    destruct (fetch_text FEEDS.cbp_csms.url) as [x|e];
      [destruct (parse_rss_items x) as [rows|e]|];
      eexists; (split; [reflexivity|]); cbn [items set_items append_error new_result];
      first [apply Forall_firstn_filter | constructor].
  - rewrite fetch_uk_feed_unfold. cbn zeta.
    destruct (fetch_text FEEDS.uk_dbt.url) as [x|e];
      [destruct (parse_atom_entries x) as [rows|e]|];
      eexists; (split; [reflexivity|]); cbn [items set_items append_error new_result];
      first [apply Forall_firstn_filter | constructor].
Qed.

Lemma fallback_not_mixed {A : Type} (f : A -> bool) n (rows : list A) :
  let chosen := match filter f rows with [] => rows | _ :: _ => filter f rows end in
  forallb f (firstn n chosen) = true \/ existsb f (firstn n chosen) = false.
Proof.
  cbn zeta. destruct (filter f rows) as [|a l] eqn:E.
  - right. destruct (existsb f (firstn n rows)) eqn:Ex; [|reflexivity].
    apply existsb_exists in Ex as (x & Hx & Hf).
    assert (Hin : In x (filter f rows)).
    { apply filter_In. split; [|exact Hf].
      rewrite <- (firstn_skipn n rows). apply in_or_app. now left. }
    rewrite E in Hin. destruct Hin.
  - left. rewrite <- E. apply forallb_forall.
    apply Forall_forall, Forall_firstn_filter.
Qed.

(** X16.  The fallback is all or nothing: the items of the
    [eu_commission] result, and those of [china_mofcom], either all
    pass the relevance test of the fetcher or all fail it; relevant and
    irrelevant rows are never returned together. *)
Theorem fallback_all_or_nothing (rt : Runtime) :
  (exists r,
     fetch_eu_feed = Return r
     /\ (forallb eu_relevant (items r) = true
         \/ existsb eu_relevant (items r) = false))
  /\ (exists r,
        fetch_china_mofcom = Return r
        /\ (forallb mofcom_relevant (items r) = true
            \/ existsb mofcom_relevant (items r) = false)).
Proof.
  split.
  - rewrite fetch_eu_feed_unfold. cbn zeta.
    destruct (fetch_text FEEDS.eu_commission.url) as [x|e];
      [destruct (parse_rss_items x) as [rows|e]|];
      eexists; (split; [reflexivity|]);
      cbn [items set_items append_error new_result];
      first [apply fallback_not_mixed | now left].
  - rewrite fetch_china_mofcom_unfold. cbn zeta.
    destruct (fetch_text FEEDS.china_mofcom.url) as [html|e];
      [destruct (mofcom_rows html) as [rows|e]|];
      eexists; (split; [reflexivity|]);
      cbn [items set_items append_error new_result];
      first [ apply fallback_not_mixed
            | cbn [forallb existsb];
              destruct (mofcom_relevant mofcom_placeholder);
              [now left | now right] ].
Qed.

(** X17.  A fetcher of one request reports at most one error, and an
    error excludes real items: for [cbp_csms], [eu_commission] and
    [uk_dbt] the result has no error, or one error and no item; for
    [china_mofcom] no error, or one error and the placeholder alone;
    for [canada_finance] no error and one item, or one error and no
    item. *)
Theorem one_error_or_items (rt : Runtime) :
  (exists r,
     fetch_cbp_csms = Return r
     /\ (errors r = [] \/ (List.length (errors r) = 1 /\ items r = [])))
  /\ (exists r,
        fetch_eu_feed = Return r
        /\ (errors r = [] \/ (List.length (errors r) = 1 /\ items r = [])))
  /\ (exists r,
        fetch_uk_feed = Return r
        /\ (errors r = [] \/ (List.length (errors r) = 1 /\ items r = [])))
  /\ (exists r,
        fetch_china_mofcom = Return r
        /\ (errors r = []
            \/ (List.length (errors r) = 1
                /\ items r = [mofcom_placeholder])))
  /\ (exists r,
        fetch_canada_page = Return r
        /\ ((errors r = [] /\ List.length (items r) = 1)
            \/ (List.length (errors r) = 1 /\ items r = []))).
Proof.
  split; [|split; [|split; [|split]]].
  - rewrite fetch_cbp_csms_unfold. cbn zeta.
    destruct (fetch_text FEEDS.cbp_csms.url) as [x|e];
      [destruct (parse_rss_items x) as [rows|e]|];
      eexists; (split; [reflexivity|]); simpl; auto.
  - rewrite fetch_eu_feed_unfold. cbn zeta.
    destruct (fetch_text FEEDS.eu_commission.url) as [x|e];
      [destruct (parse_rss_items x) as [rows|e]|];
      eexists; (split; [reflexivity|]);
      cbn [items errors set_items append_error new_result app List.length];
      auto.
  - rewrite fetch_uk_feed_unfold. cbn zeta.
    destruct (fetch_text FEEDS.uk_dbt.url) as [x|e];
      [destruct (parse_atom_entries x) as [rows|e]|];
      eexists; (split; [reflexivity|]);
      cbn [items errors set_items append_error new_result app List.length];
      auto.
  - rewrite fetch_china_mofcom_unfold. cbn zeta.
    destruct (fetch_text FEEDS.china_mofcom.url) as [html|e];
      [destruct (mofcom_rows html) as [rows|e]|];
      eexists; (split; [reflexivity|]);
      cbn [items errors set_items append_error new_result app List.length];
      auto.
  - rewrite fetch_canada_page_unfold. cbn zeta.
    destruct (fetch_text FEEDS.canada_finance.url) as [html|e];
      [destruct (strip_tags html) as [text|e]|];
      eexists; (split; [reflexivity|]);
      cbn [items errors set_items set_modified append_error new_result app
           List.length]; auto.
Qed.

(* ===================================================================== *)
(** * Beyond the specification: the MOFCOM and Canada pages *)
(* ===================================================================== *)

(** [re.search] returns the leftmost match. *)
Lemma re_search_spec {G : Type} (m : pystr -> option (G * nat)) s g :
  re_search m s = Some g ->
  exists a b n,
    s = a ++ b /\ m b = Some (g, n)
    /\ forall a' b', s = a' ++ b' -> List.length a' < List.length a ->
                     m b' = None.
Proof.
  induction s as [|c s IH]; simpl.
  - destruct (m []) as [[g' n]|] eqn:E; [|discriminate].
    intros H. injection H as ->. exists [], [], n.
    split; [reflexivity|]. split; [exact E|]. simpl. intros; lia.
  - destruct (m (c :: s)) as [[g' n]|] eqn:E.
    + intros H. injection H as ->. exists [], (c :: s), n.
      split; [reflexivity|]. split; [exact E|]. simpl. intros; lia.
    + intros H. destruct (IH H) as (a & b & n & -> & Hb & Hfirst).
      exists (c :: a), b, n. split; [reflexivity|]. split; [exact Hb|].
      intros a' b' Eab Hlen. destruct a' as [|x a'].
      * simpl in Eab. now rewrite <- Eab.
      * injection Eab as _ Eab. apply (Hfirst a' b' Eab). simpl in Hlen. lia.
Qed.

Lemma re_search_none {G : Type} (m : pystr -> option (G * nat)) s :
  re_search m s = None -> forall a b, s = a ++ b -> m b = None.
Proof.
  induction s as [|c s IH]; simpl.
  - destruct (m []) as [[g' n]|] eqn:E; [discriminate|].
    intros _ a b H. symmetry in H. apply app_eq_nil in H as [_ ->]. exact E.
  - destruct (m (c :: s)) as [[g' n]|] eqn:E; [discriminate|].
    intros H a b Eab. destruct a as [|x a].
    + simpl in Eab. now rewrite <- Eab.
    + injection Eab as _ Eab. exact (IH H a b Eab).
Qed.

Lemma findall_from_length {G : Type} (m : pystr -> option (G * nat)) k s :
  List.length (findall_from m k s) <= List.length s.
Proof.
  revert k. induction s as [|c s IH]; intros k; simpl; [lia|].
  destruct k as [|k]; [|specialize (IH k); lia].
  destruct (m (c :: s)) as [[g [|n]]|]; simpl;
    [specialize (IH 0) | specialize (IH n) | specialize (IH 0)]; lia.
Qed.

Section Mofcom.
Context {rt : Runtime}.

Lemma match_year_spec b y n : match_year b = Some (y, n) -> year_at b y.
Proof.
  unfold match_year, year_at.
  destruct (startswith (str "/art/") b) eqn:E; [|discriminate].
  apply startswith_spec in E as [b' ->].
  change (skipn 5 (str "/art/" ++ b')) with b'.
  destruct b' as [|d1 [|d2 [|d3 [|d4 [|c rest]]]]]; try discriminate.
  destruct (N.eqb_spec c 47) as [->|Hc].
  - destruct (isdecimal d1 && isdecimal d2 && isdecimal d3 && isdecimal d4)
      eqn:Ed; [|discriminate].
    intros H. injection H as <- _. split; [reflexivity|].
    split; [simpl; now rewrite andb_true_r, !andb_assoc | now exists rest].
  - destruct c as [|p]; [discriminate|].
    do 6 (destruct p as [p|p|]; try discriminate). congruence.
Qed.

Lemma match_year_none b : match_year b = None -> forall y, ~ year_at b y.
Proof.
  intros H y (Hlen & Hd & rest & ->).
  destruct y as [|d1 [|d2 [|d3 [|d4 [|d5 y]]]]]; try discriminate Hlen.
  unfold match_year in H.
  assert (E : startswith (str "/art/")
                (str "/art/" ++ [d1; d2; d3; d4] ++ 47%N :: rest) = true)
    by (apply startswith_spec; eauto).
  rewrite E in H.
  change (skipn 5 (str "/art/" ++ [d1; d2; d3; d4] ++ 47%N :: rest))
    with (d1 :: d2 :: d3 :: d4 :: 47%N :: rest) in H.
  cbn [forallb] in Hd. rewrite andb_true_r, !andb_assoc in Hd.
  cbv iota beta in H. rewrite Hd in H. discriminate H.
Qed.

Lemma year_of_search full :
  year_of full
    match re_search match_year full with Some y => y | None => [] end.
Proof.
  destruct (re_search match_year full) as [y|] eqn:E.
  - left. apply re_search_spec in E as (a & b & n & Eab & Hb & Hfirst).
    exists a, b. split; [exact Eab|]. split; [exact (match_year_spec _ _ _ Hb)|].
    intros a' b' y' Eab' Hlen. apply match_year_none.
    exact (Hfirst a' b' Eab' Hlen).
  - right. split; [reflexivity|]. intros a b y' Eab.
    apply match_year_none. exact (re_search_none _ _ E a b Eab).
Qed.

Lemma scrape_anchor_inv anchors bound st m st' :
  In m anchors -> scrape_ok anchors bound st ->
  scrape_anchor st m = Return st' ->
  scrape_ok anchors (S bound) st'.
Proof.
  destruct st as [rows seen]. intros Hm (Hl & Hn & Hf & Hb).
  cbn [fst snd] in *. destruct m as [href title]. unfold scrape_anchor.
  set (full := if startswith (str "http") href then href
               else str "https://english.mofcom.gov.cn" ++ href).
  destruct (existsb (str_eqb full) seen) eqn:Es.
  - intros [= <-]. repeat split; cbn [fst snd]; try assumption. lia.
  - destruct (unescape title) as [u|e] eqn:Eu; simpl; [|discriminate].
    intros [= <-]. split; [|split; [|split]]; cbn [fst snd].
    + rewrite map_app, Hl. cbn [rev map]. now rewrite map_app.
    + constructor; [|exact Hn]. intros Hin.
      assert (E : existsb (str_eqb full) seen = true).
      { apply existsb_exists. exists full. split; [exact Hin|].
        apply str_eqb_refl. }
      congruence.
    + apply Forall_app. split; [exact Hf|]. constructor; [|constructor].
      exists (href, title). split; [exact Hm|].
      split; [reflexivity|]. split; [exists u; now split|].
      split; [reflexivity|].
      exists full, match re_search match_year full with
                   | Some y => y
                   | None => []
                   end.
      cbn [fst snd]. split; [reflexivity|]. split; [reflexivity|]. split.
      * unfold full. destruct (startswith (str "http") href) eqn:Eh;
          [exact Eh | reflexivity].
      * split; [reflexivity | apply year_of_search].
    + rewrite length_app. simpl. lia.
Qed.

Lemma scrape_anchors_inv all anchors bound st st' :
  incl anchors all -> scrape_ok all bound st ->
  for_each scrape_anchor anchors st = Return st' ->
  scrape_ok all (bound + List.length anchors) st'.
Proof.
  revert bound st. induction anchors as [|m anchors IH]; intros bound st Hi Hs.
  - simpl. intros [= <-]. now rewrite Nat.add_0_r.
  - simpl. destruct (scrape_anchor st m) as [st1|e] eqn:E; simpl;
      [|discriminate].
    intros H.
    assert (H1 : scrape_ok all (S bound) st1).
    { apply (scrape_anchor_inv all bound st m st1); auto. apply Hi. now left. }
    replace (bound + S (List.length anchors))
      with (S bound + List.length anchors) by lia.
    apply (IH (S bound) st1); auto. intros x Hx. apply Hi. now right.
Qed.

Lemma mofcom_rows_inv html rows :
  mofcom_rows html = Return rows ->
  NoDup (map link_of rows)
  /\ Forall
       (fun r =>
          exists m, In m (re_findall match_anchor html) /\ mofcom_row_of m r)
       rows
  /\ List.length rows <= List.length (re_findall match_anchor html).
Proof.
  unfold mofcom_rows.
  destruct (for_each scrape_anchor (re_findall match_anchor html) ([], []))
    as [st|e] eqn:E; simpl; [|discriminate].
  intros [= <-].
  destruct (scrape_anchors_inv (re_findall match_anchor html)
              (re_findall match_anchor html) 0 ([], []) st (incl_refl _))
    as (H1 & H2 & H3 & H4); [|exact E|].
  { repeat split; simpl; constructor. }
  split; [|split; [exact H3 | exact H4]].
  rewrite H1. apply NoDup_rev in H2. revert H2.
  generalize (rev (snd st)).
  intros l. induction 1 as [|x l Hx Hl IH]; simpl; constructor; [|exact IH].
  intros Hin. apply in_map_iff in Hin as (y & E' & Hy).
  injection E' as ->. contradiction.
Qed.

(** The scraping loop raises only what [unescape] raises on the title
    of one of the anchors, and returns when [unescape] returns on all
    of them. *)
Lemma scrape_anchor_raises st m e :
  scrape_anchor st m = Raise e -> unescape (snd m) = Raise e.
Proof.
  destruct st as [rows seen], m as [href title]. unfold scrape_anchor.
  cbn [snd]. destruct (existsb _ seen); [discriminate|].
  destruct (unescape title) as [u|e']; simpl; [discriminate|].
  now intros [= <-].
Qed.

Lemma mofcom_rows_raises html e :
  mofcom_rows html = Raise e ->
  exists m, In m (re_findall match_anchor html) /\ unescape (snd m) = Raise e.
Proof.
  unfold mofcom_rows. generalize (@nil pydict, @nil pystr).
  induction (re_findall match_anchor html) as [|m l IH]; intros st; simpl;
    [discriminate|].
  destruct (scrape_anchor st m) as [st1|e'] eqn:E; simpl.
  - intros H. destruct (IH st1 H) as (m' & Hin & Hr). exists m'. auto.
  - intros [= <-]. exists m. split; [now left|].
    exact (scrape_anchor_raises _ _ _ E).
Qed.

Lemma mofcom_rows_returns html :
  Forall (fun m => exists u, unescape (snd m) = Return u)
    (re_findall match_anchor html) ->
  exists rows, mofcom_rows html = Return rows.
Proof.
  intros H. destruct (mofcom_rows html) as [rows|e] eqn:E; [eauto|].
  destruct (mofcom_rows_raises _ _ E) as (m & Hin & Hr).
  rewrite Forall_forall in H. destruct (H m Hin) as [u Hu]. congruence.
Qed.
End Mofcom.

Lemma NoDup_map_filter {A B : Type} (f : A -> B) (g : A -> bool) l :
  NoDup (map f l) -> NoDup (map f (filter g l)).
Proof.
  induction l as [|x l IH]; [easy|]. simpl. intros H.
  apply NoDup_cons_iff in H as [Hx Hl].
  destruct (g x); [|now apply IH]. simpl. constructor; [|now apply IH].
  intros Hin. apply Hx. apply in_map_iff in Hin as (y & E & Hy).
  apply filter_In in Hy as [Hy _]. apply in_map_iff. eauto.
Qed.

Lemma NoDup_map_firstn {A B : Type} (f : A -> B) n l :
  NoDup (map f l) -> NoDup (map f (firstn n l)).
Proof.
  intros H. rewrite <- (firstn_skipn n l), map_app in H.
  exact (NoDup_app_remove_r _ _ H).
Qed.

(** X18.  No two items of the [china_mofcom] result have the same link:
    an anchor whose resolved URL was seen before adds no row, so the
    page yields at most one row for each anchor matched and each URL.
    (The scraping loop returns these rows unless [unescape] raises on
    the title of an anchor.) *)
Theorem china_mofcom_distinct_links (rt : Runtime) :
  (exists r,
     fetch_china_mofcom = Return r /\ NoDup (map link_of (items r)))
  /\ (forall html,
        match mofcom_rows html with
        | Return rows =>
            NoDup (map link_of rows)
            /\ List.length rows <= List.length (re_findall match_anchor html)
        | Raise e =>
            exists m,
              In m (re_findall match_anchor html)
              /\ unescape (snd m) = Raise e
        end
        /\ List.length (re_findall match_anchor html) <= List.length html).
Proof.
  split.
  - rewrite fetch_china_mofcom_unfold. cbn zeta.
    destruct (fetch_text FEEDS.china_mofcom.url) as [html|e];
      [destruct (mofcom_rows html) as [rows|e] eqn:Er|];
      eexists; (split; [reflexivity|]);
      cbn [items set_items append_error new_result];
      try (repeat constructor; easy).
    destruct (mofcom_rows_inv html rows Er) as (Hn & _ & _).
    apply NoDup_map_firstn.
    destruct (filter mofcom_relevant rows) eqn:E; [exact Hn|].
    rewrite <- E. now apply NoDup_map_filter.
  - intros html. split; [|apply findall_from_length].
    destruct (mofcom_rows html) as [rows|e] eqn:Er;
      [|exact (mofcom_rows_raises _ _ Er)].
    destruct (mofcom_rows_inv html rows Er) as (Hn & _ & Hl). now split.
Qed.

(** X19.  Every row scraped from the MOFCOM page is the row of one of
    the anchors matched on the page: it has the keys [title], [link],
    [pub_date] and [description]; its title is the unescaped and
    normalized title of the anchor; its link is the address of the
    anchor, made absolute by prefixing the site unless it starts with
    [http]; its [pub_date] is the four decimal digits of the leftmost
    [/art/dddd/] of the link, and empty exactly when the link has no
    such segment; its description is the fixed text.  The loop raises
    only what [unescape] raises on a title, and returns when [unescape]
    returns on every title. *)
Theorem mofcom_rows_shape (rt : Runtime) (html : pystr) :
  (forall rows,
     mofcom_rows html = Return rows ->
     Forall
       (fun r =>
          exists m,
            In m (re_findall match_anchor html) /\ mofcom_row_of m r)
       rows)
  /\ (forall e,
        mofcom_rows html = Raise e ->
        exists m,
          In m (re_findall match_anchor html)
          /\ unescape (snd m) = Raise e)
  /\ (Forall (fun m => exists u, unescape (snd m) = Return u)
        (re_findall match_anchor html) ->
      exists rows, mofcom_rows html = Return rows)
  /\ (forall b y1 y2, year_at b y1 -> year_at b y2 -> y1 = y2).
Proof.
  split; [|split; [|split]].
  - intros rows H. apply (mofcom_rows_inv html rows H).
  - apply mofcom_rows_raises.
  - apply mofcom_rows_returns.
  - intros b y1 y2 (L1 & _ & r1 & E1) (L2 & _ & r2 & E2). rewrite E1 in E2.
    apply app_inv_head in E2.
    destruct y1 as [|a1 [|a2 [|a3 [|a4 [|a5 y1]]]]]; try discriminate L1.
    destruct y2 as [|c1 [|c2 [|c3 [|c4 [|c5 y2]]]]]; try discriminate L2.
    simpl in E2. congruence.
Qed.

Lemma mofcom_rows_shape_demo :
  (exists row,
     mofcom_rows (rt := Demo.quiet) two_years_page = Return [row]
     /\ row
        = [ (str "title", PyStr (str "Remarks & answers"));
            (str "link",
             PyStr
               (str "https://english.mofcom.gov.cn/News/SpokesmansRemarks/art/2024/x/art/2025/y.html"));
            (str "pub_date", PyStr (str "2024"));
            (str "description",
             PyStr (str "MOFCOM spokesperson remarks entry")) ]
     /\ exists m,
          In m (re_findall match_anchor two_years_page)
          /\ mofcom_row_of (rt := Demo.quiet) m row)
  /\ (exists m,
        mofcom_rows (rt := Demo.overlong) Demo.overlong_page
        = Raise (int_limit_error 4301)
        /\ In m (re_findall match_anchor Demo.overlong_page)
        /\ unescape (rt := Demo.overlong) (snd m)
           = Raise (int_limit_error 4301)).
Proof.
  split.
  - destruct (mofcom_rows_shape Demo.quiet two_years_page) as (Hrows & _).
    eexists. split; [vm_compute; reflexivity|]. split; [reflexivity|].
    pose proof (Hrows _ eq_refl) as H.
    apply Forall_inv in H. exact H.
  - destruct (mofcom_rows_shape Demo.overlong Demo.overlong_page)
      as (_ & Hraise & _).
    assert (E : mofcom_rows (rt := Demo.overlong) Demo.overlong_page
                = Raise (int_limit_error 4301)) by (vm_compute; reflexivity).
    destruct (Hraise _ E) as (m & Hin & Hr).
    exists m. split; [exact E|]. split; [exact Hin | exact Hr].
Defined.

Lemma slice_length i j (s : pystr) : List.length (slice i j s) <= j - i.
Proof.
  unfold slice. rewrite length_skipn, length_firstn. lia.
Qed.

(** [str.find] returns the lowest index. *)
Lemma find_first p s i : find p s = Some i -> first_occurrence p s i.
Proof.
  intros H. split.
  - pose proof (find_spec p s) as Hs. now rewrite H in Hs.
  - revert i H. induction s as [|c s IH]; intros i; simpl.
    + destruct (startswith p []); [|discriminate].
      intros [= <-] a b _. lia.
    + destruct (startswith p (c :: s)) eqn:E.
      * intros [= <-] a b _. lia.
      * destruct (find p s) as [j|]; [|discriminate].
        intros [= <-] a b Eab. destruct a as [|x a].
        -- assert (E' : startswith p (c :: s) = true)
             by (apply startswith_spec; exists b; exact Eab).
           congruence.
        -- injection Eab as _ Eab. specialize (IH j eq_refl a b Eab).
           simpl. lia.
Qed.

(** X20.  The snippets cut from the Canada page are those of the four
    markers in their order, one for each marker that occurs and none
    for a marker that does not.  The snippet of a marker is the slice
    of the tag-stripped text that starts 120 characters before the
    first occurrence of the lower-cased marker in the lower-cased text
    (at the start of the text when there are fewer) and ends 260
    characters after the start of that occurrence; it has at most 380
    characters. *)
Theorem canada_snippets_bounds (rt : Runtime) (text : pystr) :
  exists per,
    Forall2 (marker_snippet text) canada_markers per
    /\ canada_snippets text = List.concat per
    /\ List.length (canada_snippets text) <= 4
    /\ Forall (fun s => List.length s <= 380) (canada_snippets text).
Proof.
  unfold canada_snippets.
  set (f := fun marker =>
              match find (str_lower marker) (str_lower text) with
              | Some idx => [slice (idx - 120) (idx + 260) text]
              | None => []
              end).
  assert (Hf : forall m, marker_snippet text m (f m)
                         /\ List.length (f m) <= 1
                         /\ Forall (fun s => List.length s <= 380) (f m)).
  { intros m. unfold f, marker_snippet.
    pose proof (find_spec (str_lower m) (str_lower text)) as Hs.
    destruct (find (str_lower m) (str_lower text)) as [idx|] eqn:E.
    - split; [left; exists idx; split; [now apply find_first | reflexivity]|].
      split; [simpl; lia|]. constructor; [|constructor].
      pose proof (slice_length (idx - 120) (idx + 260) text). lia.
    - split; [right; now split|]. split; [simpl; lia | constructor]. }
  exists (map f canada_markers). split; [|split; [|split]].
  - induction canada_markers as [|m ms IH]; simpl; constructor;
      [apply Hf | exact IH].
  - apply flat_map_concat_map.
  - assert (H : forall ms, List.length (flat_map f ms) <= List.length ms).
    { induction ms as [|m ms IH]; [simpl; lia|]. cbn [flat_map].
      rewrite length_app. destruct (Hf m) as (_ & H1 & _). simpl. lia. }
    exact (H canada_markers).
  - induction canada_markers as [|m ms IH]; [constructor|]. cbn [flat_map].
    apply Forall_app. split; [apply Hf | exact IH].
Qed.

Lemma canada_snippets_bounds_demo :
  canada_snippets (rt := Demo.offline)
    (str "Notice. Canada REMOVED counter tariffs on some goods.")
  = [str "Notice. Canada REMOVED counter tariffs on some goods."]
  /\ first_occurrence
       (str_lower (Runtime := Demo.offline) (str "removed counter tariffs"))
       (str_lower (Runtime := Demo.offline)
          (str "Notice. Canada REMOVED counter tariffs on some goods."))
       15
  /\ canada_snippets (rt := Demo.offline) (str "Nothing about the matter")
     = []
  /\ exists per,
       Forall2
         (marker_snippet (rt := Demo.offline)
            (str "Notice. Canada REMOVED counter tariffs on some goods."))
         canada_markers per
       /\ canada_snippets (rt := Demo.offline)
            (str "Notice. Canada REMOVED counter tariffs on some goods.")
          = List.concat per.
Proof.
  split; [vm_compute; reflexivity|].
  split; [apply find_first; vm_compute; reflexivity|].
  split; [vm_compute; reflexivity|].
  destruct (canada_snippets_bounds Demo.offline
              (str "Notice. Canada REMOVED counter tariffs on some goods."))
    as (per & Hper & Hcat & _).
  exists per. split; [exact Hper | exact Hcat].
Defined.

(** X21.  When the Canada page is retrieved and [strip_tags] returns on
    it, the result has no error and exactly one item: its link is the
    page's URL, its [pub_date] is the [dcterms.modified] date found in
    the page, which is also stored in the result, or the empty string
    when none is found, and its description has at most 900 characters.
    When the page is retrieved and [strip_tags] raises on it, the
    result has the message as its one error and no item, and
    [dcterms_modified] holds what was found in the page, stored before
    the failure.  When retrieval fails, the result has the message as
    its one error, no item, and [None] for [dcterms_modified]. *)
Theorem canada_page_result (rt : Runtime) :
  (forall html text,
     fetch_text FEEDS.canada_finance.url = Return html ->
     strip_tags html = Return text ->
     exists r item,
       fetch_canada_page = Return r
       /\ errors r = []
       /\ items r = [item]
       /\ get item (str "link") = PyStr FEEDS.canada_finance.url
       /\ dcterms_modified r
          = Some match re_search match_meta html with
                 | Some g => PyStr g
                 | None => PyNone
                 end
       /\ get item (str "pub_date")
          = PyStr match re_search match_meta html with
                  | Some g => g
                  | None => []
                  end
       /\ List.length (or_empty (get item (str "description"))) <= 900)
  /\ (forall html e,
        fetch_text FEEDS.canada_finance.url = Return html ->
        strip_tags html = Raise e ->
        exists r,
          fetch_canada_page = Return r
          /\ errors r = [exc_str e]
          /\ items r = []
          /\ dcterms_modified r
             = Some match re_search match_meta html with
                    | Some g => PyStr g
                    | None => PyNone
                    end)
  /\ (forall e,
        fetch_text FEEDS.canada_finance.url = Raise e ->
        exists r,
          fetch_canada_page = Return r
          /\ errors r = [exc_str e]
          /\ items r = []
          /\ dcterms_modified r = Some PyNone).
Proof.
  split; [|split].
  - intros html text Hf Hs. rewrite fetch_canada_page_unfold. cbv zeta.
    rewrite Hf, Hs.
    eexists. eexists. split; [reflexivity|].
    cbn [items errors dcterms_modified set_items set_modified new_result].
    split; [reflexivity|]. split; [reflexivity|]. split; [reflexivity|].
    split; [reflexivity|]. split.
    + destruct (re_search match_meta html); reflexivity.
    + match goal with
      | |- List.length (or_empty (get ?item _)) <= _ =>
          change (get item (str "description"))
            with (PyStr
                    match canada_snippets text with
                    | [] =>
                        str "Official policy page for Canada's tariff response."
                    | _ :: _ =>
                        firstn 900
                          (normalize_ws
                             (join (str " | ") (canada_snippets text)))
                    end)
      end.
      destruct (canada_snippets text); [vm_compute; lia|].
      apply firstn_le_length.
  - intros html e Hf Hs. rewrite fetch_canada_page_unfold. cbv zeta.
    rewrite Hf, Hs. eexists. repeat split.
  - intros e Hf. rewrite fetch_canada_page_unfold. cbv zeta. rewrite Hf.
    eexists. repeat split.
Qed.

Lemma canada_page_result_demo :
  (exists r item,
     fetch_canada_page (rt := canada_runtime) = Return r
     /\ errors r = []
     /\ items r = [item]
     /\ dcterms_modified r = Some (PyStr (str "2025-09-01"))
     /\ get item (str "pub_date") = PyStr (str "2025-09-01")
     /\ get item (str "description")
        = PyStr (str "Canada removed counter tariffs on some goods."))
  /\ (exists r,
        fetch_canada_page (rt := Demo.overlong) = Return r
        /\ errors r = [exc_str (int_limit_error 4301)]
        /\ items r = []
        /\ dcterms_modified r = Some (PyStr (str "2025-09-01")))
  /\ (exists r,
        fetch_canada_page (rt := Demo.offline) = Return r
        /\ errors r = [str "timed out"]
        /\ items r = []
        /\ dcterms_modified r = Some PyNone).
Proof.
  destruct (canada_page_result canada_runtime) as (Hok & _ & _).
  destruct (canada_page_result Demo.overlong) as (_ & Hstrip & _).
  destruct (canada_page_result Demo.offline) as (_ & _ & Hfail).
  split; [|split].
  - destruct (Hok canada_page
                (str "Canada removed counter tariffs on some goods.")
                eq_refl eq_refl)
      as (r & item & Hr & He & Hi & _ & Hm & Hp & _).
    exists r, item. split; [exact Hr|]. split; [exact He|].
    split; [exact Hi|]. split; [rewrite Hm; reflexivity|].
    split; [rewrite Hp; reflexivity|].
    assert (E : fetch_canada_page (rt := canada_runtime)
                = Return r) by exact Hr.
    vm_compute in E. injection E as <-. injection Hi as <-.
    vm_compute. reflexivity.
  - assert (Es : strip_tags (rt := Demo.overlong) Demo.overlong_page
                 = Raise (int_limit_error 4301)) by (vm_compute; reflexivity).
    destruct (Hstrip Demo.overlong_page (int_limit_error 4301) eq_refl Es)
      as (r & Hr & He & Hi & Hm).
    exists r. split; [exact Hr|]. split; [exact He|]. split; [exact Hi|].
    rewrite Hm. vm_compute. reflexivity.
  - exact (Hfail (Exn (str "timed out")) eq_refl).
Defined.

Lemma takewhile_all (p : N -> bool) (s : pystr) :
  forallb p (takewhile p s) = true.
Proof.
  induction s as [|c r IH]; [reflexivity|]. simpl.
  destruct (p c) eqn:E; [simpl; now rewrite E | reflexivity].
Qed.

Lemma findall_from_spec {G : Type} (m : pystr -> option (G * nat)) k s g :
  In g (findall_from m k s) ->
  exists a b n, s = a ++ b /\ m b = Some (g, n).
Proof.
  revert k. induction s as [|c s IH]; intros k; simpl; [easy|].
  destruct k as [|k].
  - destruct (m (c :: s)) as [[g' [|n]]|] eqn:E.
    + intros H. destruct (IH _ H) as (a & b & n & -> & Hb).
      exists (c :: a), b, n. now split.
    + intros [<-|H].
      * exists [], (c :: s), (S n). now split.
      * destruct (IH _ H) as (a & b & n' & -> & Hb).
        exists (c :: a), b, n'. now split.
    + intros H. destruct (IH _ H) as (a & b & n & -> & Hb).
      exists (c :: a), b, n. now split.
  - intros H. destruct (IH _ H) as (a & b & n & -> & Hb).
    exists (c :: a), b, n. now split.
Qed.

Lemma quote_cases (q : N) :
  q = 34%N
  \/ forall (A : Type) (x y : A),
       match q with 34%N => x | _ => y end = y.
Proof.
  destruct q as [|p]; [now right|].
  destruct p as [p|p|]; [now right| |now right].
  destruct p as [p|p|]; [|now right|now right].
  destruct p as [p|p|]; [now right| |now right].
  destruct p as [p|p|]; [now right| |now right].
  destruct p as [p|p|]; [now right| |now right].
  destruct p as [p|p|]; [now right|now right|now left].
Qed.

Lemma attr_here_spec lit s g n :
  (if ci_startswith lit s then
     let g0 := takewhile not_quote (skipn (List.length lit) s) in
     match g0, skipn (List.length lit + List.length g0) s with
     | _ :: _, 34%N :: _ => Some (g0, List.length lit + List.length g0 + 1)
     | _, _ => None
     end
   else None) = Some (g, n) ->
  g <> [] /\ forallb not_quote g = true.
Proof.
  destruct (ci_startswith lit s); [|discriminate]. cbn zeta.
  pose proof (takewhile_all not_quote (skipn (List.length lit) s)) as Ha.
  destruct (takewhile not_quote (skipn (List.length lit) s)) as [|x tw];
    [discriminate|].
  destruct (skipn (List.length lit + List.length (x :: tw)) s) as [|q rest];
    [discriminate|].
  destruct (quote_cases q) as [->|Hq]; [|rewrite Hq; discriminate].
  intros H. injection H as <- _. split; [discriminate | exact Ha].
Qed.

Lemma match_attr_spec lit s g n :
  match_attr lit s = Some (g, n) -> g <> [] /\ forallb not_quote g = true.
Proof.
  revert n. induction s as [|c s IH]; intros n.
  - cbn [match_attr]. exact (attr_here_spec lit [] g n).
  - cbn [match_attr]. destruct (c =? 62)%N;
      [exact (attr_here_spec lit (c :: s) g n)|].
    destruct (match_attr lit s) as [[g' n']|] eqn:Em;
      [|exact (attr_here_spec lit (c :: s) g n)].
    intros H. injection H as <- _. exact (IH n' eq_refl).
Qed.

(** X22.  Every anchor taken from the MOFCOM page has an address
    without a double quote in which the path [/News/SpokesmansRemarks/]
    occurs, in any letter case, with at least one character after it,
    and a title that is not empty and holds no double quote. *)
Theorem anchors_captured (html : pystr) :
  Forall
    (fun anchor =>
       forallb not_quote (fst anchor) = true
       /\ (exists i,
             ci_find REMARKS_PATH (fst anchor) = Some i
             /\ i + List.length REMARKS_PATH < List.length (fst anchor))
       /\ snd anchor <> []
       /\ forallb not_quote (snd anchor) = true)
    (re_findall match_anchor html).
Proof.
  apply Forall_forall. intros [href title] Hin.
  apply findall_from_spec in Hin as (a & b & n & _ & Hb).
  unfold match_anchor in Hb.
  destruct (ci_startswith A_HREF b); [|discriminate].
  remember (skipn (List.length A_HREF) b) as s1 eqn:Es1.
  remember (takewhile not_quote s1) as href' eqn:Eh.
  destruct (skipn (List.length href') s1) as [|q s2]; [discriminate|].
  destruct (quote_cases q) as [->|Hq]; [|rewrite Hq in Hb; discriminate].
  destruct (ci_find REMARKS_PATH href') as [i|] eqn:Ei; [|discriminate].
  destruct (i + List.length REMARKS_PATH <? List.length href') eqn:El;
    [|discriminate].
  destruct (match_attr TITLE_EQ s2) as [[t n']|] eqn:Em; [|discriminate].
  injection Hb as <- <- _. cbn [fst snd].
  apply match_attr_spec in Em as [Hne Hq].
  split; [rewrite Eh; apply takewhile_all|]. split; [|split; assumption].
  exists i. split; [exact Ei|]. now apply Nat.ltb_lt.
Qed.

Lemma for_each_ext {A S : Type} (f g : S -> A -> outcome S) l s :
  (forall a, In a l -> forall s', f s' a = g s' a) ->
  for_each f l s = for_each g l s.
Proof.
  revert s. induction l as [|a l IH]; intros s H; [reflexivity|].
  simpl. rewrite (H a (or_introl eq_refl)).
  destruct (g s a) as [s'|e]; [|reflexivity]. simpl.
  apply IH. intros a' Ha'. apply H. now right.
Qed.

(** X23.  The result of a source depends on the network through the
    requests of that source alone: under a network that answers the
    URL of a source (the five query URLs for the Federal Register) as
    before and every other URL in any way at all, failures and delays
    included, the fetcher of that source returns the same result. *)
Theorem source_results_independent (rt : Runtime)
  (net : pystr -> dict pystr -> N -> outcome pystr) :
  ((forall t h n,
      In t FEEDS.federal_register.terms ->
      net (query_url t) h n = urlopen (query_url t) h n) ->
   fetch_federal_register (rt := with_urlopen rt net)
   = fetch_federal_register)
  /\ ((forall h n, net FEEDS.cbp_csms.url h n = urlopen FEEDS.cbp_csms.url h n) ->
      fetch_cbp_csms (rt := with_urlopen rt net) = fetch_cbp_csms)
  /\ ((forall h n,
         net FEEDS.eu_commission.url h n
         = urlopen FEEDS.eu_commission.url h n) ->
      fetch_eu_feed (rt := with_urlopen rt net) = fetch_eu_feed)
  /\ ((forall h n, net FEEDS.uk_dbt.url h n = urlopen FEEDS.uk_dbt.url h n) ->
      fetch_uk_feed (rt := with_urlopen rt net) = fetch_uk_feed)
  /\ ((forall h n,
         net FEEDS.china_mofcom.url h n
         = urlopen FEEDS.china_mofcom.url h n) ->
      fetch_china_mofcom (rt := with_urlopen rt net) = fetch_china_mofcom)
  /\ ((forall h n,
         net FEEDS.canada_finance.url h n
         = urlopen FEEDS.canada_finance.url h n) ->
      fetch_canada_page (rt := with_urlopen rt net) = fetch_canada_page).
Proof.
  assert (Hft : forall url,
            (forall h n, net url h n = urlopen url h n) ->
            fetch_text (rt := with_urlopen rt net) url = fetch_text url).
  { intros url H. unfold fetch_text. cbn [urlopen with_urlopen]. apply H. }
  split; [|split; [|split; [|split; [|split]]]]; intros H.
  - unfold fetch_federal_register.
    rewrite (for_each_ext (fetch_term (rt := with_urlopen rt net)) fetch_term);
      [reflexivity|].
    intros t Ht [merged out]. unfold fetch_term.
    change (query_url (rt := with_urlopen rt net) t) with (query_url t).
    rewrite (Hft (query_url t)) by (intros h n; now apply H).
    reflexivity.
  - unfold fetch_cbp_csms. rewrite (Hft _ H). reflexivity.
  - unfold fetch_eu_feed. rewrite (Hft _ H). reflexivity.
  - unfold fetch_uk_feed. rewrite (Hft _ H). reflexivity.
  - unfold fetch_china_mofcom. rewrite (Hft _ H). reflexivity.
  - unfold fetch_canada_page. rewrite (Hft _ H). reflexivity.
Qed.

(** X24.  A snapshot holds at most 196 items in all: 80, 40, 25, 25, 25
    and 1 for the six sources. *)
Theorem snapshot_size_bound (rt : Runtime) :
  exists snap,
    build_payload = Return snap
    /\ List.length (items (federal_register (feeds snap)))
       + List.length (items (cbp_csms (feeds snap)))
       + List.length (items (eu_commission (retaliation (feeds snap))))
       + List.length (items (uk_dbt (retaliation (feeds snap))))
       + List.length (items (china_mofcom (retaliation (feeds snap))))
       + List.length (items (canada_finance (retaliation (feeds snap))))
       <= 196.
Proof.
  destruct fetch_federal_register_shape as (r1 & E1 & _ & _ & L1 & _).
  destruct fetch_cbp_csms_shape as (r2 & E2 & _ & _ & L2 & _).
  destruct fetch_eu_feed_shape as (r3 & E3 & _ & _ & L3 & _).
  destruct fetch_uk_feed_shape as (r4 & E4 & _ & _ & L4 & _).
  destruct fetch_china_mofcom_shape as (r5 & E5 & _ & _ & L5 & _).
  destruct fetch_canada_page_shape as (r6 & E6 & _ & _ & L6 & _).
  unfold build_payload. rewrite E1, E2, E3, E4, E5, E6. cbn [bind].
  eexists. split; [reflexivity|].
  cbn [feeds federal_register cbp_csms retaliation eu_commission uk_dbt
       china_mofcom canada_finance].
  lia.
Qed.

(* ===================================================================== *)
(** * Concrete runs of the properties beyond the specification *)
(* ===================================================================== *)

Lemma normalize_ws_spaces_demo :
  normalize_ws (str " a  b ") = str "a b"
  /\ (exists a' x, str "a" = a' ++ [x] /\ isspace x = false)
  /\ (exists y b', str "b" = y :: b' /\ isspace y = false).
Proof.
  split; [reflexivity|].
  exact (proj2 (normalize_ws_spaces (str " a  b ")) (str "a") (str "b")
           eq_refl).
Defined.

Lemma source_results_independent_demo :
  fetch_cbp_csms (rt := with_urlopen Demo.quiet only_cbp)
  = fetch_cbp_csms (rt := Demo.quiet).
Proof.
  apply (source_results_independent Demo.quiet only_cbp).
  intros h n. reflexivity.
Defined.
